(** * Meteor Punch Garden: a shallow embedding of the simulation core

    The TypeScript sources are embedded function by function.  JavaScript
    numbers are idealised as real numbers ([R]): [Math.sqrt], [Math.pow],
    [Math.sin] and [Math.cos] become [sqrt], [Rpower], [sin] and [cos],
    and comparisons become the decidable order of [R].  Rounding,
    infinities and NaN (as produced by the division by a zero delta time in
    [Player.updateMovement]) are outside this idealisation.  Mutable objects
    become records that are passed through every method; a method that
    both mutates its receiver and returns a value returns a pair.  Meshes,
    scene graph, styles and console output are presentation and are left out;
    of the HUD the texts and colours of its two displays are kept, of the
    effects the particles, of the camera its position.  *)

From Stdlib Require Import Reals Lra Lia List Bool Arith.
From Stdlib Require String Ascii DecimalString.
Import ListNotations.

Local Open Scope R_scope.

(** ** Comparisons of JavaScript numbers *)

Definition Rleb (a b : R) : bool := if Rle_dec a b then true else false.
Definition Rltb (a b : R) : bool := if Rlt_dec a b then true else false.
Definition Rgeb (a b : R) : bool := Rleb b a.
Definition Rgtb (a b : R) : bool := Rltb b a.

(** ** THREE.Vector3 *)

Module Vector3.

Record t : Type := mk { x : R; y : R; z : R }.

Definition zero : t := mk 0 0 0.

Definition add (a b : t) : t := mk (x a + x b) (y a + y b) (z a + z b).
Definition sub (a b : t) : t := mk (x a - x b) (y a - y b) (z a - z b).
Definition multiplyScalar (a : t) (s : R) : t := mk (x a * s) (y a * s) (z a * s).
Definition addScaledVector (a v : t) (s : R) : t :=
  mk (x a + x v * s) (y a + y v * s) (z a + z v * s).

Definition length (a : t) : R := sqrt (x a * x a + y a * y a + z a * z a).

(** [divideScalar(s)] is [multiplyScalar(1 / s)]. *)
Definition divideScalar (a : t) (s : R) : t := multiplyScalar a (1 / s).

(** [normalize()] is [divideScalar(length() || 1)]: the zero vector has
    length 0, which is falsy, and is divided by 1. *)
Definition normalize (a : t) : t :=
  divideScalar a (if Req_dec_T (length a) 0 then 1 else length a).

Definition distanceTo (a b : t) : R := length (sub a b).

(** [lerp(v, alpha)]: each component moves by [alpha] of its way to [v]. *)
Definition lerp (a v : t) (alpha : R) : t :=
  mk (x a + (x v - x a) * alpha) (y a + (y v - y a) * alpha) (z a + (z v - z a) * alpha).

(** [crossVectors(a, b)] *)
Definition crossVectors (a b : t) : t :=
  mk (y a * z b - z a * y b) (z a * x b - x a * z b) (x a * y b - y a * x b).

Definition setY (a : t) (v : R) : t := mk (x a) v (z a).

End Vector3.

Definition Vec : Type := Vector3.t.

(** THREE.Sphere *)
Record Sphere : Type := mkSphere { center : Vec; radius : R }.

(** ** Terrain (SceneFactory.getTerrainHeight) *)

Definition getTerrainHeight (x z : R) : R :=
  let planeY := - z in
  sin (x * 0.8) * cos (planeY * 0.8) * 0.3 +
  sin (x * 1.5 + 1) * sin (planeY * 1.2 + 0.5) * 0.2 +
  cos (x * 0.5 - planeY * 0.7) * 0.15.

(** ** GameState and StateMachine (core/GameState.ts, core/StateMachine) *)

Inductive GameState : Type := Boot | Title | Play | Result.

Definition GameState_eqb (a b : GameState) : bool :=
  match a, b with
  | Boot, Boot | Title, Title | Play, Play | Result, Result => true
  | _, _ => false
  end.

(** A callback invocation, as it would be seen by an observer. *)
Inductive Call : Type :=
| OnExit (s : GameState)
| OnEnter (s : GameState).

Section StateMachine.

(** Everything outside the machine that a handler callback may change. *)
Variable World : Type.

(** [StateHandler]: both callbacks are optional.  A callback changes
    the world; it does not call back into the machine ([Game] only does so
    from a deferred [setTimeout]). *)
Record StateHandler : Type := mkHandler {
  onEnter : option (World -> World);
  onExit : option (World -> World)
}.

Record StateMachine : Type := mkMachine {
  currentState : GameState;
  stateHandlers : GameState -> option StateHandler;   (* Map<GameState, StateHandler> *)
  world : World;
  calls : list Call;          (* callbacks invoked so far, oldest first *)
  warnings : nat              (* number of console.warn diagnostics *)
}.

(** The [validTransitions] record of [canTransitionTo]. *)
Definition validTransitions (s : GameState) : list GameState :=
  match s with
  | Boot => [Title]
  | Title => [Play]
  | Play => [Result]
  | Result => [Play; Title]
  end.

Definition canTransitionTo (m : StateMachine) (newState : GameState) : bool :=
  existsb (GameState_eqb newState) (validTransitions (currentState m)).

(** [oldHandler?.onExit] *)
Definition handlerOnExit (m : StateMachine) (s : GameState) : option (World -> World) :=
  match stateHandlers m s with
  | Some h => onExit h
  | None => None
  end.

Definition handlerOnEnter (m : StateMachine) (s : GameState) : option (World -> World) :=
  match stateHandlers m s with
  | Some h => onEnter h
  | None => None
  end.

Definition invoke (c : Call) (f : option (World -> World)) (m : StateMachine)
  : StateMachine :=
  match f with
  | Some g => mkMachine (currentState m) (stateHandlers m) (g (world m))
                        (calls m ++ [c]) (warnings m)
  | None => m
  end.

Definition setCurrentState (s : GameState) (m : StateMachine) : StateMachine :=
  mkMachine s (stateHandlers m) (world m) (calls m) (warnings m).

(** The handlers close over the world; a handler that changes it is a
    change of the [world] field. *)
Definition setWorld (w : World) (m : StateMachine) : StateMachine :=
  mkMachine (currentState m) (stateHandlers m) w (calls m) (warnings m).

Definition addStateHandler (state : GameState) (handler : StateHandler)
    (m : StateMachine) : StateMachine :=
  mkMachine (currentState m)
            (fun s => if GameState_eqb s state then Some handler else stateHandlers m s)
            (world m) (calls m) (warnings m).

Definition transitionTo (newState : GameState) (m : StateMachine) : StateMachine :=
  if negb (canTransitionTo m newState) then
    mkMachine (currentState m) (stateHandlers m) (world m) (calls m) (S (warnings m))
  else
    let m1 := invoke (OnExit (currentState m)) (handlerOnExit m (currentState m)) m in
    let m2 := setCurrentState newState m1 in
    invoke (OnEnter newState) (handlerOnEnter m2 newState) m2.

(** The adjacency table as the specification lists it. *)
Definition adjacency_table : list (GameState * GameState) :=
  [(Boot, Title); (Title, Play); (Play, Result); (Result, Play); (Result, Title)].

Definition in_table (a b : GameState) : bool :=
  existsb (fun p => GameState_eqb (fst p) a && GameState_eqb (snd p) b) adjacency_table.

Definition callsOf (c : Call) (f : option (World -> World)) : list Call :=
  match f with Some _ => [c] | None => [] end.

Definition applyOpt (f : option (World -> World)) (w : World) : World :=
  match f with Some g => g w | None => w end.

End StateMachine.

Arguments mkHandler {World}.
Arguments onEnter {World}.
Arguments onExit {World}.
Arguments mkMachine {World}.
Arguments currentState {World}.
Arguments stateHandlers {World}.
Arguments world {World}.
Arguments calls {World}.
Arguments warnings {World}.
Arguments canTransitionTo {World}.
Arguments handlerOnExit {World}.
Arguments handlerOnEnter {World}.
Arguments invoke {World}.
Arguments setCurrentState {World}.
Arguments setWorld {World}.
Arguments addStateHandler {World}.
Arguments transitionTo {World}.
Arguments callsOf {World}.
Arguments applyOpt {World}.

(** ** Input snapshot (input/InputManager.ts) *)

Record InputState : Type := mkInput {
  movement_x : R;
  movement_z : R;
  jump : bool;
  punch : bool;
  jumpPressed : bool;
  punchPressed : bool
}.

(** ** Player (entities/Player) *)

Module Player.

Record t : Type := mk {
  position : Vec;
  velocity : Vec;
  isGrounded : bool;
  punchActive : bool;
  punchTimer : R;
  knockbackTimer : R;
  isKnockedBack : bool;
  moveSpeed : R;
  direction : Vec;
  punchSphere : Sphere
}.

Definition jumpSpeed : R := 8.5.
Definition gravity : R := -18.
Definition airControlFactor : R := 0.6.
Definition punchDuration : R := 0.25.
Definition punchRadius : R := 0.6.
Definition punchOffset : R := 0.7.
Definition knockbackDuration : R := 0.4.

(** The constructor: every field at its initialiser, position (0, 1, 0);
    [new THREE.Sphere()] has radius -1. *)
Definition new : t :=
  mk (Vector3.mk 0 1 0) Vector3.zero false false 0 0 false 4.0 Vector3.zero
     (mkSphere Vector3.zero (-1)).

Definition set_position (v : Vec) (p : t) : t :=
  mk v (velocity p) (isGrounded p) (punchActive p) (punchTimer p) (knockbackTimer p)
     (isKnockedBack p) (moveSpeed p) (direction p) (punchSphere p).
Definition set_velocity (v : Vec) (p : t) : t :=
  mk (position p) v (isGrounded p) (punchActive p) (punchTimer p) (knockbackTimer p)
     (isKnockedBack p) (moveSpeed p) (direction p) (punchSphere p).
Definition set_isGrounded (b : bool) (p : t) : t :=
  mk (position p) (velocity p) b (punchActive p) (punchTimer p) (knockbackTimer p)
     (isKnockedBack p) (moveSpeed p) (direction p) (punchSphere p).
Definition set_punchActive (b : bool) (p : t) : t :=
  mk (position p) (velocity p) (isGrounded p) b (punchTimer p) (knockbackTimer p)
     (isKnockedBack p) (moveSpeed p) (direction p) (punchSphere p).
Definition set_punchTimer (r : R) (p : t) : t :=
  mk (position p) (velocity p) (isGrounded p) (punchActive p) r (knockbackTimer p)
     (isKnockedBack p) (moveSpeed p) (direction p) (punchSphere p).
Definition set_knockbackTimer (r : R) (p : t) : t :=
  mk (position p) (velocity p) (isGrounded p) (punchActive p) (punchTimer p) r
     (isKnockedBack p) (moveSpeed p) (direction p) (punchSphere p).
Definition set_isKnockedBack (b : bool) (p : t) : t :=
  mk (position p) (velocity p) (isGrounded p) (punchActive p) (punchTimer p)
     (knockbackTimer p) b (moveSpeed p) (direction p) (punchSphere p).
Definition set_direction (v : Vec) (p : t) : t :=
  mk (position p) (velocity p) (isGrounded p) (punchActive p) (punchTimer p)
     (knockbackTimer p) (isKnockedBack p) (moveSpeed p) v (punchSphere p).
Definition set_punchSphere (s : Sphere) (p : t) : t :=
  mk (position p) (velocity p) (isGrounded p) (punchActive p) (punchTimer p)
     (knockbackTimer p) (isKnockedBack p) (moveSpeed p) (direction p) s.
Definition setMoveSpeed (speed : R) (p : t) : t :=
  mk (position p) (velocity p) (isGrounded p) (punchActive p) (punchTimer p)
     (knockbackTimer p) (isKnockedBack p) speed (direction p) (punchSphere p).

(** The clamp of [updateMovement]:
    [Math.max(-5 + margin, Math.min(5 - margin, v))] with [margin = 0.5]. *)
Definition margin : R := 0.5.
Definition constrain (v : R) : R := Rmax (-5 + margin) (Rmin (5 - margin) v).

(** The movement vector of [updateMovement] after the optional
    re-projection on the camera axes. *)
Definition worldMovement (movementVector : Vec) (cameraDirection : option Vec) : Vec :=
  match cameraDirection with
  | Some c =>
      let cameraForward := Vector3.normalize (Vector3.setY (Vector3.normalize c) 0) in
      let cameraRight := Vector3.crossVectors cameraForward (Vector3.mk 0 1 0) in
      Vector3.addScaledVector
        (Vector3.addScaledVector Vector3.zero cameraRight (Vector3.x movementVector))
        cameraForward (- Vector3.z movementVector)
  | None => movementVector
  end.

Definition updateMovement (deltaTime : R) (inputState : InputState)
    (cameraDirection : option Vec) (p : t) : t :=
  let movementVector := Vector3.mk (movement_x inputState) 0 (movement_z inputState) in
  let p1 :=
    if Rltb 0 (Vector3.length movementVector) then
      let mv := Vector3.normalize (worldMovement movementVector cameraDirection) in
      let currentMoveSpeed :=
        if isGrounded p then moveSpeed p else moveSpeed p * airControlFactor in
      let mv := Vector3.multiplyScalar mv (currentMoveSpeed * deltaTime) in
      let v := Vector3.mk (Vector3.x mv / deltaTime) (Vector3.y (velocity p))
                          (Vector3.z mv / deltaTime) in
      set_direction (Vector3.normalize mv) (set_velocity v p)
    else if isGrounded p then
      let v := Vector3.mk (Vector3.x (velocity p) * Rpower 0.1 deltaTime)
                          (Vector3.y (velocity p))
                          (Vector3.z (velocity p) * Rpower 0.1 deltaTime) in
      set_velocity v p
    else p in
  let pos := position p1 in
  let v := velocity p1 in
  set_position
    (Vector3.mk (constrain (Vector3.x pos + Vector3.x v * deltaTime))
                (Vector3.y pos)
                (constrain (Vector3.z pos + Vector3.z v * deltaTime))) p1.

Definition updateJump (inputState : InputState) (p : t) : t :=
  if jumpPressed inputState && isGrounded p then
    set_isGrounded false (set_velocity (Vector3.setY (velocity p) jumpSpeed) p)
  else p.

(** The aim of the punch: the camera direction flattened on the
    horizontal plane, or (0, 0, -1) without a camera. *)
Definition punchDirection (cameraDirection : option Vec) : Vec :=
  match cameraDirection with
  | Some c => Vector3.normalize (Vector3.setY (Vector3.normalize c) 0)
  | None => Vector3.mk 0 0 (-1)
  end.

Definition placePunchSphere (cameraDirection : option Vec) (p : t) : t :=
  let punchPosition :=
    Vector3.add (position p)
                (Vector3.multiplyScalar (punchDirection cameraDirection) punchOffset) in
  set_punchSphere (mkSphere punchPosition punchRadius) p.

(** The guard of the first [if] of [updatePunch]. *)
Definition punchActivates (p : t) : bool := negb (isGrounded p) && negb (punchActive p).

Definition updatePunch (deltaTime : R) (inputState : InputState)
    (cameraDirection : option Vec) (p : t) : t :=
  let p1 :=
    if punchActivates p then
      placePunchSphere cameraDirection
        (set_punchTimer punchDuration (set_punchActive true p))
    else p in
  if punchActive p1 then
    let p2 := set_punchTimer (punchTimer p1 - deltaTime) p1 in
    if Rleb (punchTimer p2) 0 || isGrounded p2 then set_punchActive false p2
    else placePunchSphere cameraDirection p2
  else p1.

Definition respawn (p : t) : t :=
  set_isGrounded false (set_velocity Vector3.zero (set_position (Vector3.mk 0 1 0) p)).

Definition updatePhysics (deltaTime : R) (p : t) : t :=
  let v := Vector3.setY (velocity p) (Vector3.y (velocity p) + gravity * deltaTime) in
  let p1 := set_velocity v p in
  let p2 := set_position (Vector3.add (position p1) (Vector3.multiplyScalar v deltaTime)) p1 in
  if Rltb (Vector3.y (position p2)) (-10) then respawn p2 else p2.

Definition updateGroundCheck (p : t) : t :=
  let terrainHeight := getTerrainHeight (Vector3.x (position p)) (Vector3.z (position p)) in
  let groundLevel := terrainHeight + 0.6 in
  let landed :=
    set_velocity (Vector3.setY (velocity p) 0)
      (set_position (Vector3.setY (position p) groundLevel) p) in
  if isGrounded p then landed
  else if Rleb (Vector3.y (position p)) groundLevel && Rleb (Vector3.y (velocity p)) 0 then
    set_isGrounded true landed
  else p.

Definition updateKnockback (deltaTime : R) (p : t) : t :=
  let p1 := set_knockbackTimer (knockbackTimer p - deltaTime) p in
  let p2 := if Rleb (knockbackTimer p1) 0 then set_isKnockedBack false p1 else p1 in
  updateGroundCheck (updatePhysics deltaTime p2).

Definition update (deltaTime : R) (inputState : InputState)
    (cameraDirection : option Vec) (p : t) : t :=
  if isKnockedBack p then updateKnockback deltaTime p
  else
    updateGroundCheck
      (updatePhysics deltaTime
         (updatePunch deltaTime inputState cameraDirection
            (updateJump inputState
               (updateMovement deltaTime inputState cameraDirection p)))).

Definition applyKnockback (dir : Vec) (force : R) (p : t) : t :=
  let v := Vector3.multiplyScalar (Vector3.normalize dir) force in
  let v := Vector3.setY v (Rmax (Vector3.y v) 3) in
  set_isGrounded false
    (set_knockbackTimer knockbackDuration
       (set_isKnockedBack true (set_velocity v p))).

Definition getPunchSphere (p : t) : option Sphere :=
  if punchActive p then Some (punchSphere p) else None.

Definition getBoundingSphere (p : t) : Sphere := mkSphere (position p) 0.5.

(** Whether the call [update deltaTime inputState cameraDirection] on [p]
    takes the activation branch of [updatePunch]. *)
Definition activatesPunch (deltaTime : R) (inputState : InputState)
    (cameraDirection : option Vec) (p : t) : bool :=
  if isKnockedBack p then false
  else punchActivates
         (updateJump inputState (updateMovement deltaTime inputState cameraDirection p)).

End Player.

(** ** Math.random *)

(** The results of the future calls of [Math.random()], in call order. *)
Definition Rng : Type := nat -> R.

Definition random (g : Rng) : R * Rng := (g 0%nat, fun n => g (S n)).

(** ** Meteor (entities/Meteor)

    The sources hold two copies of this class; the one embedded here is
    the copy that tests the fall against [getTerrainHeight]. *)

Inductive MeteorState : Type := Telegraph | Falling | Destroyed | Exploded.

Definition MeteorState_eqb (a b : MeteorState) : bool :=
  match a, b with
  | Telegraph, Telegraph | Falling, Falling
  | Destroyed, Destroyed | Exploded, Exploded => true
  | _, _ => false
  end.

Module Meteor.

Record t : Type := mk {
  position : Vec;
  velocity : Vec;
  targetPosition : Vec;
  state : MeteorState;
  timer : R;
  fallSpeed : R
}.

Definition telegraphDuration : R := 1.0.
Definition meteorRadius : R := 0.45.
Definition telegraphRadius : R := 0.7.
Definition explosionRadius : R := 1.6.
Definition spawnHeight : R := 12.

Definition new (targetPos : Vec) : t :=
  mk (Vector3.mk (Vector3.x targetPos) spawnHeight (Vector3.z targetPos))
     Vector3.zero (Vector3.setY targetPos 0) Telegraph 0 12.

Definition set_state (s : MeteorState) (m : t) : t :=
  mk (position m) (velocity m) (targetPosition m) s (timer m) (fallSpeed m).
Definition set_position (v : Vec) (m : t) : t :=
  mk v (velocity m) (targetPosition m) (state m) (timer m) (fallSpeed m).
Definition set_velocity (v : Vec) (m : t) : t :=
  mk (position m) v (targetPosition m) (state m) (timer m) (fallSpeed m).
Definition set_timer (r : R) (m : t) : t :=
  mk (position m) (velocity m) (targetPosition m) (state m) r (fallSpeed m).
Definition setFallSpeed (speed : R) (m : t) : t :=
  mk (position m) (velocity m) (targetPosition m) (state m) (timer m) speed.

Definition explode (m : t) : t := set_state Exploded m.
Definition destroy (m : t) : t := set_state Destroyed m.

Definition updateTelegraph (_deltaTime : R) (m : t) : t :=
  if Rgeb (timer m) telegraphDuration then
    let direction := Vector3.normalize (Vector3.sub (targetPosition m) (position m)) in
    set_velocity (Vector3.multiplyScalar direction (fallSpeed m)) (set_state Falling m)
  else m.

Definition updateFalling (deltaTime : R) (m : t) : t :=
  let m1 :=
    set_position
      (Vector3.add (position m) (Vector3.multiplyScalar (velocity m) deltaTime)) m in
  let terrainHeight :=
    getTerrainHeight (Vector3.x (position m1)) (Vector3.z (position m1)) in
  if Rleb (Vector3.y (position m1)) (terrainHeight + meteorRadius) then explode m1
  else m1.

(** [update] mutates the meteor and returns whether to keep it. *)
Definition update (deltaTime : R) (m : t) : bool * t :=
  let m1 := set_timer (timer m + deltaTime) m in
  match state m1 with
  | Telegraph => (true, updateTelegraph deltaTime m1)
  | Falling => (true, updateFalling deltaTime m1)
  | Destroyed => (false, m1)
  | Exploded => (false, m1)
  end.

Definition getBoundingSphere (m : t) : Sphere := mkSphere (position m) meteorRadius.
Definition getExplosionSphere (m : t) : Sphere := mkSphere (targetPosition m) explosionRadius.
Definition getTelegraphPosition (m : t) : option Vec :=
  if MeteorState_eqb (state m) Telegraph then Some (targetPosition m) else None.
Definition isFalling (m : t) : bool := MeteorState_eqb (state m) Falling.
Definition isExploded (m : t) : bool := MeteorState_eqb (state m) Exploded.
Definition canBeDestroyed (m : t) : bool := MeteorState_eqb (state m) Falling.

Definition generateRandomTarget (stageSize margin : R) (g : Rng) : Vec * Rng :=
  let maxPos := stageSize - margin in
  let (r1, g1) := random g in
  let (r2, g2) := random g1 in
  (Vector3.mk ((r1 - 0.5) * maxPos * 2) 0 ((r2 - 0.5) * maxPos * 2), g2).

Definition isValidTarget (newTarget : Vec) (recentTargets : list Vec) (minDistance : R)
  : bool :=
  forallb (fun recent => negb (Rltb (Vector3.distanceTo newTarget recent) minDistance))
          recentTargets.

End Meteor.

(** ** MeteorSpawner (systems/MeteorSpawner) *)

Record DifficultyPhase : Type := mkPhase {
  startTime : R;
  endTime : R;
  spawnInterval : R
}.

(** The labels of [getCurrentDifficulty]. *)
Module Difficulty.
Import String.
Definition beyond_phases : string := "beyond-phases"%string.
Definition easy : string := "easy"%string.
Definition normal : string := "normal"%string.
Definition hard : string := "hard"%string.
End Difficulty.

Module MeteorSpawner.

Record t : Type := mk {
  meteors : list Meteor.t;
  spawnTimer : R;
  gameTime : R;
  recentTargets : list Vec;
  difficultyPhases : list DifficultyPhase;
  debugFrequencyMultiplier : R;
  debugMeteorSpeed : R
}.

Definition maxRecentTargets : nat := 2.
Definition stageSize : R := 5.
Definition stageMargin : R := 0.8.
Definition minTargetDistance : R := 2.0.
Definition maxSimultaneousMeteors : nat := 8.

Definition new : t :=
  mk [] 0 0 []
     [mkPhase 0 20 1.2; mkPhase 20 40 0.9; mkPhase 40 60 0.7]
     1.0 12.

Definition set_meteors (ms : list Meteor.t) (s : t) : t :=
  mk ms (spawnTimer s) (gameTime s) (recentTargets s) (difficultyPhases s)
     (debugFrequencyMultiplier s) (debugMeteorSpeed s).
Definition set_spawnTimer (r : R) (s : t) : t :=
  mk (meteors s) r (gameTime s) (recentTargets s) (difficultyPhases s)
     (debugFrequencyMultiplier s) (debugMeteorSpeed s).
Definition set_gameTime (r : R) (s : t) : t :=
  mk (meteors s) (spawnTimer s) r (recentTargets s) (difficultyPhases s)
     (debugFrequencyMultiplier s) (debugMeteorSpeed s).
Definition set_recentTargets (l : list Vec) (s : t) : t :=
  mk (meteors s) (spawnTimer s) (gameTime s) l (difficultyPhases s)
     (debugFrequencyMultiplier s) (debugMeteorSpeed s).
Definition setFrequencyMultiplier (multiplier : R) (s : t) : t :=
  mk (meteors s) (spawnTimer s) (gameTime s) (recentTargets s) (difficultyPhases s)
     multiplier (debugMeteorSpeed s).
Definition setMeteorSpeed (speed : R) (s : t) : t :=
  mk (map (Meteor.setFallSpeed speed) (meteors s)) (spawnTimer s) (gameTime s)
     (recentTargets s) (difficultyPhases s) (debugFrequencyMultiplier s) speed.

Definition reset (s : t) : t :=
  mk [] 0 0 [] (difficultyPhases s) (debugFrequencyMultiplier s) (debugMeteorSpeed s).

Definition getCurrentDifficultyPhase (s : t) : option DifficultyPhase :=
  find (fun phase => Rgeb (gameTime s) (startTime phase) && Rltb (gameTime s) (endTime phase))
       (difficultyPhases s).

(** The loop of [generateValidTarget], with [attempts] iterations left;
    after the loop one more random target is returned unchecked. *)
Fixpoint generateValidTargetLoop (attempts : nat) (s : t) (g : Rng) : Vec * Rng :=
  match attempts with
  | O => Meteor.generateRandomTarget stageSize stageMargin g
  | S n =>
      let (target, g1) := Meteor.generateRandomTarget stageSize stageMargin g in
      if Meteor.isValidTarget target (recentTargets s) minTargetDistance
      then (target, g1)
      else generateValidTargetLoop n s g1
  end.

Definition generateValidTarget (s : t) (g : Rng) : Vec * Rng :=
  generateValidTargetLoop 10 s g.

Definition addRecentTarget (target : Vec) (s : t) : t :=
  let l := recentTargets s ++ [target] in
  set_recentTargets (if Nat.ltb maxRecentTargets (length l) then tl l else l) s.

Definition trySpawnMeteor (s : t) (g : Rng) : t * Rng :=
  if Nat.leb maxSimultaneousMeteors (length (meteors s)) then (s, g)
  else
    let (target, g1) := generateValidTarget s g in
    let meteor := Meteor.setFallSpeed (debugMeteorSpeed s) (Meteor.new target) in
    (addRecentTarget target (set_meteors (meteors s ++ [meteor]) s), g1).

Definition updateMeteors (deltaTime : R) (s : t) : t :=
  set_meteors (map (fun meteor => snd (Meteor.update deltaTime meteor)) (meteors s)) s.

(** The filter of [cleanupMeteors]: its predicate calls [update(0)] on
    every meteor, which mutates it, and keeps those that return [true]. *)
Fixpoint cleanupFilter (ms : list Meteor.t) : list Meteor.t :=
  match ms with
  | [] => []
  | meteor :: rest =>
      let (shouldKeep, meteor') := Meteor.update 0 meteor in
      if shouldKeep then meteor' :: cleanupFilter rest else cleanupFilter rest
  end.

Definition cleanupMeteors (s : t) : t := set_meteors (cleanupFilter (meteors s)) s.

(** The objects that [cleanupMeteors] drops from the list (and removes
    from the scene), in the state it leaves them in. *)
Fixpoint cleanupRemoved (ms : list Meteor.t) : list Meteor.t :=
  match ms with
  | [] => []
  | meteor :: rest =>
      let (shouldKeep, meteor') := Meteor.update 0 meteor in
      if shouldKeep then cleanupRemoved rest else meteor' :: cleanupRemoved rest
  end.

(** [update] up to and including the spawn attempt. *)
Definition updateCadence (deltaTime : R) (s : t) (g : Rng) : t * Rng :=
  let s1 := set_spawnTimer (spawnTimer s + deltaTime)
              (set_gameTime (gameTime s + deltaTime) s) in
  match getCurrentDifficultyPhase s1 with
  | Some currentPhase =>
      let requiredInterval := spawnInterval currentPhase * debugFrequencyMultiplier s1 in
      if Rgeb (spawnTimer s1) requiredInterval then
        let (s2, g1) := trySpawnMeteor s1 g in
        (set_spawnTimer 0 s2, g1)
      else (s1, g)
  | None => (s1, g)
  end.

Definition update (deltaTime : R) (s : t) (g : Rng) : t * Rng :=
  let (s1, g1) := updateCadence deltaTime s g in
  (cleanupMeteors (updateMeteors deltaTime s1), g1).

Definition getMeteors (s : t) : list Meteor.t := meteors s.

Definition getTelegraphPositions (s : t) : list Vec :=
  flat_map (fun meteor => match Meteor.getTelegraphPosition meteor with
                          | Some pos => [pos]
                          | None => []
                          end) (meteors s).

Definition getGameTime (s : t) : R := gameTime s.
Definition getFrequencyMultiplier (s : t) : R := debugFrequencyMultiplier s.

Definition getCurrentDifficulty (s : t) : String.string :=
  match getCurrentDifficultyPhase s with
  | None => Difficulty.beyond_phases
  | Some _ =>
      if Rltb (gameTime s) 20 then Difficulty.easy
      else if Rltb (gameTime s) 40 then Difficulty.normal
      else Difficulty.hard
  end.

(** The object returned by [getSpawnStats]. *)
Record SpawnStats : Type := mkStats {
  totalMeteors : nat;
  statsGameTime : R;
  currentDifficulty : String.string;
  nextSpawnIn : R;
  statsRecentTargets : nat
}.

Definition getSpawnStats (s : t) : SpawnStats :=
  mkStats (length (meteors s)) (gameTime s) (getCurrentDifficulty s)
          (match getCurrentDifficultyPhase s with
           | Some phase => spawnInterval phase
           | None => 0
           end - spawnTimer s)
          (length (recentTargets s)).

End MeteorSpawner.

(** ** Creature (entities/Creature.ts) *)

Inductive CreatureState : Type := walking | fleeing | idle.

Module Creature.

Record t : Type := mk {
  position : Vec;
  velocity : Vec;
  targetPosition : Vec;
  state : CreatureState;
  moveTimer : R;
  moveInterval : R;
  isAlive : bool
}.

Definition walkSpeed : R := 1.2.
Definition fleeSpeed : R := 2.0.
Definition fleeDistance : R := 2.5.
Definition radius : R := 0.35.
Definition stageMargin : R := 0.8.

Definition set_position (v : Vec) (c : t) : t :=
  mk v (velocity c) (targetPosition c) (state c) (moveTimer c) (moveInterval c) (isAlive c).
Definition set_velocity (v : Vec) (c : t) : t :=
  mk (position c) v (targetPosition c) (state c) (moveTimer c) (moveInterval c) (isAlive c).
Definition set_targetPosition (v : Vec) (c : t) : t :=
  mk (position c) (velocity c) v (state c) (moveTimer c) (moveInterval c) (isAlive c).
Definition set_state (s : CreatureState) (c : t) : t :=
  mk (position c) (velocity c) (targetPosition c) s (moveTimer c) (moveInterval c) (isAlive c).
Definition set_moveTimer (r : R) (c : t) : t :=
  mk (position c) (velocity c) (targetPosition c) (state c) r (moveInterval c) (isAlive c).
Definition set_moveInterval (r : R) (c : t) : t :=
  mk (position c) (velocity c) (targetPosition c) (state c) (moveTimer c) r (isAlive c).

Definition generateRandomTarget (c : t) (g : Rng) : t * Rng :=
  let stageSize := 5 - stageMargin in
  let (r1, g1) := random g in
  let (r2, g2) := random g1 in
  (set_targetPosition
     (Vector3.mk ((r1 - 0.5) * stageSize * 2) 0 ((r2 - 0.5) * stageSize * 2)) c, g2).

(** The constructor; [createMesh] draws one random number for the hue
    before [generateRandomTarget] draws two. *)
Definition new (spawnPosition : Vec) (g : Rng) : t * Rng :=
  let (_, g1) := random g in
  generateRandomTarget (mk spawnPosition Vector3.zero spawnPosition walking 0 2.0 true) g1.

(** [findNearestThreat]: the first position at the least distance. *)
Fixpoint findNearestThreatFrom (c : t) (meteorPositions : list Vec)
    (nearestThreat : option (Vec * R)) : option (Vec * R) :=
  match meteorPositions with
  | [] => nearestThreat
  | meteorPos :: rest =>
      let distance := Vector3.distanceTo (position c) meteorPos in
      let closer := match nearestThreat with
                    | None => true      (* minDistance = Infinity *)
                    | Some (_, minDistance) => Rltb distance minDistance
                    end in
      findNearestThreatFrom c rest
        (if closer then Some (meteorPos, distance) else nearestThreat)
  end.

Definition findNearestThreat (c : t) (meteorPositions : list Vec) : option (Vec * R) :=
  findNearestThreatFrom c meteorPositions None.

Definition constrainTargetToStage (c : t) : t :=
  let maxPos := 5 - stageMargin in
  let minPos := - maxPos in
  let tp := targetPosition c in
  set_targetPosition
    (Vector3.mk (Rmax minPos (Rmin maxPos (Vector3.x tp))) (Vector3.y tp)
                (Rmax minPos (Rmin maxPos (Vector3.z tp)))) c.

Definition calculateFleeTarget (threatPosition : Vec) (c : t) : t :=
  let fleeDirection := Vector3.normalize (Vector3.sub (position c) threatPosition) in
  constrainTargetToStage
    (set_targetPosition
       (Vector3.add (position c) (Vector3.multiplyScalar fleeDirection 3.0)) c).

Definition updateWalkingBehavior (deltaTime : R) (c : t) (g : Rng) : t * Rng :=
  let c1 := set_moveTimer (moveTimer c + deltaTime) c in
  let distanceToTarget := Vector3.distanceTo (position c1) (targetPosition c1) in
  if Rltb distanceToTarget 0.5 || Rgtb (moveTimer c1) (moveInterval c1) then
    let (c2, g1) := generateRandomTarget c1 g in
    let (r, g2) := random g1 in
    (set_moveInterval (1.5 + r * 2.0) (set_moveTimer 0 c2), g2)
  else (c1, g).

Definition updateBehavior (deltaTime : R) (meteorPositions : list Vec) (c : t) (g : Rng)
  : t * Rng :=
  let flee := match findNearestThreat c meteorPositions with
              | Some (pos, distance) =>
                  if Rltb distance fleeDistance then Some pos else None
              | None => None
              end in
  match flee with
  | Some pos => (calculateFleeTarget pos (set_state fleeing c), g)
  | None =>
      let (c1, g1) :=
        match state c with
        | fleeing => generateRandomTarget (set_state walking c) g
        | _ => (c, g)
        end in
      updateWalkingBehavior deltaTime c1 g1
  end.

Definition updateMovement (_deltaTime : R) (c : t) : t :=
  let direction := Vector3.setY (Vector3.sub (targetPosition c) (position c)) 0 in
  if Rgtb (Vector3.length direction) 0.1 then
    let speed := match state c with fleeing => fleeSpeed | _ => walkSpeed end in
    set_velocity (Vector3.multiplyScalar (Vector3.normalize direction) speed) c
  else set_velocity (Vector3.multiplyScalar (velocity c) 0.9) c.

Definition updatePosition (deltaTime : R) (c : t) : t :=
  let p := Vector3.add (position c) (Vector3.multiplyScalar (velocity c) deltaTime) in
  let maxPos := 5 - stageMargin in
  let minPos := - maxPos in
  set_position
    (Vector3.mk (Rmax minPos (Rmin maxPos (Vector3.x p))) (radius / 2)
                (Rmax minPos (Rmin maxPos (Vector3.z p)))) c.

Definition update (deltaTime : R) (meteorPositions : list Vec) (c : t) (g : Rng)
  : t * Rng :=
  if negb (isAlive c) then (c, g)
  else
    let (c1, g1) := updateBehavior deltaTime meteorPositions c g in
    (updatePosition deltaTime (updateMovement deltaTime c1), g1).

Definition takeDamage (c : t) : t :=
  mk (position c) (velocity c) (targetPosition c) (state c) (moveTimer c)
     (moveInterval c) false.

Definition getBoundingSphere (c : t) : Sphere := mkSphere (position c) radius.
Definition isCreatureAlive (c : t) : bool := isAlive c.

Definition createSpawnPositions : list Vec :=
  [Vector3.mk (-2) 0.35 (-2); Vector3.mk 2 0.35 2; Vector3.mk (-1) 0.35 3].

(** [spawnPositions.map(pos => new Creature(pos))] *)
Fixpoint createAll (spawnPositions : list Vec) (g : Rng) : list t * Rng :=
  match spawnPositions with
  | [] => ([], g)
  | pos :: rest =>
      let (c, g1) := new pos g in
      let (cs, g2) := createAll rest g1 in
      (c :: cs, g2)
  end.

(** [creatures.forEach(creature => creature.update(deltaTime, positions))] *)
Fixpoint updateAll (deltaTime : R) (meteorPositions : list Vec) (cs : list t) (g : Rng)
  : list t * Rng :=
  match cs with
  | [] => ([], g)
  | c :: rest =>
      let (c1, g1) := update deltaTime meteorPositions c g in
      let (rest1, g2) := updateAll deltaTime meteorPositions rest g1 in
      (c1 :: rest1, g2)
  end.

End Creature.

(** ** CollisionSystem (systems/CollisionSystem.ts) *)

Inductive CollisionEvent : Type :=
| punch_hit_meteor (meteor : Meteor.t) (position : Vec)
| meteor_explosion (meteor : Meteor.t) (position : Vec) (radius : R)
| meteor_hit_player (meteor : Meteor.t) (position : Vec) (directHit : bool)
| meteor_hit_creature (meteor : Meteor.t) (creature : Creature.t) (position : Vec)
                      (directHit : bool).

Module CollisionSystem.

Definition sphereIntersectsSphere (sphere1 sphere2 : Sphere) : bool :=
  let distance := Vector3.distanceTo (center sphere1) (center sphere2) in
  Rleb distance (radius sphere1 + radius sphere2).

(** The loop of [checkPunchVsMeteors] over the meteors. *)
Fixpoint punchLoop (punchSphere : Sphere) (meteors : list Meteor.t)
  : list Meteor.t * list CollisionEvent :=
  match meteors with
  | [] => ([], [])
  | meteor :: rest =>
      let (rest', events) := punchLoop punchSphere rest in
      if negb (Meteor.canBeDestroyed meteor) then (meteor :: rest', events)
      else if sphereIntersectsSphere punchSphere (Meteor.getBoundingSphere meteor) then
        let meteor' := Meteor.destroy meteor in
        (meteor' :: rest',
         punch_hit_meteor meteor' (Meteor.position meteor') :: events)
      else (meteor :: rest', events)
  end.

Definition checkPunchVsMeteors (player : Player.t) (meteors : list Meteor.t)
  : list Meteor.t * list CollisionEvent :=
  match Player.getPunchSphere player with
  | None => (meteors, [])
  | Some punchSphere => punchLoop punchSphere meteors
  end.

(** One hazard sphere against every living creature. *)
Fixpoint hitCreatures (meteor : Meteor.t) (hazard : Sphere) (directHit : bool)
    (creatures : list Creature.t) : list Creature.t * list CollisionEvent :=
  match creatures with
  | [] => ([], [])
  | creature :: rest =>
      let (rest', events) := hitCreatures meteor hazard directHit rest in
      if negb (Creature.isCreatureAlive creature) then (creature :: rest', events)
      else if sphereIntersectsSphere hazard (Creature.getBoundingSphere creature) then
        let creature' := Creature.takeDamage creature in
        (creature' :: rest',
         meteor_hit_creature meteor creature' (Creature.position creature') directHit
           :: events)
      else (creature :: rest', events)
  end.

(** One hazard sphere against the player: knockback away from [origin]. *)
Definition hitPlayer (meteor : Meteor.t) (hazard : Sphere) (origin : Vec) (force : R)
    (directHit : bool) (player : Player.t) : Player.t * list CollisionEvent :=
  if sphereIntersectsSphere hazard (Player.getBoundingSphere player) then
    let knockbackDirection :=
      Vector3.normalize (Vector3.sub (Player.position player) origin) in
    let player' := Player.applyKnockback knockbackDirection force player in
    (player', [meteor_hit_player meteor (Player.position player') directHit])
  else (player, []).

Fixpoint checkMeteorExplosions (player : Player.t) (creatures : list Creature.t)
    (meteors : list Meteor.t) : Player.t * list Creature.t * list CollisionEvent :=
  match meteors with
  | [] => (player, creatures, [])
  | meteor :: rest =>
      if negb (Meteor.isExploded meteor) then checkMeteorExplosions player creatures rest
      else
        let explosionSphere := Meteor.getExplosionSphere meteor in
        let (creatures1, ev1) := hitCreatures meteor explosionSphere false creatures in
        let (player1, ev2) :=
          hitPlayer meteor explosionSphere (Meteor.targetPosition meteor) 8 false player in
        let ev3 := [meteor_explosion meteor (Meteor.targetPosition meteor)
                                     (radius explosionSphere)] in
        let '(player2, creatures2, events) :=
          checkMeteorExplosions player1 creatures1 rest in
        (player2, creatures2, ev1 ++ ev2 ++ ev3 ++ events)
  end.

Fixpoint checkDirectMeteorHits (player : Player.t) (creatures : list Creature.t)
    (meteors : list Meteor.t) : Player.t * list Creature.t * list CollisionEvent :=
  match meteors with
  | [] => (player, creatures, [])
  | meteor :: rest =>
      if negb (MeteorState_eqb (Meteor.state meteor) Falling)
      then checkDirectMeteorHits player creatures rest
      else
        let meteorSphere := Meteor.getBoundingSphere meteor in
        let (creatures1, ev1) := hitCreatures meteor meteorSphere true creatures in
        let (player1, ev2) :=
          hitPlayer meteor meteorSphere (Meteor.position meteor) 10 true player in
        let '(player2, creatures2, events) :=
          checkDirectMeteorHits player1 creatures1 rest in
        (player2, creatures2, ev1 ++ ev2 ++ events)
  end.

Record Outcome : Type := mkOutcome {
  player : Player.t;
  creatures : list Creature.t;
  meteors : list Meteor.t;
  events : list CollisionEvent
}.

Definition update (player : Player.t) (creatures : list Creature.t)
    (meteors : list Meteor.t) : Outcome :=
  let (meteors1, ev1) := checkPunchVsMeteors player meteors in
  let '(player2, creatures2, ev2) := checkMeteorExplosions player creatures meteors1 in
  let '(player3, creatures3, ev3) := checkDirectMeteorHits player2 creatures2 meteors1 in
  mkOutcome player3 creatures3 meteors1 (ev1 ++ ev2 ++ ev3).

(** The static utilities. *)
Definition checkSphereIntersection (sphere1 sphere2 : Sphere) : bool :=
  let distance := Vector3.distanceTo (center sphere1) (center sphere2) in
  Rleb distance (radius sphere1 + radius sphere2).

Definition getClosestPointOnSphere (sphere : Sphere) (point : Vec) : Vec :=
  let direction := Vector3.normalize (Vector3.sub point (center sphere)) in
  Vector3.add (center sphere) (Vector3.multiplyScalar direction (radius sphere)).

Definition isPointInsideSphere (sphere : Sphere) (point : Vec) : bool :=
  Rleb (Vector3.distanceTo (center sphere) point) (radius sphere).

End CollisionSystem.

(** ** Game (game/Game) *)

Module Game.

(** The fields of [Game] that the simulation reads and writes; renderer,
    camera, effects and HUD are presentation and are left out.  The camera
    contributes its forward direction to every frame. *)
Record Data : Type := mkData {
  gameTimer : R;
  aliveCreatures : nat;
  isGameRunning : bool;
  player : Player.t;
  creatures : list Creature.t;
  meteorSpawner : MeteorSpawner.t;
  rng : Rng
}.

Definition set_gameTimer (r : R) (d : Data) : Data :=
  mkData r (aliveCreatures d) (isGameRunning d) (player d) (creatures d)
         (meteorSpawner d) (rng d).
Definition set_aliveCreatures (n : nat) (d : Data) : Data :=
  mkData (gameTimer d) n (isGameRunning d) (player d) (creatures d)
         (meteorSpawner d) (rng d).
Definition set_isGameRunning (b : bool) (d : Data) : Data :=
  mkData (gameTimer d) (aliveCreatures d) b (player d) (creatures d)
         (meteorSpawner d) (rng d).

Definition set_player (p : Player.t) (d : Data) : Data :=
  mkData (gameTimer d) (aliveCreatures d) (isGameRunning d) p (creatures d)
         (meteorSpawner d) (rng d).
Definition set_meteorSpawner (s : MeteorSpawner.t) (d : Data) : Data :=
  mkData (gameTimer d) (aliveCreatures d) (isGameRunning d) (player d) (creatures d)
         s (rng d).

(** What one frame receives from outside. *)
Record Frame : Type := mkFrame {
  deltaTime : R;
  inputState : InputState;
  cameraDirection : Vec
}.

Definition handleCollisionEvent (event : CollisionEvent) (d : Data) : Data :=
  match event with
  | meteor_hit_creature _ _ _ _ =>
      set_aliveCreatures (length (filter Creature.isCreatureAlive (creatures d))) d
  | _ => d
  end.

Definition updateGameEntities (f : Frame) (d : Data) : Data :=
  let player1 :=
    Player.update (deltaTime f) (inputState f) (Some (cameraDirection f)) (player d) in
  let telegraphPositions := MeteorSpawner.getTelegraphPositions (meteorSpawner d) in
  let (creatures1, g1) :=
    Creature.updateAll (deltaTime f) telegraphPositions (creatures d) (rng d) in
  let (spawner1, g2) := MeteorSpawner.update (deltaTime f) (meteorSpawner d) g1 in
  let out := CollisionSystem.update player1 creatures1 (MeteorSpawner.getMeteors spawner1) in
  let d1 :=
    mkData (gameTimer d) (aliveCreatures d) (isGameRunning d)
           (CollisionSystem.player out) (CollisionSystem.creatures out)
           (MeteorSpawner.set_meteors (CollisionSystem.meteors out) spawner1) g2 in
  fold_left (fun acc event => handleCollisionEvent event acc)
            (CollisionSystem.events out) d1.

Definition startGame (d : Data) : Data :=
  let (creatures1, g1) := Creature.createAll Creature.createSpawnPositions (rng d) in
  mkData 60 3 true (player d) creatures1 (MeteorSpawner.reset (meteorSpawner d)) g1.

(** The handlers registered by [setupStateMachine].  [Boot.onEnter] only
    schedules a later [transitionTo(Title)]; the title and result screens
    are presentation. *)
Definition handlers (s : GameState) : option (StateHandler Data) :=
  match s with
  | Boot => Some (mkHandler (Some (fun d => d)) None)
  | Title => Some (mkHandler (Some (fun d => d)) None)
  | Play => Some (mkHandler (Some startGame) (Some (set_isGameRunning false)))
  | Result => Some (mkHandler (Some (fun d => d)) None)
  end.

Definition t : Type := StateMachine Data.

Definition checkGameConditions (m : t) : t :=
  if Nat.leb (aliveCreatures (world m)) 0 then transitionTo Result m
  else if Rleb (gameTimer (world m)) 0 then transitionTo Result m
  else m.

Definition updateGame (f : Frame) (m : t) : t :=
  let d1 := set_gameTimer (gameTimer (world m) - deltaTime f) (world m) in
  let d2 := updateGameEntities f d1 in
  checkGameConditions (setWorld d2 m).

(** [stateMachine.update]: the [update] callback of the current state's
    handler. *)
Definition stateMachineUpdate (f : Frame) (m : t) : t :=
  match currentState m with
  | Boot => m
  | Title =>
      if jumpPressed (inputState f) || punchPressed (inputState f)
      then transitionTo Play m else m
  | Play => updateGame f m
  | Result =>
      if jumpPressed (inputState f) then transitionTo Play m
      else if punchPressed (inputState f) then transitionTo Title m
      else m
  end.

Definition update (f : Frame) (m : t) : t :=
  let m1 := stateMachineUpdate f m in
  if isGameRunning (world m1) then setWorld (updateGameEntities f (world m1)) m1
  else m1.

(** The machine as [initialize] leaves it. *)
Definition init (g : Rng) : t :=
  let (creatures0, g1) := Creature.createAll Creature.createSpawnPositions g in
  mkMachine Boot handlers
            (mkData 60 3 false Player.new creatures0 MeteorSpawner.new g1) [] 0.

End Game.

(** ** Time (core/Time.ts) *)

Module Time.

Record t : Type := mk {
  _deltaTime : R;
  _lastFrameTime : R;
  _timeScale : R;
  _totalTime : R
}.

Definition new : t := mk 0 0 1 0.

Definition update (currentTime : R) (tm : t) : t :=
  let dt := (currentTime - _lastFrameTime tm) / 1000 in
  mk dt currentTime (_timeScale tm) (_totalTime tm + dt).

(** The getters [deltaTime], [totalTime], [timeScale] and the setter of
    [timeScale]. *)
Definition deltaTime (tm : t) : R := _deltaTime tm * _timeScale tm.
Definition totalTime (tm : t) : R := _totalTime tm.
Definition timeScale (tm : t) : R := _timeScale tm.
Definition set_timeScale (value : R) (tm : t) : t :=
  mk (_deltaTime tm) (_lastFrameTime tm) (Rmax 0 value) (_totalTime tm).

End Time.

(** What can happen to the clock: a frame at a timestamp (milliseconds),
    or an assignment to [timeScale]. *)
Inductive TimeStep : Type :=
| TimeUpdate (currentTime : R)
| TimeSetScale (value : R).

Definition timeStep (tm : Time.t) (step : TimeStep) : Time.t :=
  match step with
  | TimeUpdate currentTime => Time.update currentTime tm
  | TimeSetScale value => Time.set_timeScale value tm
  end.

Definition timeRun (steps : list TimeStep) (tm : Time.t) : Time.t :=
  fold_left timeStep steps tm.

(** The timestamps of the frames of a history never go back, starting
    from [last]. *)
Fixpoint timestampsAscend (last : R) (steps : list TimeStep) : Prop :=
  match steps with
  | [] => True
  | TimeUpdate currentTime :: rest => last <= currentTime /\ timestampsAscend currentTime rest
  | TimeSetScale _ :: rest => timestampsAscend last rest
  end.

(** The frames of a history of the clock, without the assignments to
    [timeScale]. *)
Definition framesOnly (steps : list TimeStep) : list TimeStep :=
  filter (fun step => match step with TimeUpdate _ => true | TimeSetScale _ => false end)
         steps.

(** ** GameLoop (core/GameLoop)

    The loop with the browser's frame queue: [requestAnimationFrame]
    answers a fresh id and queues one call of [loop];
    [cancelAnimationFrame] removes it.  The update callback is recorded by
    the delta time it receives, the render callback by a count; the callbacks
    [Game] installs do not call back into the loop. *)

Module GameLoop.

Record t : Type := mk {
  isRunning : bool;
  animationId : option nat;
  time : Time.t;                 (* Time.instance *)
  updates : list R;              (* arguments of updateCallback, oldest first *)
  renders : nat;                 (* calls of renderCallback *)
  queue : list nat;              (* frames requested and not yet run *)
  nextId : nat
}.

Definition new : t := mk false None Time.new [] 0 [] 1.

Definition loop (currentTime : R) (l : t) : t :=
  if negb (isRunning l) then l
  else
    let time1 := Time.update currentTime (time l) in
    mk (isRunning l) (Some (nextId l)) time1
       (updates l ++ [Time.deltaTime time1]) (S (renders l))
       (queue l ++ [nextId l]) (S (nextId l)).

(** [start()], with the value of [performance.now()]. *)
Definition start (now : R) (l : t) : t :=
  if isRunning l then l
  else loop now (mk true (animationId l) (time l) (updates l) (renders l)
                    (queue l) (nextId l)).

Definition stop (l : t) : t :=
  match animationId l with
  | Some id =>
      mk false None (time l) (updates l) (renders l)
         (filter (fun q => negb (Nat.eqb q id)) (queue l)) (nextId l)
  | None => mk false None (time l) (updates l) (renders l) (queue l) (nextId l)
  end.

End GameLoop.

(** What can happen to a loop: [start()], [stop()], and the browser
    running the oldest queued frame at a timestamp. *)
Inductive LoopStep : Type :=
| LoopStart (now : R)
| LoopStop
| LoopFrame (currentTime : R).

Definition loopStep (l : GameLoop.t) (step : LoopStep) : GameLoop.t :=
  match step with
  | LoopStart now => GameLoop.start now l
  | LoopStop => GameLoop.stop l
  | LoopFrame currentTime =>
      match GameLoop.queue l with
      | [] => l
      | _ :: rest =>
          GameLoop.loop currentTime
            (GameLoop.mk (GameLoop.isRunning l) (GameLoop.animationId l) (GameLoop.time l)
               (GameLoop.updates l) (GameLoop.renders l) rest (GameLoop.nextId l))
      end
  end.

Definition loopRun (steps : list LoopStep) (l : GameLoop.t) : GameLoop.t :=
  fold_left loopStep steps l.

(** ** More of JavaScript's arithmetic *)

(** [a !== b] on numbers. *)
Definition Rneqb (a b : R) : bool := if Req_dec_T a b then false else true.

(** [Math.atan2(y, x)], signed zeros apart. *)
Definition atan2 (y x : R) : R :=
  if Rltb 0 x then atan (y / x)
  else if Rltb x 0 then (if Rleb 0 y then atan (y / x) + PI else atan (y / x) - PI)
  else if Rltb 0 y then PI / 2
  else if Rltb y 0 then - (PI / 2)
  else 0.

(** ** VirtualStick (input/VirtualStick) *)

Module VirtualStick.

(** The element and its style are presentation; [startPos], [currentPos]
    and [input] are pairs [(x, y)]. *)
Record t : Type := mk {
  isDragging : bool;
  startPos : R * R;
  currentPos : R * R;
  input : R * R
}.

Definition new : t := mk false (0, 0) (0, 0) (0, 0).

(** [onTouchStart], with the bounding rectangle of the element. *)
Definition onTouchStart (rectLeft rectTop rectWidth rectHeight : R) (s : t) : t :=
  mk true (rectLeft + rectWidth / 2, rectTop + rectHeight / 2) (currentPos s) (input s).

(** [onTouchMove], with the client coordinates of the first touch. *)
Definition onTouchMove (clientX clientY : R) (s : t) : t :=
  if negb (isDragging s) then s
  else
    let deltaX := clientX - fst (startPos s) in
    let deltaY := clientY - snd (startPos s) in
    let distance := sqrt (deltaX * deltaX + deltaY * deltaY) in
    let maxDistance := 40 in
    let current :=
      if Rgtb distance maxDistance then
        let angle := atan2 deltaY deltaX in
        (cos angle * maxDistance, sin angle * maxDistance)
      else (deltaX, deltaY) in
    mk (isDragging s) (startPos s) current
       (fst current / maxDistance, snd current / maxDistance).

Definition onTouchEnd (s : t) : t := mk false (startPos s) (0, 0) (0, 0).

Definition getInput (s : t) : R * R := input s.

End VirtualStick.

(** ** InputManager (input/InputManager.ts) *)

(** The key codes the manager asks for. *)
Module Key.
Import String.
Definition Space : string := "Space"%string.
Definition KeyJ : string := "KeyJ"%string.
Definition KeyA : string := "KeyA"%string.
Definition KeyD : string := "KeyD"%string.
Definition KeyW : string := "KeyW"%string.
Definition KeyS : string := "KeyS"%string.
Definition ArrowLeft : string := "ArrowLeft"%string.
Definition ArrowRight : string := "ArrowRight"%string.
Definition ArrowUp : string := "ArrowUp"%string.
Definition ArrowDown : string := "ArrowDown"%string.
End Key.

Module InputManager.

(** [keys] is a [Set<string>]: a list without repetition, in insertion
    order.  [previousInputState] is never read nor written after its
    initialisation and is left out. *)
Record t : Type := mk {
  keys : list String.string;
  inputState : InputState;
  virtualStick : option VirtualStick.t
}.

(** The constructor; [isMobile] is what the browser answers. *)
Definition new (isMobile : bool) : t :=
  mk [] (mkInput 0 0 false false false false)
     (if isMobile then Some VirtualStick.new else None).

(** [keys.has(code)] *)
Definition has (code : String.string) (m : t) : bool :=
  existsb (String.eqb code) (keys m).

(** The listeners of [keydown], [keyup], [mousedown] and [mouseup]. *)
Definition keydown (code : String.string) (m : t) : t :=
  mk (if has code m then keys m else keys m ++ [code]) (inputState m) (virtualStick m).

Definition keyup (code : String.string) (m : t) : t :=
  mk (filter (fun k => negb (String.eqb k code)) (keys m)) (inputState m) (virtualStick m).

Definition set_punch (b : bool) (i : InputState) : InputState :=
  mkInput (movement_x i) (movement_z i) (jump i) b (jumpPressed i) (punchPressed i).

Definition set_movement (x z : R) (i : InputState) : InputState :=
  mkInput x z (jump i) (punch i) (jumpPressed i) (punchPressed i).

Definition mousedown (button : nat) (m : t) : t :=
  if Nat.eqb button 0
  then mk (keys m) (set_punch true (inputState m)) (virtualStick m)
  else m.

Definition mouseup (button : nat) (m : t) : t :=
  if Nat.eqb button 0
  then mk (keys m) (set_punch false (inputState m)) (virtualStick m)
  else m.

Definition updateMovementFromKeyboard (m : t) : t :=
  let x := 0 in
  let z := 0 in
  let x := if has Key.KeyA m || has Key.ArrowLeft m then x - 1 else x in
  let x := if has Key.KeyD m || has Key.ArrowRight m then x + 1 else x in
  let z := if has Key.KeyW m || has Key.ArrowUp m then z - 1 else z in
  let z := if has Key.KeyS m || has Key.ArrowDown m then z + 1 else z in
  let diagonal := Rneqb x 0 && Rneqb z 0 in
  let x := if diagonal then x * 0.707 else x in
  let z := if diagonal then z * 0.707 else z in
  mk (keys m) (set_movement x z (inputState m)) (virtualStick m).

Definition update (m : t) : t :=
  let prevJump := jump (inputState m) in
  let prevPunch := punch (inputState m) in
  let m1 := updateMovementFromKeyboard m in
  let i1 :=
    match virtualStick m1 with
    | Some stick =>
        let stickInput := VirtualStick.getInput stick in
        set_movement (fst stickInput) (snd stickInput) (inputState m1)
    | None => inputState m1
    end in
  let jump1 := has Key.Space m1 in
  let punch1 := has Key.KeyJ m1 in
  mk (keys m1)
     (mkInput (movement_x i1) (movement_z i1) jump1 punch1
              (jump1 && negb prevJump) (punch1 && negb prevPunch))
     (virtualStick m1).

(** [getInputState()] answers a copy of the snapshot (the copy shares the
    [movement] object, which the game reads before the next [update]). *)
Definition getInputState (m : t) : InputState := inputState m.

Definition dispose (m : t) : t := mk (keys m) (inputState m) None.

End InputManager.

(** What can happen to the input manager between two frames, and the
    [update] of a frame. *)
Inductive InputStep : Type :=
| InputKeydown (code : String.string)
| InputKeyup (code : String.string)
| InputMousedown (button : nat)
| InputMouseup (button : nat)
| InputTouchStart (rectLeft rectTop rectWidth rectHeight : R)
| InputTouchMove (clientX clientY : R)
| InputTouchEnd
| InputUpdate.

Definition onStick (f : VirtualStick.t -> VirtualStick.t) (m : InputManager.t)
  : InputManager.t :=
  InputManager.mk (InputManager.keys m) (InputManager.inputState m)
                  (option_map f (InputManager.virtualStick m)).

Definition inputStep (m : InputManager.t) (step : InputStep) : InputManager.t :=
  match step with
  | InputKeydown code => InputManager.keydown code m
  | InputKeyup code => InputManager.keyup code m
  | InputMousedown button => InputManager.mousedown button m
  | InputMouseup button => InputManager.mouseup button m
  | InputTouchStart l t w h => onStick (VirtualStick.onTouchStart l t w h) m
  | InputTouchMove x y => onStick (VirtualStick.onTouchMove x y) m
  | InputTouchEnd => onStick VirtualStick.onTouchEnd m
  | InputUpdate => InputManager.update m
  end.

Definition inputRun (steps : list InputStep) (m : InputManager.t) : InputManager.t :=
  fold_left inputStep steps m.

(** What holds of a stick between two events. *)
Definition stickInvariant (s : VirtualStick.t) : Prop :=
  fst (VirtualStick.input s) * fst (VirtualStick.input s)
  + snd (VirtualStick.input s) * snd (VirtualStick.input s) <= 1 /\
  (if VirtualStick.isDragging s then True else VirtualStick.input s = (0, 0)).

(** ** CameraController (three/CameraController)

    The camera is represented by its position; projection and orientation
    are presentation. *)

Module CameraController.

Record t : Type := mk {
  cameraPosition : Vec;        (* camera.position *)
  targetPosition : Vec;
  currentPosition : Vec;
  lookAtTarget : Vec
}.

Definition offset : Vec := Vector3.mk 0 8 8.

Definition new : t := mk offset Vector3.zero Vector3.zero (Vector3.mk 0 0 0).

Definition setTarget (position : Vec) (c : t) : t :=
  mk (cameraPosition c) (Vector3.add position offset) (currentPosition c) position.

Definition update (deltaTime : R) (c : t) : t :=
  let lerpFactor := Rmin (deltaTime * 5) 1 in
  let current := Vector3.lerp (currentPosition c) (targetPosition c) lerpFactor in
  mk current (targetPosition c) current (lookAtTarget c).

End CameraController.

(** Successive calls of [CameraController.update]. *)
Definition cameraRun (deltaTimes : list R) (c : CameraController.t) : CameraController.t :=
  fold_left (fun acc deltaTime => CameraController.update deltaTime acc) deltaTimes c.

(** The part of the way to the target that is left after these frames. *)
Definition remainingShare (deltaTimes : list R) : R :=
  fold_right (fun deltaTime acc => (1 - Rmin (deltaTime * 5) 1) * acc) 1 deltaTimes.

(** ** EffectsSystem (systems/EffectsSystem.ts)

    A particle keeps its entry of the position and colour buffers together
    with its velocity; the buffers are idealised like every other number.
    The [id] and [lifetimes] of an effect are never read and are left out, as
    is the scene. *)

Module EffectsSystem.

Record Particle : Type := mkParticle {
  position : Vec;
  velocity : Vec;
  red : R;
  green : R;
  blue : R;
  alpha : R
}.

Record ParticleEffect : Type := mkEffect {
  particles : list Particle;
  maxLifetime : R;
  startTime : R
}.

Definition t : Type := list ParticleEffect.      (* this.effects *)

Definition new : t := [].

Definition updateParticle (effect : ParticleEffect) (deltaTime elapsed : R) (p : Particle)
  : Particle :=
  mkParticle
    (Vector3.add (position p) (Vector3.multiplyScalar (velocity p) deltaTime))
    (Vector3.setY (velocity p) (Vector3.y (velocity p) + -9.8 * deltaTime))
    (red p) (green p) (blue p)
    (Rmax 0 (1 - elapsed / maxLifetime effect)).

Definition updateParticleEffect (effect : ParticleEffect) (deltaTime elapsed : R)
  : ParticleEffect :=
  mkEffect (map (updateParticle effect deltaTime elapsed) (particles effect))
           (maxLifetime effect) (startTime effect).

(** [elapsed] of [update], in seconds. *)
Definition elapsedAt (currentTime : R) (effect : ParticleEffect) : R :=
  (currentTime - startTime effect) / 1000.

(** The loop of [update], with [n] indices left: it visits index [n - 1]
    first.  [effects.splice(i, 1)] removes the entry at [i]. *)
Fixpoint updateFrom (n : nat) (deltaTime currentTime : R) (effects : t) : t :=
  match n with
  | O => effects
  | S i =>
      match nth_error effects i with
      | None => updateFrom i deltaTime currentTime effects
      | Some effect =>
          let elapsed := elapsedAt currentTime effect in
          if Rgeb elapsed (maxLifetime effect) then
            updateFrom i deltaTime currentTime (firstn i effects ++ skipn (S i) effects)
          else
            updateFrom i deltaTime currentTime
              (firstn i effects ++ updateParticleEffect effect deltaTime elapsed
                 :: skipn (S i) effects)
      end
  end.

(** [update(deltaTime)], with the value of [Date.now()]. *)
Definition update (deltaTime currentTime : R) (effects : t) : t :=
  updateFrom (length effects) deltaTime currentTime effects.

(** The loop of [createMeteorDestructionEffect], with [count] particles
    left to create. *)
Fixpoint destructionParticles (count : nat) (position : Vec) (g : Rng)
  : list Particle * Rng :=
  match count with
  | O => ([], g)
  | S n =>
      let (r1, g1) := random g in
      let (r2, g2) := random g1 in
      let (r3, g3) := random g2 in
      let (r4, g4) := random g3 in
      let (r5, g5) := random g4 in
      let (r6, g6) := random g5 in
      let (colorVariant, g7) := random g6 in
      let start := Vector3.mk (Vector3.x position + (r1 - 0.5) * 0.5)
                              (Vector3.y position + (r2 - 0.5) * 0.5)
                              (Vector3.z position + (r3 - 0.5) * 0.5) in
      let v := Vector3.mk ((r4 - 0.5) * 8) (r5 * 6 + 2) ((r6 - 0.5) * 8) in
      let p :=
        if Rltb colorVariant 0.3 then mkParticle start v 1.0 0.2 0.1 1.0
        else if Rltb colorVariant 0.6 then mkParticle start v 1.0 0.5 0.0 1.0
        else mkParticle start v 1.0 1.0 0.2 1.0 in
      let (rest, g8) := destructionParticles n position g7 in
      (p :: rest, g8)
  end.

(** [createMeteorDestructionEffect(position)], with the value of
    [Date.now()]. *)
Definition createMeteorDestructionEffect (position : Vec) (now : R) (effects : t) (g : Rng)
  : t * Rng :=
  let (ps, g1) := destructionParticles 20 position g in
  (effects ++ [mkEffect ps 1.5 now], g1).

(** The loop of [createMeteorExplosionEffect]; [i] is the index of the
    next particle. *)
Fixpoint explosionParticles (count : nat) (i : R) (position : Vec) (g : Rng)
  : list Particle * Rng :=
  match count with
  | O => ([], g)
  | S n =>
      let angle := i / 30 * PI * 2 in
      let (r1, g1) := random g in
      let (r2, g2) := random g1 in
      let (r3, g3) := random g2 in
      let (r4, g4) := random g3 in
      let v := Vector3.mk (cos angle * (3 + r1 * 2)) (r2 * 3) (sin angle * (3 + r3 * 2)) in
      let p := mkParticle position v 1.0 (r4 * 0.5) 0.0 1.0 in
      let (rest, g5) := explosionParticles n (i + 1) position g4 in
      (p :: rest, g5)
  end.

Definition createMeteorExplosionEffect (position : Vec) (_radius : R) (now : R)
    (effects : t) (g : Rng) : t * Rng :=
  let (ps, g1) := explosionParticles 30 0 position g in
  (effects ++ [mkEffect ps 2.0 now], g1).

Definition dispose (effects : t) : t := [].

End EffectsSystem.

(** An effect has outlived its lifetime at this time. *)
Definition expiredAt (currentTime : R) (effect : EffectsSystem.ParticleEffect) : bool :=
  Rgeb (EffectsSystem.elapsedAt currentTime effect) (EffectsSystem.maxLifetime effect).

(** ** HUD (ui/HUD): the two displays *)

(** [Math.floor], and [a % b] on numbers (the remainder has the sign of
    the dividend). *)
Definition floor (r : R) : Z := Int_part r.

Definition trunc (r : R) : Z := if Rleb 0 r then Int_part r else (- Int_part (- r))%Z.

Definition jsRem (a b : R) : R := a - b * IZR (trunc (a / b)).

Module HUD.
Import Ascii String.

(** [toString()] of an integer, and [padStart(targetLength, "0")]. *)
Definition toString (z : Z) : string := DecimalString.NilZero.string_of_int (Z.to_int z).

Fixpoint zeros (n : nat) : string :=
  match n with
  | O => EmptyString
  | S k => String "0"%char (zeros k)
  end.

Definition padStart (targetLength : nat) (s : string) : string :=
  append (zeros (targetLength - length s)) s.

Definition warning : string := "#ff4444"%string.
Definition white : string := "white"%string.

(** The text and the colour of the time display and of the creature
    display, and the [display] style of the HUD. *)
Record t : Type := mk {
  timeText : string;
  timeColor : string;
  creatureText : string;
  creatureColor : string;
  display : string
}.

(** The displays as [createHUD] leaves them; the colours and the
    [display] style are not set yet. *)
Definition new : t := mk "01:00"%string ""%string "3/3"%string ""%string ""%string.

Definition updateTime (seconds : R) (h : t) : t :=
  let minutes := floor (seconds / 60) in
  let remainingSeconds := floor (jsRem seconds 60) in
  mk (append (padStart 2 (toString minutes))
             (append ":"%string (padStart 2 (toString remainingSeconds))))
     (if Rltb seconds 10 then warning else white)
     (creatureText h) (creatureColor h) (display h).

Definition updateCreatures (alive total : Z) (h : t) : t :=
  mk (timeText h) (timeColor h)
     (append (toString alive) (append "/"%string (toString total)))
     (if Z.leb alive 1 then warning else white)
     (display h).

Definition show (h : t) : t :=
  mk (timeText h) (timeColor h) (creatureText h) (creatureColor h) "block"%string.

Definition hide (h : t) : t :=
  mk (timeText h) (timeColor h) (creatureText h) (creatureColor h) "none"%string.

(** The text [mm:ss] of a number of minutes and of seconds. *)
Definition clock (minutes seconds : Z) : string :=
  append (padStart 2 (toString minutes)) (append ":"%string (padStart 2 (toString seconds))).

End HUD.

(** ** The cube of main.js

    The script keeps its state in top-level variables.  The ray cast of a
    click is represented by its answer: the [faceIndex] of the first hit, if
    the ray hits the cube. *)

Module Main.

Record t : Type := mk {
  isDragging : bool;
  lastX : R;
  lastY : R;
  rotationX : R;            (* cube.rotation.x *)
  rotationY : R;            (* cube.rotation.y *)
  cleared : bool;
  overlays : nat            (* calls of showClearOverlay *)
}.

Definition new : t := mk false 0 0 0.3 0.4 false 0.

Definition pointerdown (clientX clientY : R) (s : t) : t :=
  mk true clientX clientY (rotationX s) (rotationY s) (cleared s) (overlays s).

Definition pointermove (clientX clientY : R) (s : t) : t :=
  if negb (isDragging s) then s
  else
    let dx := clientX - lastX s in
    let dy := clientY - lastY s in
    let rotSpeed := 0.01 in
    mk (isDragging s) clientX clientY
       (rotationX s + dy * rotSpeed) (rotationY s + dx * rotSpeed)
       (cleared s) (overlays s).

Definition pointerup (s : t) : t :=
  mk false (lastX s) (lastY s) (rotationX s) (rotationY s) (cleared s) (overlays s).

Definition redSide : nat := 4.

Definition click (hit : option nat) (s : t) : t :=
  if cleared s then s
  else
    match hit with
    | None => s
    | Some faceIndex =>
        let side := Nat.div faceIndex 2 in       (* Math.floor(faceIndex / 2) *)
        if Nat.eqb side redSide
        then mk (isDragging s) (lastX s) (lastY s) (rotationX s) (rotationY s)
                true (S (overlays s))
        else s
    end.

End Main.

Inductive MainStep : Type :=
| MainPointerdown (clientX clientY : R)
| MainPointermove (clientX clientY : R)
| MainPointerup
| MainClick (hit : option nat).

Definition mainStep (s : Main.t) (step : MainStep) : Main.t :=
  match step with
  | MainPointerdown x y => Main.pointerdown x y s
  | MainPointermove x y => Main.pointermove x y s
  | MainPointerup => Main.pointerup s
  | MainClick hit => Main.click hit s
  end.

Definition mainRun (steps : list MainStep) (s : Main.t) : Main.t :=
  fold_left mainStep steps s.

(** A click whose ray hits one of the two triangles of the red face. *)
Definition hitsRedFace (step : MainStep) : bool :=
  match step with
  | MainClick (Some faceIndex) => Nat.eqb faceIndex 8 || Nat.eqb faceIndex 9
  | _ => false
  end.

(** The pointer positions of a drag: the moves that follow a press. *)
Definition dragMoves (moves : list (R * R)) : list MainStep :=
  map (fun p => MainPointermove (fst p) (snd p)) moves.

(** ** Histories *)

(** Everything that can happen to the game after [initialize]: a frame of
    the loop, the timer armed by [Boot.onEnter] firing, and the three sliders
    of the HUD. *)
Inductive GameStep : Type :=
| GameTick (f : Game.Frame)
| GameBootTimeout
| GameSetMoveSpeed (speed : R)
| GameSetMeteorSpeed (speed : R)
| GameSetMeteorFreq (freq : R).

Definition gameStep (m : Game.t) (step : GameStep) : Game.t :=
  match step with
  | GameTick f => Game.update f m
  | GameBootTimeout => transitionTo Title m
  | GameSetMoveSpeed speed =>
      setWorld (Game.set_player (Player.setMoveSpeed speed (Game.player (world m)))
                                (world m)) m
  | GameSetMeteorSpeed speed =>
      setWorld (Game.set_meteorSpawner
                  (MeteorSpawner.setMeteorSpeed speed (Game.meteorSpawner (world m)))
                  (world m)) m
  | GameSetMeteorFreq freq =>
      setWorld (Game.set_meteorSpawner
                  (MeteorSpawner.setFrequencyMultiplier freq (Game.meteorSpawner (world m)))
                  (world m)) m
  end.

Definition gameRun (steps : list GameStep) (m : Game.t) : Game.t :=
  fold_left gameStep steps m.

(** Everything that can happen to a spawner between its construction and
    a later frame: its own [update], the collision passes of a frame acting
    on its meteors, the tuning setters of the HUD, and the [reset] of a new
    session. *)
Inductive SpawnerStep : Type :=
| SpawnerUpdate (deltaTime : R) (g : Rng)
| SpawnerCollision (player : Player.t) (creatures : list Creature.t)
| SpawnerSetFrequency (multiplier : R)
| SpawnerSetSpeed (speed : R)
| SpawnerReset.

Definition spawnerStep (s : MeteorSpawner.t) (step : SpawnerStep) : MeteorSpawner.t :=
  match step with
  | SpawnerUpdate deltaTime g => fst (MeteorSpawner.update deltaTime s g)
  | SpawnerCollision player creatures =>
      MeteorSpawner.set_meteors
        (CollisionSystem.meteors
           (CollisionSystem.update player creatures (MeteorSpawner.getMeteors s))) s
  | SpawnerSetFrequency multiplier => MeteorSpawner.setFrequencyMultiplier multiplier s
  | SpawnerSetSpeed speed => MeteorSpawner.setMeteorSpeed speed s
  | SpawnerReset => MeteorSpawner.reset s
  end.

Definition spawnerRun (steps : list SpawnerStep) (s : MeteorSpawner.t) : MeteorSpawner.t :=
  fold_left spawnerStep steps s.

(** A spawner as constructed, but with any difficulty phases, frequency
    multiplier and fall speed. *)
Definition spawnerWith (phases : list DifficultyPhase) (multiplier speed : R)
  : MeteorSpawner.t :=
  MeteorSpawner.mk [] 0 0 [] phases multiplier speed.

(** The test of [MeteorSpawner.update] that leads to [trySpawnMeteor]: a
    difficulty phase is current at the advanced game time and the advanced
    accumulator has reached that phase's interval times the multiplier. *)
Definition cadenceFires (deltaTime : R) (s : MeteorSpawner.t) : bool :=
  let s1 := MeteorSpawner.set_spawnTimer (MeteorSpawner.spawnTimer s + deltaTime)
              (MeteorSpawner.set_gameTime (MeteorSpawner.gameTime s + deltaTime) s) in
  match MeteorSpawner.getCurrentDifficultyPhase s1 with
  | Some currentPhase =>
      Rgeb (MeteorSpawner.spawnTimer s1)
           (spawnInterval currentPhase * MeteorSpawner.debugFrequencyMultiplier s1)
  | None => false
  end.

(** The number of living creatures, as [handleCollisionEvent] counts it. *)
Definition countAlive (cs : list Creature.t) : nat :=
  length (filter Creature.isCreatureAlive cs).

Arguments countAlive : simpl never.

(** The scoreboard agrees with the creature collection. *)
Definition scoreboardConsistent (d : Game.Data) : Prop :=
  Game.aliveCreatures d = countAlive (Game.creatures d).

(** The session data when the terminal check of [updateGame] runs: timer
    decremented, entities updated, collisions resolved, events handled. *)
Definition dataAtCheck (f : Game.Frame) (m : Game.t) : Game.Data :=
  Game.updateGameEntities f
    (Game.set_gameTimer (Game.gameTimer (world m) - Game.deltaTime f) (world m)).

Definition isCreatureEvent (e : CollisionEvent) : bool :=
  match e with
  | meteor_hit_creature _ _ _ _ => true
  | _ => false
  end.

(** One call of [Player.update]: delta time, input snapshot, camera. *)
Definition PlayerFrame : Type := (R * InputState * option Vec)%type.


Definition playerStep (p : Player.t) (f : PlayerFrame) : Player.t :=
  Player.update (fst (fst f)) (snd (fst f)) (snd f) p.


Definition sumR (l : list R) : R := fold_right Rplus 0 l.

(** The magnitude of the horizontal velocity. *)
Definition horizontalSpeed (p : Player.t) : R :=
  sqrt (Vector3.x (Player.velocity p) * Vector3.x (Player.velocity p) +
        Vector3.z (Player.velocity p) * Vector3.z (Player.velocity p)).

(** What the punch check of the collision pass does to one meteor. *)
Definition punchOne (punchSphere : option Sphere) (meteor : Meteor.t) : Meteor.t :=
  match punchSphere with
  | Some sphere =>
      if Meteor.canBeDestroyed meteor
         && CollisionSystem.sphereIntersectsSphere sphere (Meteor.getBoundingSphere meteor)
      then Meteor.destroy meteor else meteor
  | None => meteor
  end.



(** The body of a meteor is clear of the terrain. *)
Definition aboveTerrain (m : Meteor.t) : Prop :=
  getTerrainHeight (Vector3.x (Meteor.position m)) (Vector3.z (Meteor.position m))
  + Meteor.meteorRadius < Vector3.y (Meteor.position m).

(** A meteor between two frames: it telegraphs or falls clear of the
    terrain, or it has been destroyed by the punch. *)
Definition meteorBetweenFrames (m : Meteor.t) : Prop :=
  match Meteor.state m with
  | Telegraph | Falling => aboveTerrain m
  | Destroyed => True
  | Exploded => False
  end.

Definition isTerminal (m : Meteor.t) : bool :=
  match Meteor.state m with
  | Destroyed | Exploded => true
  | _ => false
  end.

(** The machine [m'] still has the game's handlers and its spawner is the
    spawner of [m] after some spawner history. *)
Definition spawnerFollows (m m' : Game.t) : Prop :=
  stateHandlers m' = Game.handlers /\
  exists steps : list SpawnerStep,
    Game.meteorSpawner (world m') = spawnerRun steps (Game.meteorSpawner (world m)).

(** ** More histories and invariants *)

(** What holds of the game between two events: the handlers are those of
    [setupStateMachine], the running flag is set exactly in Play, and the
    scoreboard counts the living creatures, of which there are at most three. *)
Definition sessionInvariant (m : Game.t) : Prop :=
  stateHandlers m = Game.handlers /\
  Game.isGameRunning (world m) = GameState_eqb (currentState m) Play /\
  scoreboardConsistent (world m) /\
  (Game.aliveCreatures (world m) <= 3)%nat.



(** Successive calls of [Meteor.update]. *)
Definition meteorRun (deltaTimes : list R) (m : Meteor.t) : Meteor.t :=
  fold_left (fun acc deltaTime => snd (Meteor.update deltaTime acc)) deltaTimes m.

(** The number of [meteor_hit_creature] events in a list of events. *)
Definition creatureHits (events : list CollisionEvent) : nat :=
  length (filter isCreatureEvent events).

(** What holds of a loop between two events. *)
Definition loopInvariant (l : GameLoop.t) : Prop :=
  (GameLoop.queue l = [] \/
   exists id, GameLoop.queue l = [id] /\ GameLoop.animationId l = Some id) /\
  (if GameLoop.isRunning l then True else GameLoop.queue l = []) /\
  GameLoop.renders l = length (GameLoop.updates l) /\
  sumR (GameLoop.updates l) = Time._totalTime (GameLoop.time l) /\
  Time._timeScale (GameLoop.time l) = 1.

(** ** Sample states *)

(** A source of random numbers that always answers one half: every
    target is the centre of the stage. *)
Definition coinHalf : Rng := fun _ => 0.5.

(** The frequency slider pulled down to zero, then eight frames of a tenth
    of a second: the cadence fires on every frame. *)
Definition historyToCap : list SpawnerStep :=
  SpawnerSetFrequency 0 :: repeat (SpawnerUpdate 0.1 coinHalf) 8.

Definition spawnerAtCap : MeteorSpawner.t := spawnerRun historyToCap MeteorSpawner.new.

(** A spawner [T] seconds into such a rapid fire: [k] meteors, all
    telegraphing, none older than [T]. *)
Definition rapidFire (k : nat) (T : R) (s : MeteorSpawner.t) : Prop :=
  MeteorSpawner.debugFrequencyMultiplier s = 0 /\
  MeteorSpawner.difficultyPhases s = MeteorSpawner.difficultyPhases MeteorSpawner.new /\
  MeteorSpawner.spawnTimer s = 0 /\
  MeteorSpawner.gameTime s = T /\
  length (MeteorSpawner.meteors s) = k /\
  Forall (fun m => Meteor.state m = Telegraph /\ Meteor.timer m <= T)
         (MeteorSpawner.meteors s).

(** An input snapshot with nothing pressed. *)
Definition idleInput : InputState := mkInput 0 0 false false false false.

(** A frame of a sixtieth of a second with nothing pressed. *)
Definition idleFrame : Game.Frame := Game.mkFrame (1 / 60) idleInput (Vector3.mk 0 0 (-1)).

(** A session in Play, five seconds in, whose three creatures have all been
    hit and whose scoreboard shows zero. *)
Definition sessionAllDead : Game.t :=
  mkMachine Play Game.handlers
    (Game.mkData 55 0 true Player.new
       (map Creature.takeDamage
            (fst (Creature.createAll Creature.createSpawnPositions (fun _ => 0.5))))
       MeteorSpawner.new (fun _ => 0.5))
    [] 0.

(** A player standing still on the terrain at the origin. *)
Definition playerAtRest : Player.t :=
  Player.mk (Vector3.mk 0 (getTerrainHeight 0 0 + 0.6) 0) Vector3.zero true false 0 0 false
            4.0 Vector3.zero (mkSphere Vector3.zero 0).

(** Jump pressed while pushing the stick forward and to the right. *)
Definition busyInput : InputState := mkInput 1 (-1) true true true true.

(** A grounded player sliding at speed 5. *)
Definition playerSliding : Player.t :=
  Player.set_velocity (Vector3.mk 3 0 4) playerAtRest.

(** The player at rest, knocked back along +x with force 5, after one
    frame of 0.39 seconds: it has come down again while the recovery timer
    still has 0.01 seconds to run. *)
Definition playerLandedInKnockback : Player.t :=
  Player.update 0.39 idleInput None
    (Player.applyKnockback (Vector3.mk 1 0 0) 5 playerAtRest).

(** A player standing still at the eastern bound of the stage interior. *)
Definition playerAtEdge : Player.t :=
  Player.mk (Vector3.mk 4.5 (getTerrainHeight 4.5 0 + 0.6) 0) Vector3.zero true false 0 0
            false 4.0 Vector3.zero (mkSphere Vector3.zero 0).

(** The stick pushed fully to the right, nothing pressed. *)
Definition pushRight : InputState := mkInput 1 0 false false false false.

(** The interior of the stage: [-5 + margin, 5 - margin] on both axes. *)
Definition withinStage (v : Vec) : Prop :=
  -5 + Player.margin <= Vector3.x v <= 5 - Player.margin /\
  -5 + Player.margin <= Vector3.z v <= 5 - Player.margin.

(** Jump pressed on this frame, stick at rest. *)
Definition jumpInput : InputState := mkInput 0 0 true false true false.

(** The player at rest jumps; four frames of a tenth of a second. *)
Definition jumpFrames : list PlayerFrame :=
  [(0.1, jumpInput, None); (0.1, idleInput, None); (0.1, idleInput, None);
   (0.1, idleInput, None)].

(** The frames at which [updatePunch] takes its activation branch along a
    run, one flag per frame. *)
Fixpoint punchActivations (frames : list PlayerFrame) (p : Player.t) : list bool :=
  match frames with
  | [] => []
  | f :: rest =>
      Player.activatesPunch (fst (fst f)) (snd (fst f)) (snd f) p
        :: punchActivations rest (playerStep p f)
  end.

(** The grounded flag before every frame of a run and after the last. *)
Fixpoint groundedTrace (frames : list PlayerFrame) (p : Player.t) : list bool :=
  match frames with
  | [] => [Player.isGrounded p]
  | f :: rest => Player.isGrounded p :: groundedTrace rest (playerStep p f)
  end.

(** A camera looking forward and down. *)
Definition cameraDown : Vec := Vector3.mk 0 (-0.6) (-0.8).

(** The life of one meteor aimed at the centre of the stage: telegraphing
    since 0.075 seconds, starting to fall, and falling at 12 units per second,
    1.5 above its target. *)
Definition meteorTelegraphing : Meteor.t :=
  Meteor.mk (Vector3.mk 0 12 0) Vector3.zero (Vector3.mk 0 0 0) Telegraph 0.075 12.

Definition meteorStartsFalling : Meteor.t :=
  Meteor.mk (Vector3.mk 0 12 0) (Vector3.mk 0 (-12) 0) (Vector3.mk 0 0 0) Falling 1 12.

Definition meteorAboutToLand : Meteor.t :=
  Meteor.mk (Vector3.mk 0 1.5 0) (Vector3.mk 0 (-12) 0) (Vector3.mk 0 0 0) Falling 1.875 12.

(** A session in which the first meteor is spawned after 1.2 seconds, the
    frequency slider is then set to 2, and two more frames bring the meteor
    1.5 above its target, three seconds into the session. *)
Definition historyBeforeImpact : list SpawnerStep :=
  [SpawnerUpdate 0.6 coinHalf; SpawnerUpdate 0.525 coinHalf; SpawnerUpdate 0.075 coinHalf;
   SpawnerSetFrequency 2; SpawnerUpdate 0.925 coinHalf; SpawnerUpdate 0.875 coinHalf].

Definition spawnerAfter (ms : list Meteor.t) (spawnTimer gameTime : R)
    (recentTargets : list Vec) (multiplier : R) : MeteorSpawner.t :=
  MeteorSpawner.mk ms spawnTimer gameTime recentTargets
    [mkPhase 0 20 1.2; mkPhase 20 40 0.9; mkPhase 40 60 0.7] multiplier 12.

(** The spawner at the end of that history. *)
Definition spawnerBeforeImpact : MeteorSpawner.t :=
  spawnerAfter [meteorAboutToLand] 1.8 3 [Vector3.mk 0 0 0] 2.

(** A creature standing at the target of that meteor. *)
Definition creatureAtTarget : Creature.t :=
  Creature.mk (Vector3.mk 0 0.175 0) Vector3.zero (Vector3.mk 0 0 0) walking 0 2 true.

(** The camera looking along the negative z axis. *)
Definition cameraForward : Vec := Vector3.mk 0 0 (-1).




(** The game's machine in the middle of a session. *)
Definition sessionInPlay : Game.t :=
  mkMachine Play Game.handlers
    (Game.mkData 60 3 true Player.new [] MeteorSpawner.new (fun _ => 0)) [] 0.




(** The player at rest after the frame in which it jumps. *)
Definition playerAfterJump : Player.t := Player.update 0.1 jumpInput None playerAtRest.





(** ** More sample states *)



(** The first creature of a session, as constructed. *)
Definition creatureAtSpawn : Creature.t :=
  fst (Creature.new (Vector3.mk (-2) 0.35 (-2)) coinHalf).

(** A creature one unit away from a telegraph at the centre of the stage. *)
Definition creatureNearThreat : Creature.t :=
  Creature.mk (Vector3.mk 1 0.175 0) Vector3.zero (Vector3.mk 3 0 0) walking 0 2.0 true.


(** * Properties *)

(** ** Numbers *)

Lemma Rleb_true (a b : R) : a <= b -> Rleb a b = true.
Proof. intros H. unfold Rleb. destruct (Rle_dec a b); [reflexivity | contradiction]. Qed.

Lemma Rleb_false (a b : R) : b < a -> Rleb a b = false.
Proof. intros H. unfold Rleb. destruct (Rle_dec a b); [lra | reflexivity]. Qed.

Lemma Rltb_true (a b : R) : a < b -> Rltb a b = true.
Proof. intros H. unfold Rltb. destruct (Rlt_dec a b); [reflexivity | contradiction]. Qed.

Lemma Rltb_false (a b : R) : b <= a -> Rltb a b = false.
Proof. intros H. unfold Rltb. destruct (Rlt_dec a b); [lra | reflexivity]. Qed.

Lemma Rleb_spec (a b : R) : Rleb a b = true <-> a <= b.
Proof.
  unfold Rleb. destruct (Rle_dec a b); split; intros; auto; discriminate.
Qed.

Lemma Rltb_spec (a b : R) : Rltb a b = true <-> a < b.
Proof.
  unfold Rltb. destruct (Rlt_dec a b); split; intros; auto; discriminate.
Qed.

Lemma Rleb_nspec (a b : R) : Rleb a b = false <-> b < a.
Proof.
  unfold Rleb. destruct (Rle_dec a b); split; intros; try discriminate; lra.
Qed.

Lemma Rltb_nspec (a b : R) : Rltb a b = false <-> b <= a.
Proof.
  unfold Rltb. destruct (Rlt_dec a b); split; intros; try discriminate; lra.
Qed.

(** [Math.max] and [Math.min] are [Rmax] and [Rmin]. *)

Lemma Rmax_cases (a b : R) : (Rmax a b = a /\ b <= a) \/ (Rmax a b = b /\ a <= b).
Proof. unfold Rmax. destruct (Rle_dec a b); [right | left]; split; lra. Qed.

Lemma Rmin_cases (a b : R) : (Rmin a b = a /\ a <= b) \/ (Rmin a b = b /\ b <= a).
Proof. unfold Rmin. destruct (Rle_dec a b); [left | right]; split; lra. Qed.

(** Rewrites every comparison whose outcome [lra] can decide. *)
Ltac rcmp :=
  repeat match goal with
  | |- context [Rleb ?a ?b] =>
      first [ rewrite (Rleb_true a b) by lra | rewrite (Rleb_false a b) by lra ]
  | |- context [Rltb ?a ?b] =>
      first [ rewrite (Rltb_true a b) by lra | rewrite (Rltb_false a b) by lra ]
  end.

(** ** StateMachine *)

Lemma GameState_eqb_eq (a b : GameState) : GameState_eqb a b = true <-> a = b.
Proof. destruct a, b; simpl; split; intro H; congruence. Qed.

(** The [validTransitions] record of the code is the adjacency table. *)
Lemma canTransitionTo_table (World : Type) (m : StateMachine World) (target : GameState) :
  canTransitionTo m target = in_table (currentState m) target.
Proof. unfold canTransitionTo. destruct (currentState m), target; reflexivity. Qed.

Lemma invoke_calls (World : Type) (c : Call) (f : option (World -> World))
    (m : StateMachine World) :
  calls (invoke c f m) = calls m ++ callsOf c f.
Proof. destruct f; simpl; [reflexivity | now rewrite app_nil_r]. Qed.

Lemma invoke_world (World : Type) (c : Call) (f : option (World -> World))
    (m : StateMachine World) :
  world (invoke c f m) = applyOpt f (world m).
Proof. destruct f; reflexivity. Qed.

Lemma invoke_currentState (World : Type) (c : Call) (f : option (World -> World))
    (m : StateMachine World) :
  currentState (invoke c f m) = currentState m.
Proof. destruct f; reflexivity. Qed.

Lemma invoke_stateHandlers (World : Type) (c : Call) (f : option (World -> World))
    (m : StateMachine World) :
  stateHandlers (invoke c f m) = stateHandlers m.
Proof. destruct f; reflexivity. Qed.

Lemma transitionTo_rejected (World : Type) (m : StateMachine World) (target : GameState) :
  in_table (currentState m) target = false ->
  transitionTo target m =
  mkMachine (currentState m) (stateHandlers m) (world m) (calls m) (S (warnings m)).
Proof.
  intros H. unfold transitionTo. now rewrite canTransitionTo_table, H.
Qed.

Lemma transitionTo_accepted (World : Type) (m : StateMachine World) (target : GameState) :
  in_table (currentState m) target = true ->
  currentState (transitionTo target m) = target /\
  calls (transitionTo target m) =
    calls m ++ callsOf (OnExit (currentState m)) (handlerOnExit m (currentState m))
            ++ callsOf (OnEnter target) (handlerOnEnter m target) /\
  world (transitionTo target m) =
    applyOpt (handlerOnEnter m target)
             (applyOpt (handlerOnExit m (currentState m)) (world m)).
Proof.
  intros H. unfold transitionTo. rewrite canTransitionTo_table, H. simpl.
  assert (E : handlerOnEnter
                (setCurrentState target
                   (invoke (OnExit (currentState m))
                           (handlerOnExit m (currentState m)) m)) target
              = handlerOnEnter m target).
  { unfold handlerOnEnter. simpl. now rewrite invoke_stateHandlers. }
  rewrite E. clear E.
  rewrite invoke_currentState, invoke_calls, invoke_world. simpl.
  rewrite invoke_calls, invoke_world, app_assoc. auto.
Qed.

(** C6.  A requested transition that is not in the adjacency table
    {Boot->Title, Title->Play, Play->Result, Result->Play, Result->Title}
    leaves the current phase unchanged and invokes no callback (the trace of
    calls and the world the callbacks act on are unchanged; one diagnostic is
    emitted).  A transition in the table runs the old phase's [onExit] (when
    registered), then the new phase's [onEnter] (when registered), in that
    order and once each, and the phase becomes the target. *)
Theorem transitionTo_follows_adjacency_table
    (World : Type) (m : StateMachine World) (target : GameState) :
  (~ In (currentState m, target) adjacency_table ->
     currentState (transitionTo target m) = currentState m /\
     calls (transitionTo target m) = calls m /\
     world (transitionTo target m) = world m /\
     warnings (transitionTo target m) = S (warnings m)) /\
  (In (currentState m, target) adjacency_table ->
     currentState (transitionTo target m) = target /\
     calls (transitionTo target m) =
       calls m ++ callsOf (OnExit (currentState m)) (handlerOnExit m (currentState m))
               ++ callsOf (OnEnter target) (handlerOnEnter m target) /\
     world (transitionTo target m) =
       applyOpt (handlerOnEnter m target)
                (applyOpt (handlerOnExit m (currentState m)) (world m))).
Proof.
  assert (T : In (currentState m, target) adjacency_table <->
              in_table (currentState m) target = true).
  { unfold in_table. rewrite existsb_exists. split.
    - intros H. exists (currentState m, target). split; [exact H |].
      simpl. apply andb_true_intro. split; now apply GameState_eqb_eq.
    - intros [[a b] [Hin Heq]]. simpl in Heq.
      apply andb_prop in Heq. destruct Heq as [Ha Hb].
      apply GameState_eqb_eq in Ha. apply GameState_eqb_eq in Hb. now subst. }
  split; intros H.
  - assert (F : in_table (currentState m) target = false).
    { destruct (in_table (currentState m) target) eqn:E; [| reflexivity].
      exfalso. apply H. now apply T. }
    rewrite (transitionTo_rejected _ m target F). simpl. auto.
  - apply transitionTo_accepted. now apply T.
Qed.

(** An instance: the game's machine in Play, asked for Title (rejected) and
    for Result (accepted: Play's [onExit], then Result's [onEnter]). *)
Lemma transitionTo_follows_adjacency_table_witness :
  (currentState (transitionTo Title sessionInPlay) = Play /\
   calls (transitionTo Title sessionInPlay) = []) /\
  (currentState (transitionTo Result sessionInPlay) = Result /\
   calls (transitionTo Result sessionInPlay) = [OnExit Play; OnEnter Result]).
Proof.
  destruct (transitionTo_follows_adjacency_table Game.Data sessionInPlay Title)
    as [Hrej _].
  destruct (transitionTo_follows_adjacency_table Game.Data sessionInPlay Result)
    as [_ Hacc].
  split.
  - destruct Hrej as (Hs & Hc & _).
    + simpl. intros H.
      repeat (destruct H as [H | H]; [discriminate H |]). exact H.
    + split; [exact Hs | exact Hc].
  - destruct Hacc as (Hs & Hc & _).
    + simpl. auto.
    + split; [exact Hs | exact Hc].
Defined.

(** ** MeteorSpawner: the concurrency cap *)

Lemma cleanupFilter_length (ms : list Meteor.t) :
  (length (MeteorSpawner.cleanupFilter ms) <= length ms)%nat.
Proof.
  induction ms as [| m ms IH]; simpl; [lia |].
  destruct (Meteor.update 0 m) as [keep m']. destruct keep; simpl; lia.
Qed.

Lemma punchLoop_length (sphere : Sphere) (ms : list Meteor.t) :
  length (fst (CollisionSystem.punchLoop sphere ms)) = length ms.
Proof.
  induction ms as [| m ms IH]; simpl; [reflexivity |].
  destruct (CollisionSystem.punchLoop sphere ms) as [rest ev]. simpl in IH.
  destruct (negb (Meteor.canBeDestroyed m)); simpl; [now rewrite IH |].
  destruct (CollisionSystem.sphereIntersectsSphere _ _); simpl; now rewrite IH.
Qed.

Lemma checkPunchVsMeteors_length (player : Player.t) (ms : list Meteor.t) :
  length (fst (CollisionSystem.checkPunchVsMeteors player ms)) = length ms.
Proof.
  unfold CollisionSystem.checkPunchVsMeteors.
  destruct (Player.getPunchSphere player); [apply punchLoop_length | reflexivity].
Qed.

Lemma collision_meteors (player : Player.t) (creatures : list Creature.t)
    (ms : list Meteor.t) :
  CollisionSystem.meteors (CollisionSystem.update player creatures ms) =
  fst (CollisionSystem.checkPunchVsMeteors player ms).
Proof.
  unfold CollisionSystem.update.
  destruct (CollisionSystem.checkPunchVsMeteors player ms) as [ms1 ev1].
  destruct (CollisionSystem.checkMeteorExplosions player creatures ms1) as [[p2 c2] ev2].
  destruct (CollisionSystem.checkDirectMeteorHits p2 c2 ms1) as [[p3 c3] ev3].
  reflexivity.
Qed.

Lemma trySpawnMeteor_cap (s : MeteorSpawner.t) (g : Rng) :
  (length (MeteorSpawner.meteors s) <= MeteorSpawner.maxSimultaneousMeteors)%nat ->
  (length (MeteorSpawner.meteors (fst (MeteorSpawner.trySpawnMeteor s g)))
   <= MeteorSpawner.maxSimultaneousMeteors)%nat.
Proof.
  intros H. unfold MeteorSpawner.trySpawnMeteor.
  destruct (Nat.leb MeteorSpawner.maxSimultaneousMeteors (length (MeteorSpawner.meteors s)))
    eqn:E; [exact H |].
  apply Nat.leb_gt in E.
  destruct (MeteorSpawner.generateValidTarget s g) as [target g1]. simpl.
  rewrite length_app. simpl. lia.
Qed.

Lemma trySpawnMeteor_at_cap (s : MeteorSpawner.t) (g : Rng) :
  (MeteorSpawner.maxSimultaneousMeteors <= length (MeteorSpawner.meteors s))%nat ->
  MeteorSpawner.trySpawnMeteor s g = (s, g).
Proof.
  intros H. unfold MeteorSpawner.trySpawnMeteor.
  apply Nat.leb_le in H. now rewrite H.
Qed.

Lemma updateCadence_cap (deltaTime : R) (s : MeteorSpawner.t) (g : Rng) :
  (length (MeteorSpawner.meteors s) <= MeteorSpawner.maxSimultaneousMeteors)%nat ->
  (length (MeteorSpawner.meteors (fst (MeteorSpawner.updateCadence deltaTime s g)))
   <= MeteorSpawner.maxSimultaneousMeteors)%nat.
Proof.
  intros H. unfold MeteorSpawner.updateCadence.
  set (s1 := MeteorSpawner.set_spawnTimer _ _).
  destruct (MeteorSpawner.getCurrentDifficultyPhase s1) as [ph |]; [| exact H].
  destruct (Rgeb _ _); [| exact H].
  pose proof (trySpawnMeteor_cap s1 g H) as H1.
  destruct (MeteorSpawner.trySpawnMeteor s1 g) as [s2 g1]. exact H1.
Qed.

Lemma update_cap (deltaTime : R) (s : MeteorSpawner.t) (g : Rng) :
  (length (MeteorSpawner.meteors s) <= MeteorSpawner.maxSimultaneousMeteors)%nat ->
  (length (MeteorSpawner.meteors (fst (MeteorSpawner.update deltaTime s g)))
   <= MeteorSpawner.maxSimultaneousMeteors)%nat.
Proof.
  intros H. unfold MeteorSpawner.update.
  pose proof (updateCadence_cap deltaTime s g H) as H1.
  destruct (MeteorSpawner.updateCadence deltaTime s g) as [s1 g1]. simpl in *.
  eapply Nat.le_trans; [apply cleanupFilter_length |].
  now rewrite length_map.
Qed.

Lemma spawnerStep_cap (s : MeteorSpawner.t) (step : SpawnerStep) :
  (length (MeteorSpawner.meteors s) <= MeteorSpawner.maxSimultaneousMeteors)%nat ->
  (length (MeteorSpawner.meteors (spawnerStep s step))
   <= MeteorSpawner.maxSimultaneousMeteors)%nat.
Proof.
  intros H. destruct step; simpl.
  - now apply update_cap.
  - rewrite collision_meteors, checkPunchVsMeteors_length. exact H.
  - exact H.
  - now rewrite length_map.
  - lia.
Qed.

Lemma spawnerRun_cap (steps : list SpawnerStep) (s : MeteorSpawner.t) :
  (length (MeteorSpawner.meteors s) <= MeteorSpawner.maxSimultaneousMeteors)%nat ->
  (length (MeteorSpawner.meteors (spawnerRun steps s))
   <= MeteorSpawner.maxSimultaneousMeteors)%nat.
Proof.
  revert s. induction steps as [| step steps IH]; intros s H; simpl; [exact H |].
  apply IH. now apply spawnerStep_cap.
Qed.

Lemma updateCadence_at_cap (deltaTime : R) (s : MeteorSpawner.t) (g : Rng) :
  cadenceFires deltaTime s = true ->
  (MeteorSpawner.maxSimultaneousMeteors <= length (MeteorSpawner.meteors s))%nat ->
  MeteorSpawner.updateCadence deltaTime s g =
  (MeteorSpawner.set_spawnTimer 0
     (MeteorSpawner.set_gameTime (MeteorSpawner.gameTime s + deltaTime) s), g).
Proof.
  unfold cadenceFires, MeteorSpawner.updateCadence.
  set (s1 := MeteorSpawner.set_spawnTimer _ _).
  intros Hfire Hcap.
  destruct (MeteorSpawner.getCurrentDifficultyPhase s1) as [ph |]; [| discriminate].
  rewrite Hfire. rewrite trySpawnMeteor_at_cap by exact Hcap. reflexivity.
Qed.


(** ** Session: the alive-creature count and the terminal check *)

Lemma creature_update_isAlive (deltaTime : R) (positions : list Vec) (c : Creature.t)
    (g : Rng) :
  Creature.isAlive (fst (Creature.update deltaTime positions c g)) = Creature.isAlive c.
Proof.
  unfold Creature.update. destruct (Creature.isAlive c) eqn:E; simpl; [| exact E].
  assert (B : forall c0 g0,
             Creature.isAlive (fst (Creature.updateBehavior deltaTime positions c0 g0))
             = Creature.isAlive c0).
  { intros c0 g0. unfold Creature.updateBehavior.
    assert (W : forall c1 g1,
               Creature.isAlive (fst (Creature.updateWalkingBehavior deltaTime c1 g1))
               = Creature.isAlive c1).
    { intros c1 g1. unfold Creature.updateWalkingBehavior.
      destruct (_ || _); reflexivity. }
    destruct (Creature.findNearestThreat c0 positions) as [[pos d] |].
    - destruct (Rltb d Creature.fleeDistance); [reflexivity |].
      destruct (Creature.state c0); simpl; rewrite W; reflexivity.
    - destruct (Creature.state c0); simpl; rewrite W; reflexivity. }
  specialize (B c g).
  destruct (Creature.updateBehavior deltaTime positions c g) as [c1 g1]. simpl in *.
  unfold Creature.updateMovement.
  destruct (Rgtb _ _); simpl; now rewrite B.
Qed.

Lemma countAlive_cons (c : Creature.t) (cs : list Creature.t) :
  countAlive (c :: cs) = ((if Creature.isAlive c then 1 else 0) + countAlive cs)%nat.
Proof.
  unfold countAlive. simpl. unfold Creature.isCreatureAlive at 1.
  destruct (Creature.isAlive c); reflexivity.
Qed.

Lemma updateAll_countAlive (deltaTime : R) (positions : list Vec) (cs : list Creature.t)
    (g : Rng) :
  countAlive (fst (Creature.updateAll deltaTime positions cs g)) = countAlive cs.
Proof.
  revert g. induction cs as [| c cs IH]; intros g; simpl; [reflexivity |].
  pose proof (creature_update_isAlive deltaTime positions c g) as Hc.
  destruct (Creature.update deltaTime positions c g) as [c1 g1]. simpl in Hc.
  specialize (IH g1).
  destruct (Creature.updateAll deltaTime positions cs g1) as [rest g2]. simpl in *.
  rewrite !countAlive_cons, Hc, IH. reflexivity.
Qed.

(** A pass over the creatures either reports a creature event or leaves
    the count of the living as it was; it never raises the count. *)
Lemma hitCreatures_count (meteor : Meteor.t) (hazard : Sphere) (directHit : bool)
    (cs : list Creature.t) :
  let r := CollisionSystem.hitCreatures meteor hazard directHit cs in
  (countAlive (fst r) <= countAlive cs)%nat /\
  (existsb isCreatureEvent (snd r) = false -> countAlive (fst r) = countAlive cs).
Proof.
  cbv zeta. induction cs as [| c cs IH]; simpl; [split; auto |].
  destruct (CollisionSystem.hitCreatures meteor hazard directHit cs) as [rest ev].
  simpl in IH. destruct IH as [IH1 IH2].
  unfold Creature.isCreatureAlive.
  destruct (Creature.isAlive c) eqn:E; simpl.
  - destruct (CollisionSystem.sphereIntersectsSphere _ _); simpl.
    + split; [| discriminate].
      rewrite !countAlive_cons, E. simpl. lia.
    + rewrite !countAlive_cons, E. split; [lia |]. intros H. now rewrite IH2.
  - rewrite !countAlive_cons, E. split; [exact IH1 | exact IH2].
Qed.

Lemma existsb_app_false {A : Type} (f : A -> bool) (l1 l2 : list A) :
  existsb f (l1 ++ l2) = false -> existsb f l1 = false /\ existsb f l2 = false.
Proof. rewrite existsb_app. apply orb_false_elim. Qed.

Lemma checkMeteorExplosions_count (player : Player.t) (cs : list Creature.t)
    (ms : list Meteor.t) :
  let r := CollisionSystem.checkMeteorExplosions player cs ms in
  (countAlive (snd (fst r)) <= countAlive cs)%nat /\
  (existsb isCreatureEvent (snd r) = false -> countAlive (snd (fst r)) = countAlive cs).
Proof.
  cbv zeta.
  revert player cs. induction ms as [| m ms IH]; intros player cs; simpl; [split; auto |].
  destruct (negb (Meteor.isExploded m)); [apply IH |].
  pose proof (hitCreatures_count m (Meteor.getExplosionSphere m) false cs) as Hc.
  destruct (CollisionSystem.hitCreatures m (Meteor.getExplosionSphere m) false cs)
    as [cs1 ev1].
  destruct (CollisionSystem.hitPlayer m (Meteor.getExplosionSphere m)
              (Meteor.targetPosition m) 8 false player) as [p1 ev2] eqn:Ep.
  specialize (IH p1 cs1).
  destruct (CollisionSystem.checkMeteorExplosions p1 cs1 ms) as [[p2 cs2] ev].
  simpl in *. destruct Hc as [Hc1 Hc2]. destruct IH as [IH1 IH2].
  split; [lia |]. intros H.
  apply existsb_app_false in H. destruct H as [Ha H].
  apply existsb_app_false in H. destruct H as [_ H].
  simpl in H. rewrite IH2 by exact H. now apply Hc2.
Qed.

Lemma checkDirectMeteorHits_count (player : Player.t) (cs : list Creature.t)
    (ms : list Meteor.t) :
  let r := CollisionSystem.checkDirectMeteorHits player cs ms in
  (countAlive (snd (fst r)) <= countAlive cs)%nat /\
  (existsb isCreatureEvent (snd r) = false -> countAlive (snd (fst r)) = countAlive cs).
Proof.
  cbv zeta.
  revert player cs. induction ms as [| m ms IH]; intros player cs; simpl; [split; auto |].
  destruct (negb (MeteorState_eqb (Meteor.state m) Falling)); [apply IH |].
  pose proof (hitCreatures_count m (Meteor.getBoundingSphere m) true cs) as Hc.
  destruct (CollisionSystem.hitCreatures m (Meteor.getBoundingSphere m) true cs)
    as [cs1 ev1].
  destruct (CollisionSystem.hitPlayer m (Meteor.getBoundingSphere m)
              (Meteor.position m) 10 true player) as [p1 ev2] eqn:Ep.
  specialize (IH p1 cs1).
  destruct (CollisionSystem.checkDirectMeteorHits p1 cs1 ms) as [[p2 cs2] ev].
  simpl in *. destruct Hc as [Hc1 Hc2]. destruct IH as [IH1 IH2].
  split; [lia |]. intros H.
  apply existsb_app_false in H. destruct H as [Ha H].
  apply existsb_app_false in H. destruct H as [_ H].
  rewrite IH2 by exact H. now apply Hc2.
Qed.

Lemma collision_count (player : Player.t) (cs : list Creature.t) (ms : list Meteor.t) :
  let out := CollisionSystem.update player cs ms in
  (countAlive (CollisionSystem.creatures out) <= countAlive cs)%nat /\
  (existsb isCreatureEvent (CollisionSystem.events out) = false ->
   countAlive (CollisionSystem.creatures out) = countAlive cs).
Proof.
  cbv zeta.
  unfold CollisionSystem.update.
  destruct (CollisionSystem.checkPunchVsMeteors player ms) as [ms1 ev1] eqn:E1.
  pose proof (checkMeteorExplosions_count player cs ms1) as H2.
  destruct (CollisionSystem.checkMeteorExplosions player cs ms1) as [[p2 c2] ev2].
  pose proof (checkDirectMeteorHits_count p2 c2 ms1) as H3.
  destruct (CollisionSystem.checkDirectMeteorHits p2 c2 ms1) as [[p3 c3] ev3].
  simpl in *. destruct H2 as [H2a H2b]. destruct H3 as [H3a H3b].
  split; [lia |]. intros H.
  apply existsb_app_false in H. destruct H as [_ H].
  apply existsb_app_false in H. destruct H as [Ha Hb].
  rewrite H3b by exact Hb. now apply H2b.
Qed.

Lemma handleEvents_fold (events : list CollisionEvent) (d : Game.Data) :
  let d' := fold_left (fun acc event => Game.handleCollisionEvent event acc) events d in
  Game.creatures d' = Game.creatures d /\
  Game.gameTimer d' = Game.gameTimer d /\
  Game.isGameRunning d' = Game.isGameRunning d /\
  Game.aliveCreatures d' =
    if existsb isCreatureEvent events then countAlive (Game.creatures d)
    else Game.aliveCreatures d.
Proof.
  cbv zeta. revert d. induction events as [| e events IH]; intros d; simpl; [auto |].
  destruct (IH (Game.handleCollisionEvent e d)) as (Hc & Ht & Hr & Ha).
  rewrite Hc, Ht, Hr, Ha.
  destruct e; simpl; auto.
  destruct (existsb isCreatureEvent events); auto.
Qed.

Lemma updateGameEntities_gameTimer (f : Game.Frame) (d : Game.Data) :
  Game.gameTimer (Game.updateGameEntities f d) = Game.gameTimer d.
Proof.
  unfold Game.updateGameEntities.
  destruct (Creature.updateAll _ _ _ _) as [cs1 g1].
  destruct (MeteorSpawner.update _ _ _) as [sp1 g2].
  match goal with
  | |- context [fold_left _ ?ev ?d1] =>
      destruct (handleEvents_fold ev d1) as (_ & Ht & _)
  end.
  rewrite Ht. reflexivity.
Qed.

(** The scoreboard count never rises, and it stays equal to the number of
    living creatures. *)
Lemma updateGameEntities_scoreboard (f : Game.Frame) (d : Game.Data) :
  scoreboardConsistent d ->
  scoreboardConsistent (Game.updateGameEntities f d) /\
  (Game.aliveCreatures (Game.updateGameEntities f d) <= Game.aliveCreatures d)%nat.
Proof.
  unfold scoreboardConsistent, Game.updateGameEntities. intros H.
  pose proof (updateAll_countAlive (Game.deltaTime f)
                (MeteorSpawner.getTelegraphPositions (Game.meteorSpawner d))
                (Game.creatures d) (Game.rng d)) as Hu.
  destruct (Creature.updateAll _ _ _ _) as [cs1 g1]. simpl in Hu.
  destruct (MeteorSpawner.update _ _ _) as [sp1 g2].
  match goal with
  | |- context [CollisionSystem.update ?p ?c ?m] =>
      pose proof (collision_count p c m) as Hcol;
      set (out := CollisionSystem.update p c m) in *
  end.
  cbv zeta in Hcol. destruct Hcol as [Hle Heq].
  match goal with
  | |- context [fold_left _ ?ev ?d1] =>
      destruct (handleEvents_fold ev d1) as (Hc & _ & _ & Ha)
  end.
  rewrite Hc, Ha. simpl.
  destruct (existsb isCreatureEvent (CollisionSystem.events out)).
  - split; [reflexivity | lia].
  - rewrite Heq by reflexivity. split; [lia | lia].
Qed.

Lemma transitionTo_Result_from_Play (m : Game.t) :
  currentState m = Play -> currentState (transitionTo Result m) = Result.
Proof.
  intros H. apply transitionTo_accepted. unfold in_table. rewrite H. reflexivity.
Qed.

Lemma checkGameConditions_state (m : Game.t) :
  currentState m = Play ->
  currentState (Game.checkGameConditions m) =
    if Nat.leb (Game.aliveCreatures (world m)) 0 then Result
    else if Rleb (Game.gameTimer (world m)) 0 then Result
    else Play.
Proof.
  intros H. unfold Game.checkGameConditions.
  destruct (Nat.leb _ 0); [now apply transitionTo_Result_from_Play |].
  destruct (Rleb _ 0); [now apply transitionTo_Result_from_Play | exact H].
Qed.

Lemma update_currentState (f : Game.Frame) (m : Game.t) :
  currentState (Game.update f m) = currentState (Game.stateMachineUpdate f m).
Proof. unfold Game.update. destruct (Game.isGameRunning _); reflexivity. Qed.

(** C7.  In the Playing phase, [updateGame] evaluates the terminal check
    once, on the session data as left by this frame's collision resolution and
    event handling, and the creature condition is tested first: with no
    creature alive the phase becomes Result whatever the timer; otherwise with
    the timer at or below zero the phase becomes Result; otherwise play goes
    on.  A frame that starts with the scoreboard at zero (consistent with the
    creature collection) ends in Result at this frame's check.  The phase in
    which the frame of the game ends is the one this check decides. *)
Theorem terminal_check_creatures_first (f : Game.Frame) (m : Game.t) :
  currentState m = Play ->
  Game.updateGame f m = Game.checkGameConditions (setWorld (dataAtCheck f m) m) /\
  currentState (Game.update f m) = currentState (Game.updateGame f m) /\
  Game.gameTimer (dataAtCheck f m) = Game.gameTimer (world m) - Game.deltaTime f /\
  (Game.aliveCreatures (dataAtCheck f m) = 0%nat ->
     currentState (Game.updateGame f m) = Result) /\
  (Game.aliveCreatures (dataAtCheck f m) <> 0%nat ->
     Game.gameTimer (dataAtCheck f m) <= 0 ->
     currentState (Game.updateGame f m) = Result) /\
  (Game.aliveCreatures (dataAtCheck f m) <> 0%nat ->
     0 < Game.gameTimer (dataAtCheck f m) ->
     currentState (Game.updateGame f m) = Play) /\
  (scoreboardConsistent (world m) ->
     Game.aliveCreatures (world m) = 0%nat ->
     currentState (Game.updateGame f m) = Result).
Proof.
  intros HPlay.
  assert (E : Game.updateGame f m
              = Game.checkGameConditions (setWorld (dataAtCheck f m) m)) by reflexivity.
  assert (S : currentState (Game.updateGame f m) =
              if Nat.leb (Game.aliveCreatures (dataAtCheck f m)) 0 then Result
              else if Rleb (Game.gameTimer (dataAtCheck f m)) 0 then Result
              else Play).
  { rewrite E. now rewrite checkGameConditions_state. }
  split; [exact E |].
  split; [rewrite update_currentState; unfold Game.stateMachineUpdate; now rewrite HPlay |].
  split; [unfold dataAtCheck; now rewrite updateGameEntities_gameTimer |].
  split; [| split; [| split]].
  - intros H0. rewrite S, H0. reflexivity.
  - intros Hn Ht. rewrite S.
    destruct (Nat.leb _ 0); [reflexivity |]. now rewrite Rleb_true.
  - intros Hn Ht. rewrite S.
    destruct (Nat.leb _ 0) eqn:El; [apply Nat.leb_le in El; lia |].
    now rewrite Rleb_false.
  - intros Hc H0. rewrite S.
    assert (Hc' : scoreboardConsistent
                    (Game.set_gameTimer (Game.gameTimer (world m) - Game.deltaTime f)
                                        (world m))) by exact Hc.
    destruct (updateGameEntities_scoreboard f _ Hc') as [_ Hle].
    assert (Hle' : (Game.aliveCreatures (dataAtCheck f m)
                    <= Game.aliveCreatures (world m))%nat) by exact Hle.
    destruct (Nat.leb (Game.aliveCreatures (dataAtCheck f m)) 0) eqn:El; [reflexivity |].
    apply Nat.leb_gt in El. lia.
Qed.

(** An instance: all three creatures dead with 55 seconds left; the next
    frame's check ends the session. *)
Lemma terminal_check_creatures_first_witness :
  currentState sessionAllDead = Play /\
  Game.gameTimer (world sessionAllDead) = 55 /\
  currentState (Game.updateGame idleFrame sessionAllDead) = Result.
Proof.
  assert (HPlay : currentState sessionAllDead = Play) by reflexivity.
  destruct (terminal_check_creatures_first idleFrame sessionAllDead HPlay)
    as (_ & _ & _ & _ & _ & _ & H).
  repeat split; try reflexivity.
  apply H; reflexivity.
Defined.

(** ** Vectors *)

Lemma sqrt_of_square (a b : R) : 0 <= a -> b = a * a -> sqrt b = a.
Proof. intros Ha ->. now apply sqrt_square. Qed.

Lemma length_of (v : Vec) (l : R) :
  0 <= l ->
  Vector3.x v * Vector3.x v + Vector3.y v * Vector3.y v + Vector3.z v * Vector3.z v = l * l ->
  Vector3.length v = l.
Proof. intros Hl H. unfold Vector3.length. now apply sqrt_of_square. Qed.

Lemma length_nonneg (v : Vec) : 0 <= Vector3.length v.
Proof. apply sqrt_pos. Qed.

Lemma normalize_of (v : Vec) (l : R) :
  Vector3.length v = l -> l <> 0 ->
  Vector3.normalize v =
  Vector3.mk (Vector3.x v * (1 / l)) (Vector3.y v * (1 / l)) (Vector3.z v * (1 / l)).
Proof.
  intros Hl Hn. unfold Vector3.normalize. rewrite Hl.
  destruct (Req_dec_T l 0); [contradiction | reflexivity].
Qed.

Lemma normalize_zero (v : Vec) :
  Vector3.length v = 0 -> Vector3.normalize v = v.
Proof.
  intros Hl. unfold Vector3.normalize. rewrite Hl.
  destruct (Req_dec_T 0 0) as [_ | n]; [| now contradiction n].
  destruct v as [a b c]. unfold Vector3.divideScalar, Vector3.multiplyScalar. simpl.
  f_equal; field.
Qed.

Lemma vec_eq (a b c a' b' c' : R) :
  a = a' -> b = b' -> c = c' -> Vector3.mk a b c = Vector3.mk a' b' c'.
Proof. intros -> -> ->. reflexivity. Qed.

(** ** Player: knockback *)

Lemma updatePhysics_knockback (deltaTime : R) (p : Player.t) :
  Player.knockbackTimer (Player.updatePhysics deltaTime p) = Player.knockbackTimer p /\
  Player.isKnockedBack (Player.updatePhysics deltaTime p) = Player.isKnockedBack p.
Proof.
  unfold Player.updatePhysics. destruct (Rltb _ _); simpl; auto.
Qed.

Lemma updateGroundCheck_knockback (p : Player.t) :
  Player.knockbackTimer (Player.updateGroundCheck p) = Player.knockbackTimer p /\
  Player.isKnockedBack (Player.updateGroundCheck p) = Player.isKnockedBack p.
Proof.
  unfold Player.updateGroundCheck.
  destruct (Player.isGrounded p); simpl; auto.
  destruct (_ && _); simpl; auto.
Qed.


Lemma updateKnockback_flag (deltaTime : R) (p : Player.t) :
  Player.isKnockedBack (Player.updateKnockback deltaTime p)
  = if Rleb (Player.knockbackTimer p - deltaTime) 0 then false else Player.isKnockedBack p.
Proof.
  unfold Player.updateKnockback.
  rewrite (proj2 (updateGroundCheck_knockback _)), (proj2 (updatePhysics_knockback _ _)).
  simpl. destruct (Rleb _ 0); reflexivity.
Qed.

(** In knockback recovery [update] does not look at its input or camera. *)
Lemma update_in_knockback (deltaTime : R) (i : InputState) (c : option Vec) (p : Player.t) :
  Player.isKnockedBack p = true ->
  Player.update deltaTime i c p = Player.updateKnockback deltaTime p.
Proof. intros H. unfold Player.update. now rewrite H. Qed.




Lemma applyKnockback_unit_x (p0 : Player.t) :
  Player.velocity (Player.applyKnockback (Vector3.mk 1 0 0) 5 p0) = Vector3.mk 5 3 0.
Proof.
  unfold Player.applyKnockback. simpl.
  rewrite (normalize_of (Vector3.mk 1 0 0) 1); [| apply length_of; simpl; lra | lra].
  unfold Vector3.multiplyScalar, Vector3.setY. simpl.
  apply vec_eq; try lra.
  match goal with
  | |- Rmax ?a ?b = _ => destruct (Rmax_cases a b) as [[-> H] | [-> _]]; lra
  end.
Qed.



(** ** Terrain *)

Lemma product_bound (a b : R) : -1 <= a <= 1 -> -1 <= b <= 1 -> -1 <= a * b <= 1.
Proof. intros Ha Hb. split; nra. Qed.

Lemma getTerrainHeight_bound (x z : R) : -0.65 <= getTerrainHeight x z <= 0.65.
Proof.
  unfold getTerrainHeight. cbv zeta.
  pose proof (product_bound _ _ (SIN_bound (x * 0.8)) (COS_bound (- z * 0.8))) as H1.
  pose proof (product_bound _ _ (SIN_bound (x * 1.5 + 1)) (SIN_bound (- z * 1.2 + 0.5))) as H2.
  pose proof (COS_bound (x * 0.5 - - z * 0.7)) as H3.
  lra.
Qed.

(** At the centre of the stage the terrain is at least 0.15 high. *)
Lemma getTerrainHeight_origin : 0.15 <= getTerrainHeight 0 0.
Proof.
  unfold getTerrainHeight. cbv zeta.
  replace (0 * 0.8) with 0 by lra. replace (- 0 * 0.8) with 0 by lra.
  replace (0 * 1.5 + 1) with 1 by lra. replace (- 0 * 1.2 + 0.5) with 0.5 by lra.
  replace (0 * 0.5 - - 0 * 0.7) with 0 by lra.
  rewrite sin_0, cos_0.
  pose proof PI2_3_2 as HPI.
  assert (H1 : 0 <= sin 1) by (apply sin_ge_0; lra).
  assert (H2 : 0 <= sin 0.5) by (apply sin_ge_0; lra).
  nra.
Qed.

(** ** Player: friction *)

Lemma Rpower_tenth_lt_1 (deltaTime : R) : 0 < deltaTime -> 0 < Rpower 0.1 deltaTime < 1.
Proof.
  intros H. unfold Rpower. split; [apply exp_pos |].
  rewrite <- exp_0. apply exp_increasing.
  assert (L : ln 0.1 < 0).
  { rewrite <- ln_1. apply ln_increasing; lra. }
  nra.
Qed.

Lemma scaled_norm (k a b : R) : 0 <= k -> sqrt (a * k * (a * k) + b * k * (b * k)) = k * sqrt (a * a + b * b).
Proof.
  intros Hk.
  replace (a * k * (a * k) + b * k * (b * k)) with (k * k * (a * a + b * b)) by ring.
  rewrite sqrt_mult; [| nra | nra].
  now rewrite sqrt_square.
Qed.

(** The horizontal velocity after the steps that follow [updateMovement]:
    they leave it alone, except that a respawn zeroes it. *)
Ltac player_unfold :=
  unfold Player.updateGroundCheck, Player.updatePhysics, Player.updatePunch,
    Player.updateJump, Player.respawn, Player.placePunchSphere, Player.punchActivates.

Ltac split_ifs :=
  repeat match goal with
  | |- context [if ?b then _ else _] => destruct b eqn:?
  end.

Lemma updateJump_horizontal (i : InputState) (p : Player.t) :
  Vector3.x (Player.velocity (Player.updateJump i p)) = Vector3.x (Player.velocity p) /\
  Vector3.z (Player.velocity (Player.updateJump i p)) = Vector3.z (Player.velocity p).
Proof. player_unfold. split_ifs; simpl; auto. Qed.

Lemma updatePunch_velocity (deltaTime : R) (i : InputState) (c : option Vec) (p : Player.t) :
  Player.velocity (Player.updatePunch deltaTime i c p) = Player.velocity p.
Proof. player_unfold. split_ifs; simpl; auto. Qed.

Lemma updateGroundCheck_horizontal (p : Player.t) :
  Vector3.x (Player.velocity (Player.updateGroundCheck p)) = Vector3.x (Player.velocity p) /\
  Vector3.z (Player.velocity (Player.updateGroundCheck p)) = Vector3.z (Player.velocity p).
Proof. player_unfold. split_ifs; simpl; auto. Qed.

Lemma updatePhysics_horizontal (deltaTime : R) (p : Player.t) :
  (Vector3.x (Player.velocity (Player.updatePhysics deltaTime p))
     = Vector3.x (Player.velocity p) /\
   Vector3.z (Player.velocity (Player.updatePhysics deltaTime p))
     = Vector3.z (Player.velocity p)) \/
  (Player.velocity (Player.updatePhysics deltaTime p) = Vector3.zero).
Proof. player_unfold. split_ifs; simpl; auto. Qed.

Lemma updateMovement_friction (deltaTime : R) (i : InputState) (c : option Vec)
    (p : Player.t) :
  Player.isGrounded p = true -> movement_x i = 0 -> movement_z i = 0 ->
  Player.velocity (Player.updateMovement deltaTime i c p) =
  Vector3.mk (Vector3.x (Player.velocity p) * Rpower 0.1 deltaTime)
             (Vector3.y (Player.velocity p))
             (Vector3.z (Player.velocity p) * Rpower 0.1 deltaTime).
Proof.
  intros Hg Hx Hz. unfold Player.updateMovement. rewrite Hx, Hz, Hg.
  assert (L : Vector3.length (Vector3.mk 0 0 0) = 0).
  { apply length_of; simpl; lra. }
  rewrite L. rewrite Rltb_false by lra. reflexivity.
Qed.

(** The horizontal velocity after a whole [update] outside knockback, for
    a grounded player with zero movement intent. *)
Lemma update_friction (deltaTime : R) (i : InputState) (c : option Vec) (p : Player.t) :
  Player.isKnockedBack p = false ->
  Player.isGrounded p = true -> movement_x i = 0 -> movement_z i = 0 ->
  let p' := Player.update deltaTime i c p in
  (Vector3.x (Player.velocity p') = Vector3.x (Player.velocity p) * Rpower 0.1 deltaTime /\
   Vector3.z (Player.velocity p') = Vector3.z (Player.velocity p) * Rpower 0.1 deltaTime) \/
  (Vector3.x (Player.velocity p') = 0 /\ Vector3.z (Player.velocity p') = 0).
Proof.
  intros Hk Hg Hx Hz p'. subst p'. unfold Player.update. rewrite Hk.
  set (p1 := Player.updateMovement deltaTime i c p).
  assert (H1 : Player.velocity p1 = _) by (apply updateMovement_friction; assumption).
  destruct (updateGroundCheck_horizontal
              (Player.updatePhysics deltaTime
                 (Player.updatePunch deltaTime i c (Player.updateJump i p1)))) as [Gx Gz].
  rewrite Gx, Gz.
  destruct (updatePhysics_horizontal deltaTime
              (Player.updatePunch deltaTime i c (Player.updateJump i p1))) as [[Px Pz] | P0].
  - left. rewrite Px, Pz, updatePunch_velocity.
    destruct (updateJump_horizontal i p1) as [Jx Jz]. rewrite Jx, Jz, H1. simpl. auto.
  - right. rewrite P0. simpl. auto.
Qed.

Lemma horizontalSpeed_scaled (p p' : Player.t) (k : R) :
  0 <= k ->
  Vector3.x (Player.velocity p') = Vector3.x (Player.velocity p) * k ->
  Vector3.z (Player.velocity p') = Vector3.z (Player.velocity p) * k ->
  horizontalSpeed p' = k * horizontalSpeed p.
Proof.
  intros Hk Hx Hz. unfold horizontalSpeed. rewrite Hx, Hz. now apply scaled_norm.
Qed.

Lemma horizontalSpeed_zero (p : Player.t) :
  Vector3.x (Player.velocity p) = 0 -> Vector3.z (Player.velocity p) = 0 ->
  horizontalSpeed p = 0.
Proof.
  intros Hx Hz. unfold horizontalSpeed. rewrite Hx, Hz.
  apply sqrt_of_square; lra.
Qed.

Lemma horizontalSpeed_nonneg (p : Player.t) : 0 <= horizontalSpeed p.
Proof. apply sqrt_pos. Qed.

(** Heights through the steps before gravity. *)
Lemma before_physics_height (deltaTime : R) (i : InputState) (c : option Vec) (p : Player.t) :
  let q := Player.updatePunch deltaTime i c
             (Player.updateJump i (Player.updateMovement deltaTime i c p)) in
  Vector3.y (Player.position q) = Vector3.y (Player.position p) /\
  (Vector3.y (Player.velocity q) = Vector3.y (Player.velocity p) \/
   Vector3.y (Player.velocity q) = Player.jumpSpeed).
Proof.
  cbv zeta. player_unfold. unfold Player.updateMovement.
  split_ifs; simpl; auto.
Qed.

Lemma updatePhysics_no_respawn (deltaTime : R) (p : Player.t) :
  -10 <= Vector3.y (Player.position p)
         + (Vector3.y (Player.velocity p) + Player.gravity * deltaTime) * deltaTime ->
  Vector3.x (Player.velocity (Player.updatePhysics deltaTime p))
    = Vector3.x (Player.velocity p) /\
  Vector3.z (Player.velocity (Player.updatePhysics deltaTime p))
    = Vector3.z (Player.velocity p).
Proof.
  intros H. unfold Player.updatePhysics. simpl.
  rewrite Rltb_false by exact H. simpl. auto.
Qed.

(** C9 (amended).  On an [update] outside knockback recovery, with the
    player grounded, zero movement intent, a positive delta time and a
    non-zero horizontal velocity, the horizontal speed strictly decreases; it
    becomes 0.1^dt times the old speed, or zero when the gravity step of the
    frame takes the player below y = -10 and respawns it.  For a player
    resting on the terrain and a delta time of at most 0.7 there is no
    respawn and the factor is 0.1^dt. *)
Theorem friction_slows_grounded_player
    (deltaTime : R) (i : InputState) (c : option Vec) (p : Player.t) :
  Player.isKnockedBack p = false ->
  Player.isGrounded p = true ->
  movement_x i = 0 -> movement_z i = 0 ->
  0 < deltaTime ->
  horizontalSpeed p <> 0 ->
  let p' := Player.update deltaTime i c p in
  horizontalSpeed p' < horizontalSpeed p /\
  0 < Rpower 0.1 deltaTime < 1 /\
  (horizontalSpeed p' = Rpower 0.1 deltaTime * horizontalSpeed p \/ horizontalSpeed p' = 0) /\
  (Vector3.y (Player.position p)
     = getTerrainHeight (Vector3.x (Player.position p)) (Vector3.z (Player.position p)) + 0.6 ->
   Vector3.y (Player.velocity p) = 0 ->
   deltaTime <= 0.7 ->
   horizontalSpeed p' = Rpower 0.1 deltaTime * horizontalSpeed p).
Proof.
  intros Hk Hg Hx Hz Hdt Hv p'.
  pose proof (Rpower_tenth_lt_1 deltaTime Hdt) as Hpow.
  pose proof (horizontalSpeed_nonneg p) as Hnn.
  assert (Hpos : 0 < horizontalSpeed p) by lra.
  assert (Hscaled : forall q, Vector3.x (Player.velocity q)
                              = Vector3.x (Player.velocity p) * Rpower 0.1 deltaTime ->
                              Vector3.z (Player.velocity q)
                              = Vector3.z (Player.velocity p) * Rpower 0.1 deltaTime ->
                              horizontalSpeed q = Rpower 0.1 deltaTime * horizontalSpeed p).
  { intros q Qx Qz. apply horizontalSpeed_scaled; [lra | exact Qx | exact Qz]. }
  destruct (update_friction deltaTime i c p Hk Hg Hx Hz) as [[Ex Ez] | [Ex Ez]];
    fold p' in Ex, Ez.
  - pose proof (Hscaled p' Ex Ez) as E.
    split; [rewrite E; nra |]. split; [exact Hpow |].
    split; [now left | intros; exact E].
  - pose proof (horizontalSpeed_zero p' Ex Ez) as E.
    split; [lra |]. split; [exact Hpow |]. split; [now right |].
    intros Hy Hvy Hsmall.
    set (q := Player.updatePunch deltaTime i c
                (Player.updateJump i (Player.updateMovement deltaTime i c p))).
    destruct (before_physics_height deltaTime i c p) as [Qy Qv].
    cbv zeta in Qy, Qv. fold q in Qy, Qv.
    pose proof (getTerrainHeight_bound (Vector3.x (Player.position p))
                                       (Vector3.z (Player.position p))) as Hb.
    assert (NR : -10 <= Vector3.y (Player.position q)
                        + (Vector3.y (Player.velocity q) + Player.gravity * deltaTime)
                          * deltaTime).
    { rewrite Qy, Hy. unfold Player.gravity.
      destruct Qv as [-> | ->]; [rewrite Hvy | unfold Player.jumpSpeed]; nra. }
    destruct (updatePhysics_no_respawn deltaTime q NR) as [Px Pz].
    destruct (updateGroundCheck_horizontal (Player.updatePhysics deltaTime q)) as [Gx Gz].
    destruct (updateJump_horizontal i (Player.updateMovement deltaTime i c p)) as [Jx Jz].
    pose proof (updateMovement_friction deltaTime i c p Hg Hx Hz) as M.
    apply Hscaled; subst p'; unfold Player.update; rewrite Hk; fold q.
    + rewrite Gx, Px. unfold q. rewrite updatePunch_velocity, Jx, M. reflexivity.
    + rewrite Gz, Pz. unfold q. rewrite updatePunch_velocity, Jz, M. reflexivity.
Qed.

(** An instance: sliding at speed 5, half a second without input. *)
Lemma friction_slows_grounded_player_witness :
  horizontalSpeed playerSliding = 5 /\
  horizontalSpeed (Player.update 0.5 idleInput None playerSliding)
    < horizontalSpeed playerSliding.
Proof.
  assert (H5 : horizontalSpeed playerSliding = 5).
  { unfold horizontalSpeed. simpl. apply sqrt_of_square; lra. }
  split; [exact H5 |].
  apply (friction_slows_grounded_player 0.5 idleInput None playerSliding);
    try reflexivity; [lra | rewrite H5; lra].
Defined.

(** A frame of knockback recovery that brings the player down. *)
Lemma updateKnockback_lands (deltaTime : R) (p : Player.t) :
  let vy := Vector3.y (Player.velocity p) + Player.gravity * deltaTime in
  let x' := Vector3.x (Player.position p) + Vector3.x (Player.velocity p) * deltaTime in
  let y' := Vector3.y (Player.position p) + vy * deltaTime in
  let z' := Vector3.z (Player.position p) + Vector3.z (Player.velocity p) * deltaTime in
  Player.isGrounded p = false ->
  -10 <= y' -> y' <= getTerrainHeight x' z' + 0.6 -> vy <= 0 ->
  let p' := Player.updateKnockback deltaTime p in
  Player.isGrounded p' = true /\
  Player.velocity p' = Vector3.mk (Vector3.x (Player.velocity p)) 0
                                  (Vector3.z (Player.velocity p)) /\
  Player.position p' = Vector3.mk x' (getTerrainHeight x' z' + 0.6) z'.
Proof.
  intros vy x' y' z' Hg Hfloor Hland Hvy p'. subst p'.
  unfold Player.updateKnockback, Player.updatePhysics.
  set (p2 := if Rleb _ 0 then _ else _).
  assert (Hpos : Player.position p2 = Player.position p)
    by (unfold p2; destruct (Rleb _ 0); reflexivity).
  assert (Hvel : Player.velocity p2 = Player.velocity p)
    by (unfold p2; destruct (Rleb _ 0); reflexivity).
  assert (Hgr : Player.isGrounded p2 = false)
    by (unfold p2; destruct (Rleb _ 0); exact Hg).
  simpl. rewrite Hpos, Hvel. fold vy. simpl. fold x' y' z'.
  rewrite Rltb_false by exact Hfloor.
  unfold Player.updateGroundCheck. simpl. rewrite Hgr.
  rewrite Rleb_true by exact Hland. rewrite Rleb_true by exact Hvy. simpl.
  auto.
Qed.

(** A frame of knockback recovery of a player that stands on the ground. *)
Lemma updateKnockback_grounded (deltaTime : R) (p : Player.t) :
  Player.isGrounded p = true ->
  -10 <= Vector3.y (Player.position p)
         + (Vector3.y (Player.velocity p) + Player.gravity * deltaTime) * deltaTime ->
  Vector3.x (Player.velocity (Player.updateKnockback deltaTime p))
    = Vector3.x (Player.velocity p) /\
  Vector3.z (Player.velocity (Player.updateKnockback deltaTime p))
    = Vector3.z (Player.velocity p).
Proof.
  intros Hg Hfloor. unfold Player.updateKnockback.
  set (p2 := if Rleb _ 0 then _ else _).
  assert (Hpos : Player.position p2 = Player.position p)
    by (unfold p2; destruct (Rleb _ 0); reflexivity).
  assert (Hvel : Player.velocity p2 = Player.velocity p)
    by (unfold p2; destruct (Rleb _ 0); reflexivity).
  destruct (updateGroundCheck_horizontal (Player.updatePhysics deltaTime p2)) as [Gx Gz].
  rewrite Gx, Gz.
  rewrite <- Hpos, <- Hvel in Hfloor.
  destruct (updatePhysics_no_respawn deltaTime p2 Hfloor) as [Px Pz].
  rewrite Px, Pz, Hvel. auto.
Qed.

Lemma playerLandedInKnockback_state :
  Player.isGrounded playerLandedInKnockback = true /\
  Player.isKnockedBack playerLandedInKnockback = true /\
  Player.velocity playerLandedInKnockback = Vector3.mk 5 0 0 /\
  Player.position playerLandedInKnockback
    = Vector3.mk 1.95 (getTerrainHeight 1.95 0 + 0.6) 0.
Proof.
  unfold playerLandedInKnockback.
  set (p1 := Player.applyKnockback (Vector3.mk 1 0 0) 5 playerAtRest).
  assert (Hv : Player.velocity p1 = Vector3.mk 5 3 0) by apply applyKnockback_unit_x.
  assert (Hp : Player.position p1 = Vector3.mk 0 (getTerrainHeight 0 0 + 0.6) 0)
    by reflexivity.
  assert (Hk : Player.isKnockedBack p1 = true) by reflexivity.
  assert (Hg : Player.isGrounded p1 = false) by reflexivity.
  assert (Ht : Player.knockbackTimer p1 = 0.4) by reflexivity.
  rewrite (update_in_knockback 0.39 idleInput None p1 Hk).
  pose proof (getTerrainHeight_bound 0 0) as B0.
  pose proof (getTerrainHeight_bound 1.95 0) as B1.
  assert (Ex : 0 + 5 * 0.39 = 1.95) by lra.
  assert (Ez : 0 + 0 * 0.39 = 0) by lra.
  pose proof (updateKnockback_lands 0.39 p1) as L. cbv zeta in L.
  rewrite Hv, Hp in L. simpl in L. rewrite Ex, Ez in L.
  destruct (L Hg) as (Lg & Lv & Lp); try (unfold Player.gravity; lra).
  split; [exact Lg |]. split.
  - rewrite updateKnockback_flag, Ht, Hk. now rewrite Rleb_false by lra.
  - split; [exact Lv | exact Lp].
Qed.

(** C9, as stated, fails on a frame of knockback recovery.  The player
    knocked back from rest has landed after 0.39 seconds, 0.01 seconds before
    the recovery ends; on the next frame it is grounded, the movement intent
    is zero, the delta time is positive and the horizontal speed is 5, and the
    speed is still 5 afterwards. *)
Lemma grounded_knockback_frame_keeps_speed :
  Player.isGrounded playerLandedInKnockback = true /\
  movement_x idleInput = 0 /\ movement_z idleInput = 0 /\
  0 < 0.1 /\
  horizontalSpeed playerLandedInKnockback <> 0 /\
  ~ (horizontalSpeed (Player.update 0.1 idleInput None playerLandedInKnockback)
     < horizontalSpeed playerLandedInKnockback).
Proof.
  destruct playerLandedInKnockback_state as (Hg & Hk & Hv & Hp).
  assert (H5 : horizontalSpeed playerLandedInKnockback = 5).
  { unfold horizontalSpeed. rewrite Hv. simpl. apply sqrt_of_square; lra. }
  pose proof (getTerrainHeight_bound 1.95 0) as B1.
  assert (H5' : horizontalSpeed (Player.update 0.1 idleInput None playerLandedInKnockback)
                = 5).
  { rewrite (update_in_knockback _ _ _ _ Hk).
    destruct (updateKnockback_grounded 0.1 playerLandedInKnockback Hg) as [Ux Uz].
    - rewrite Hp, Hv. simpl. unfold Player.gravity. lra.
    - unfold horizontalSpeed. rewrite Ux, Uz, Hv. simpl. apply sqrt_of_square; lra. }
  split; [exact Hg |]. split; [reflexivity |]. split; [reflexivity |].
  split; [lra |]. split; [rewrite H5; lra |].
  rewrite H5, H5'. lra.
Qed.

(** ** Player: the stage bounds *)

Lemma constrain_bounds (v : R) : -5 + Player.margin <= Player.constrain v <= 5 - Player.margin.
Proof.
  unfold Player.constrain, Player.margin.
  destruct (Rmin_cases (5 - 0.5) v) as [[-> H] | [-> H]];
    match goal with
    | |- _ <= Rmax ?a ?b <= _ => destruct (Rmax_cases a b) as [[-> H'] | [-> H']]; lra
    end.
Qed.


Lemma constrain_above (v : R) : 5 - Player.margin <= v -> Player.constrain v = 5 - Player.margin.
Proof.
  unfold Player.constrain, Player.margin. intros H.
  destruct (Rmin_cases (5 - 0.5) v) as [[-> H1] | [-> H1]];
    match goal with
    | |- Rmax ?a ?b = _ => destruct (Rmax_cases a b) as [[-> H'] | [-> H']]; lra
    end.
Qed.

(** The clamp is there: right after [updateMovement] the player is inside. *)
Lemma updateMovement_withinStage (deltaTime : R) (i : InputState) (c : option Vec)
    (p : Player.t) :
  withinStage (Player.position (Player.updateMovement deltaTime i c p)).
Proof.
  unfold withinStage, Player.updateMovement. simpl.
  split; apply constrain_bounds.
Qed.

(** The position is integrated a second time by [updatePhysics], after
    the clamp. *)
Lemma update_integrates_twice (deltaTime : R) (i : InputState) (c : option Vec)
    (p : Player.t) :
  Player.isKnockedBack p = false ->
  let p1 := Player.updateMovement deltaTime i c p in
  let q := Player.updatePunch deltaTime i c (Player.updateJump i p1) in
  -10 <= Vector3.y (Player.position q)
         + (Vector3.y (Player.velocity q) + Player.gravity * deltaTime) * deltaTime ->
  Vector3.x (Player.position (Player.update deltaTime i c p))
    = Vector3.x (Player.position p1) + Vector3.x (Player.velocity p1) * deltaTime /\
  Vector3.z (Player.position (Player.update deltaTime i c p))
    = Vector3.z (Player.position p1) + Vector3.z (Player.velocity p1) * deltaTime.
Proof.
  intros Hk p1 q NR. unfold Player.update. rewrite Hk. fold p1. fold q.
  assert (Hq : Player.position q = Player.position p1 /\
               Vector3.x (Player.velocity q) = Vector3.x (Player.velocity p1) /\
               Vector3.z (Player.velocity q) = Vector3.z (Player.velocity p1)).
  { unfold q. player_unfold. split_ifs; simpl; auto. }
  destruct Hq as (Qp & Qx & Qz).
  assert (Hphys : Player.position (Player.updatePhysics deltaTime q) =
                  Vector3.add (Player.position q)
                    (Vector3.multiplyScalar
                       (Vector3.setY (Player.velocity q)
                          (Vector3.y (Player.velocity q) + Player.gravity * deltaTime))
                       deltaTime)).
  { unfold Player.updatePhysics. simpl. rewrite Rltb_false by exact NR. reflexivity. }
  assert (Hgc : forall r, Vector3.x (Player.position (Player.updateGroundCheck r))
                          = Vector3.x (Player.position r) /\
                          Vector3.z (Player.position (Player.updateGroundCheck r))
                          = Vector3.z (Player.position r)).
  { intros r. player_unfold. split_ifs; simpl; auto. }
  destruct (Hgc (Player.updatePhysics deltaTime q)) as [Gx Gz].
  rewrite Gx, Gz, Hphys. simpl. rewrite Qp, Qx, Qz. auto.
Qed.

(** Walking: the velocity that [updateMovement] sets for a grounded player
    pushing the stick to the right, without camera. *)
Lemma updateMovement_pushRight (deltaTime : R) (p : Player.t) :
  deltaTime <> 0 -> Player.isGrounded p = true ->
  Vector3.x (Player.velocity (Player.updateMovement deltaTime pushRight None p))
    = Player.moveSpeed p /\
  Vector3.z (Player.velocity (Player.updateMovement deltaTime pushRight None p)) = 0.
Proof.
  intros Hdt Hg. unfold Player.updateMovement. simpl.
  assert (L : Vector3.length (Vector3.mk 1 0 0) = 1) by (apply length_of; simpl; lra).
  rewrite L. rewrite Rltb_true by lra.
  rewrite Hg. simpl.
  destruct (Req_dec_T 1 0); split; field; exact Hdt.
Qed.

Lemma updateMovement_position (deltaTime : R) (i : InputState) (c : option Vec)
    (p : Player.t) :
  let p1 := Player.updateMovement deltaTime i c p in
  Vector3.x (Player.position p1)
    = Player.constrain (Vector3.x (Player.position p)
                        + Vector3.x (Player.velocity p1) * deltaTime) /\
  Vector3.z (Player.position p1)
    = Player.constrain (Vector3.z (Player.position p)
                        + Vector3.z (Player.velocity p1) * deltaTime).
Proof.
  cbv zeta. unfold Player.updateMovement. split_ifs; simpl; auto.
Qed.

(** Knockback recovery integrates the position without any clamp. *)
Lemma updateKnockback_position (deltaTime : R) (p : Player.t) :
  -10 <= Vector3.y (Player.position p)
         + (Vector3.y (Player.velocity p) + Player.gravity * deltaTime) * deltaTime ->
  Vector3.x (Player.position (Player.updateKnockback deltaTime p))
    = Vector3.x (Player.position p) + Vector3.x (Player.velocity p) * deltaTime /\
  Vector3.z (Player.position (Player.updateKnockback deltaTime p))
    = Vector3.z (Player.position p) + Vector3.z (Player.velocity p) * deltaTime.
Proof.
  intros NR. unfold Player.updateKnockback.
  set (p2 := if Rleb _ 0 then _ else _).
  assert (Hpos : Player.position p2 = Player.position p)
    by (unfold p2; destruct (Rleb _ 0); reflexivity).
  assert (Hvel : Player.velocity p2 = Player.velocity p)
    by (unfold p2; destruct (Rleb _ 0); reflexivity).
  assert (Hgc : forall r, Vector3.x (Player.position (Player.updateGroundCheck r))
                          = Vector3.x (Player.position r) /\
                          Vector3.z (Player.position (Player.updateGroundCheck r))
                          = Vector3.z (Player.position r)).
  { intros r. player_unfold. split_ifs; simpl; auto. }
  destruct (Hgc (Player.updatePhysics deltaTime p2)) as [Gx Gz].
  rewrite Gx, Gz. unfold Player.updatePhysics. simpl.
  rewrite Hpos, Hvel. rewrite Rltb_false by exact NR. simpl. auto.
Qed.

(** C3 fails on the code.  A grounded player standing at the eastern
    bound x = 4.5 and pushing the stick to the right for a frame of 0.1
    seconds is clamped to 4.5 by [updateMovement] and then moved once more by
    [updatePhysics]: after [update] it stands at x = 4.9, outside
    [-4.5, 4.5].  The same player knocked back along +x is moved to x = 5.0
    by a recovery frame, which clamps nothing. *)
Theorem update_leaves_stage_bounds :
  withinStage (Player.position playerAtEdge) /\
  withinStage (Player.position (Player.updateMovement 0.1 pushRight None playerAtEdge)) /\
  Vector3.x (Player.position (Player.update 0.1 pushRight None playerAtEdge)) = 4.9 /\
  ~ withinStage (Player.position (Player.update 0.1 pushRight None playerAtEdge)) /\
  Vector3.x (Player.position
               (Player.update 0.1 idleInput None
                  (Player.applyKnockback (Vector3.mk 1 0 0) 5 playerAtEdge))) = 5.0 /\
  ~ withinStage (Player.position
                   (Player.update 0.1 idleInput None
                      (Player.applyKnockback (Vector3.mk 1 0 0) 5 playerAtEdge))).
Proof.
  pose proof (getTerrainHeight_bound 4.5 0) as B.
  assert (Hdt : (0.1 : R) <> 0) by lra.
  assert (Hwalk : Vector3.x (Player.position
                    (Player.update 0.1 pushRight None playerAtEdge)) = 4.9).
  { destruct (update_integrates_twice 0.1 pushRight None playerAtEdge) as [Ux _];
      [reflexivity | |].
    - destruct (before_physics_height 0.1 pushRight None playerAtEdge) as [Qy Qv].
      cbv zeta in Qy, Qv. rewrite Qy. simpl.
      unfold Player.gravity.
      destruct Qv as [-> | ->]; [simpl | unfold Player.jumpSpeed]; lra.
    - rewrite Ux.
      destruct (updateMovement_position 0.1 pushRight None playerAtEdge) as [Px _].
      cbv zeta in Px. rewrite Px.
      destruct (updateMovement_pushRight 0.1 playerAtEdge Hdt) as [Vx _]; [reflexivity |].
      rewrite Vx. simpl.
      rewrite constrain_above by (unfold Player.margin; lra).
      unfold Player.margin. lra. }
  set (pk := Player.applyKnockback (Vector3.mk 1 0 0) 5 playerAtEdge).
  assert (Hv : Player.velocity pk = Vector3.mk 5 3 0) by apply applyKnockback_unit_x.
  assert (Hknock : Vector3.x (Player.position (Player.update 0.1 idleInput None pk)) = 5.0).
  { rewrite update_in_knockback by reflexivity.
    destruct (updateKnockback_position 0.1 pk) as [Ux _].
    - rewrite Hv. simpl. unfold Player.gravity. lra.
    - rewrite Ux, Hv. simpl. lra. }
  split; [unfold withinStage, Player.margin; simpl; lra |].
  split; [apply updateMovement_withinStage |].
  split; [exact Hwalk |].
  split; [unfold withinStage, Player.margin; rewrite Hwalk; lra |].
  split; [exact Hknock |].
  unfold withinStage, Player.margin. rewrite Hknock. lra.
Qed.

(** ** Player: the punch *)

(** What [updateMovement] leaves alone. *)
Lemma updateMovement_keeps (deltaTime : R) (i : InputState) (c : option Vec) (p : Player.t) :
  let p1 := Player.updateMovement deltaTime i c p in
  Player.isGrounded p1 = Player.isGrounded p /\
  Player.punchActive p1 = Player.punchActive p /\
  Player.punchTimer p1 = Player.punchTimer p /\
  Player.punchSphere p1 = Player.punchSphere p /\
  Vector3.y (Player.velocity p1) = Vector3.y (Player.velocity p) /\
  Vector3.y (Player.position p1) = Vector3.y (Player.position p).
Proof.
  cbv zeta. unfold Player.updateMovement. split_ifs; simpl; auto 10.
Qed.

(** The state in which [updatePunch] finds the player. *)
Lemma before_punch (deltaTime : R) (i : InputState) (c : option Vec) (p : Player.t) :
  let q := Player.updateJump i (Player.updateMovement deltaTime i c p) in
  Player.isGrounded q = Player.isGrounded p && negb (jumpPressed i) /\
  Player.punchActive q = Player.punchActive p /\
  Player.punchTimer q = Player.punchTimer p /\
  Player.punchSphere q = Player.punchSphere p /\
  Player.position q = Player.position (Player.updateMovement deltaTime i c p) /\
  Vector3.y (Player.velocity q)
    = (if jumpPressed i && Player.isGrounded p then Player.jumpSpeed
       else Vector3.y (Player.velocity p)).
Proof.
  cbv zeta.
  destruct (updateMovement_keeps deltaTime i c p) as (Mg & Ma & Mt & Ms & Mv & My).
  cbv zeta in *. unfold Player.updateJump. rewrite Mg.
  destruct (jumpPressed i), (Player.isGrounded p); simpl; auto 10.
Qed.

(** The punch fields after [updatePunch]. *)
Lemma updatePunch_fields (deltaTime : R) (i : InputState) (c : option Vec) (q : Player.t) :
  let q' := Player.updatePunch deltaTime i c q in
  Player.punchActive q' =
    (if Player.isGrounded q then false
     else negb (Rleb ((if Player.punchActive q then Player.punchTimer q
                       else Player.punchDuration) - deltaTime) 0)) /\
  (Player.isGrounded q = false ->
   Player.punchTimer q' = (if Player.punchActive q then Player.punchTimer q
                           else Player.punchDuration) - deltaTime) /\
  Player.isGrounded q' = Player.isGrounded q /\
  Player.position q' = Player.position q /\
  Player.velocity q' = Player.velocity q.
Proof.
  cbv zeta. unfold Player.updatePunch, Player.punchActivates, Player.placePunchSphere.
  destruct (Player.isGrounded q) eqn:Eg, (Player.punchActive q) eqn:Ea; simpl;
    rewrite ?Eg, ?Ea; simpl; rewrite ?orb_true_r, ?orb_false_r; simpl; rewrite ?Eg;
    repeat match goal with
           | |- context [Rleb ?a 0] => destruct (Rleb a 0); simpl; rewrite ?Eg
           end;
    repeat split; auto; discriminate.
Qed.

(** What the gravity step and the ground check leave alone. *)
Lemma after_punch_keeps (deltaTime : R) (q : Player.t) :
  let r := Player.updateGroundCheck (Player.updatePhysics deltaTime q) in
  Player.punchActive r = Player.punchActive q /\
  Player.punchTimer r = Player.punchTimer q /\
  Player.punchSphere r = Player.punchSphere q.
Proof. cbv zeta. player_unfold. split_ifs; simpl; auto. Qed.

(** A frame that ends with the player still rising stays airborne. *)
Lemma rising_stays_airborne (deltaTime : R) (q : Player.t) :
  Player.isGrounded q = false ->
  0 < Vector3.y (Player.velocity q) + Player.gravity * deltaTime ->
  -10 <= Vector3.y (Player.position q)
         + (Vector3.y (Player.velocity q) + Player.gravity * deltaTime) * deltaTime ->
  let r := Player.updateGroundCheck (Player.updatePhysics deltaTime q) in
  Player.isGrounded r = false /\
  Vector3.y (Player.velocity r) = Vector3.y (Player.velocity q) + Player.gravity * deltaTime /\
  Vector3.y (Player.position r)
    = Vector3.y (Player.position q)
      + (Vector3.y (Player.velocity q) + Player.gravity * deltaTime) * deltaTime /\
  Player.isKnockedBack r = Player.isKnockedBack q.
Proof.
  intros Hg Hv NR. cbv zeta.
  unfold Player.updatePhysics. simpl. rewrite Rltb_false by exact NR.
  unfold Player.updateGroundCheck. simpl. rewrite Hg.
  rewrite (Rleb_false (Vector3.y (Player.velocity q) + Player.gravity * deltaTime) 0)
    by exact Hv.
  rewrite andb_false_r. simpl. auto.
Qed.

Lemma before_physics_knockback (deltaTime : R) (i : InputState) (c : option Vec)
    (p : Player.t) :
  Player.isKnockedBack
    (Player.updatePunch deltaTime i c
       (Player.updateJump i (Player.updateMovement deltaTime i c p)))
  = Player.isKnockedBack p.
Proof.
  player_unfold. unfold Player.updateMovement. split_ifs; reflexivity.
Qed.

Lemma activatesPunch_eq (deltaTime : R) (i : InputState) (c : option Vec) (p : Player.t) :
  Player.isKnockedBack p = false ->
  Player.activatesPunch deltaTime i c p
  = negb (Player.isGrounded p && negb (jumpPressed i)) && negb (Player.punchActive p).
Proof.
  intros Hk. unfold Player.activatesPunch, Player.punchActivates. rewrite Hk.
  destruct (before_punch deltaTime i c p) as (Qg & Qa & _). cbv zeta in Qg, Qa.
  now rewrite Qg, Qa.
Qed.

(** A frame outside knockback at whose punch step the player is airborne
    and at whose end it is still rising. *)
Lemma rising_frame (deltaTime : R) (i : InputState) (c : option Vec) (p : Player.t) :
  let vy0 := if jumpPressed i && Player.isGrounded p then Player.jumpSpeed
             else Vector3.y (Player.velocity p) in
  let T := if Player.punchActive p then Player.punchTimer p else Player.punchDuration in
  Player.isKnockedBack p = false ->
  Player.isGrounded p && negb (jumpPressed i) = false ->
  0 < vy0 + Player.gravity * deltaTime ->
  -10 <= Vector3.y (Player.position p) + (vy0 + Player.gravity * deltaTime) * deltaTime ->
  let p' := Player.update deltaTime i c p in
  Player.isKnockedBack p' = false /\
  Player.isGrounded p' = false /\
  Vector3.y (Player.velocity p') = vy0 + Player.gravity * deltaTime /\
  Vector3.y (Player.position p')
    = Vector3.y (Player.position p) + (vy0 + Player.gravity * deltaTime) * deltaTime /\
  Player.punchActive p' = negb (Rleb (T - deltaTime) 0) /\
  Player.punchTimer p' = T - deltaTime /\
  Player.activatesPunch deltaTime i c p = negb (Player.punchActive p).
Proof.
  intros vy0 T Hk Hair Hv NR p'.
  assert (Hact : Player.activatesPunch deltaTime i c p = negb (Player.punchActive p)).
  { rewrite activatesPunch_eq by exact Hk. now rewrite Hair. }
  subst p'. unfold Player.update. rewrite Hk.
  set (q := Player.updateJump i (Player.updateMovement deltaTime i c p)).
  destruct (before_punch deltaTime i c p) as (Qg & Qa & Qt & _ & Qp & Qv).
  cbv zeta in Qg, Qa, Qt, Qp, Qv. fold q in Qg, Qa, Qt, Qp, Qv.
  destruct (updateMovement_keeps deltaTime i c p) as (_ & _ & _ & _ & _ & My).
  cbv zeta in My.
  destruct (updatePunch_fields deltaTime i c q) as (Ua & Ut & Ug & Up & Uv).
  cbv zeta in Ua, Ut, Ug, Up, Uv.
  set (q' := Player.updatePunch deltaTime i c q) in *.
  rewrite Qg, Hair in Ua, Ut, Ug. rewrite Qa, Qt in Ua, Ut.
  fold T in Ua, Ut. specialize (Ut eq_refl).
  assert (Hq'v : Vector3.y (Player.velocity q') = vy0) by (rewrite Uv; exact Qv).
  assert (Hq'y : Vector3.y (Player.position q') = Vector3.y (Player.position p))
    by (rewrite Up, Qp; exact My).
  destruct (rising_stays_airborne deltaTime q' Ug) as (Rg & Rv & Ry & Rk).
  { rewrite Hq'v. exact Hv. }
  { rewrite Hq'v, Hq'y. exact NR. }
  cbv zeta in Rg, Rv, Ry, Rk.
  destruct (after_punch_keeps deltaTime q') as (Ka & Kt & _). cbv zeta in Ka, Kt.
  rewrite Rk, Rg, Rv, Ry, Ka, Kt, Hq'v, Hq'y, Ua, Ut.
  unfold q', q. rewrite before_physics_knockback. auto 10.
Qed.

(** C2 (amended).  On every [update] outside knockback recovery the punch
    activates exactly when the player is airborne at the punch step (it was
    airborne already, or it is grounded and jump is pressed on this frame) and
    the punch is not active.  An activation sets the timer to the punch
    duration; the punch is active after the frame iff the player is airborne
    at the punch step and the timer, less the delta time, is still positive.
    So the punch activates on the frame that leaves the ground, and it
    activates again on any later airborne frame that finds it expired. *)
Theorem punch_activation_rule
    (deltaTime : R) (i : InputState) (c : option Vec) (p : Player.t) :
  Player.isKnockedBack p = false ->
  let airborne := negb (Player.isGrounded p && negb (jumpPressed i)) in
  let T := if Player.punchActive p then Player.punchTimer p else Player.punchDuration in
  let p' := Player.update deltaTime i c p in
  Player.activatesPunch deltaTime i c p = airborne && negb (Player.punchActive p) /\
  Player.punchActive p' = airborne && negb (Rleb (T - deltaTime) 0) /\
  (airborne = true -> Player.punchTimer p' = T - deltaTime) /\
  (Player.isGrounded p = true -> jumpPressed i = true -> Player.punchActive p = false ->
   Player.activatesPunch deltaTime i c p = true) /\
  (Player.isGrounded p = false -> Player.punchActive p = false ->
   Player.activatesPunch deltaTime i c p = true).
Proof.
  intros Hk airborne T p'.
  pose proof (activatesPunch_eq deltaTime i c p Hk) as Hact. fold airborne in Hact.
  split; [exact Hact |].
  subst p'. unfold Player.update. rewrite Hk.
  set (q := Player.updateJump i (Player.updateMovement deltaTime i c p)).
  destruct (before_punch deltaTime i c p) as (Qg & Qa & Qt & _).
  cbv zeta in Qg, Qa, Qt. fold q in Qg, Qa, Qt.
  destruct (updatePunch_fields deltaTime i c q) as (Ua & Ut & _).
  cbv zeta in Ua, Ut. rewrite Qa, Qt in Ua, Ut. fold T in Ua, Ut.
  destruct (after_punch_keeps deltaTime (Player.updatePunch deltaTime i c q))
    as (Ka & Kt & _).
  cbv zeta in Ka, Kt. rewrite Ka, Kt, Ua.
  split; [| split; [| split]].
  - unfold airborne. rewrite Qg.
    destruct (Player.isGrounded p && negb (jumpPressed i)); reflexivity.
  - intros Hair. apply Ut. rewrite Qg. unfold airborne in Hair.
    destruct (Player.isGrounded p && negb (jumpPressed i)); [discriminate | reflexivity].
  - intros Hg Hj Ha. rewrite Hact. unfold airborne. now rewrite Hg, Hj, Ha.
  - intros Hg Ha. rewrite Hact. unfold airborne. now rewrite Hg, Ha.
Qed.

(** An instance: the player at rest presses jump; the punch activates and
    is active after the frame with 0.15 seconds left. *)
Lemma punch_activation_rule_witness :
  Player.activatesPunch 0.1 jumpInput None playerAtRest = true /\
  Player.punchActive (Player.update 0.1 jumpInput None playerAtRest) = true /\
  Player.punchTimer (Player.update 0.1 jumpInput None playerAtRest)
    = Player.punchDuration - 0.1.
Proof.
  assert (Hk : Player.isKnockedBack playerAtRest = false) by reflexivity.
  destruct (punch_activation_rule 0.1 jumpInput None playerAtRest Hk)
    as (_ & Ha & Ht & Hj & _).
  split; [apply Hj; reflexivity |].
  split.
  - rewrite Ha. simpl. unfold Player.punchDuration. now rewrite Rleb_false by lra.
  - apply Ht. reflexivity.
Defined.

(** The four frames of the jump, one after the other. *)
Lemma jump_trace :
  let p1 := playerStep playerAtRest (0.1, jumpInput, None) in
  let p2 := playerStep p1 (0.1, idleInput, None) in
  let p3 := playerStep p2 (0.1, idleInput, None) in
  let p4 := playerStep p3 (0.1, idleInput, None) in
  (Player.isGrounded p1 = false /\ Player.punchActive p1 = true /\
   Player.activatesPunch 0.1 jumpInput None playerAtRest = true) /\
  (Player.isGrounded p2 = false /\ Player.punchActive p2 = true /\
   Player.activatesPunch 0.1 idleInput None p1 = false) /\
  (Player.isGrounded p3 = false /\ Player.punchActive p3 = false /\
   Player.activatesPunch 0.1 idleInput None p2 = false) /\
  (Player.isGrounded p4 = false /\ Player.punchActive p4 = true /\
   Player.activatesPunch 0.1 idleInput None p3 = true).
Proof.
  intros p1 p2 p3 p4.
  pose proof (getTerrainHeight_bound 0 0) as B.
  (* frame 1: the jump *)
  destruct (rising_frame 0.1 jumpInput None playerAtRest)
    as (K1 & G1 & V1 & Y1 & A1 & T1 & C1);
    try reflexivity;
    try (simpl; unfold Player.jumpSpeed, Player.gravity; lra).
  change (Player.update 0.1 jumpInput None playerAtRest) with p1 in K1, G1, V1, Y1, A1, T1.
  simpl in V1, Y1, A1, T1, C1.
  unfold Player.jumpSpeed, Player.gravity, Player.punchDuration in V1, Y1, A1, T1.
  rewrite Rleb_false in A1 by lra. simpl in A1.
  (* frame 2 *)
  destruct (rising_frame 0.1 idleInput None p1)
    as (K2 & G2 & V2 & Y2 & A2 & T2 & C2);
    [exact K1 | now rewrite G1 | | |];
    try (simpl; rewrite ?G1, ?V1, ?Y1; simpl; unfold Player.gravity; lra).
  change (Player.update 0.1 idleInput None p1) with p2 in K2, G2, V2, Y2, A2, T2.
  simpl in V2, Y2. rewrite V1 in V2, Y2. rewrite Y1 in Y2.
  rewrite A1 in A2, T2, C2. rewrite T1 in A2, T2. unfold Player.gravity in V2, Y2.
  rewrite Rleb_false in A2 by lra. simpl in A2, C2.
  (* frame 3: the punch expires *)
  destruct (rising_frame 0.1 idleInput None p2)
    as (K3 & G3 & V3 & Y3 & A3 & T3 & C3);
    [exact K2 | now rewrite G2 | | |];
    try (simpl; rewrite ?G2, ?V2, ?Y2; simpl; unfold Player.gravity; lra).
  change (Player.update 0.1 idleInput None p2) with p3 in K3, G3, V3, Y3, A3, T3.
  simpl in V3, Y3. rewrite V2 in V3, Y3. rewrite Y2 in Y3.
  rewrite A2 in A3, T3, C3. rewrite T2 in A3, T3. unfold Player.gravity in V3, Y3.
  rewrite Rleb_true in A3 by lra. simpl in A3, C3.
  (* frame 4: still in the air, the punch activates again *)
  destruct (rising_frame 0.1 idleInput None p3)
    as (K4 & G4 & V4 & Y4 & A4 & T4 & C4);
    [exact K3 | now rewrite G3 | | |];
    try (simpl; rewrite ?G3, ?V3, ?Y3; simpl; unfold Player.gravity; lra).
  change (Player.update 0.1 idleInput None p3) with p4 in K4, G4, V4, Y4, A4, T4.
  rewrite A3 in A4, C4. unfold Player.punchDuration in A4.
  rewrite Rleb_false in A4 by lra. simpl in A4, C4.
  auto 20.
Qed.

(** C2, as stated, fails.  The player at rest jumps and stays in the air
    for the four frames; the punch activates on the first frame, expires on
    the third and activates a second time on the fourth, within the same
    airborne excursion. *)
Lemma punch_activates_twice_in_one_jump :
  groundedTrace jumpFrames playerAtRest = [true; false; false; false; false] /\
  punchActivations jumpFrames playerAtRest = [true; false; false; true] /\
  count_occ bool_dec (punchActivations jumpFrames playerAtRest) true <> 1%nat.
Proof.
  destruct jump_trace as ((G1 & _ & C1) & (G2 & _ & C2) & (G3 & _ & C3) & (G4 & _ & C4)).
  assert (HA : punchActivations jumpFrames playerAtRest = [true; false; false; true]).
  { unfold jumpFrames. cbn [punchActivations fst snd].
    now rewrite C1, C2, C3, C4. }
  split; [| split; [exact HA |]].
  - unfold jumpFrames. cbn [groundedTrace].
    now rewrite G1, G2, G3, G4.
  - rewrite HA. simpl. discriminate.
Qed.

(** ** Player: the aim of the punch *)

Lemma updatePunch_sphere (deltaTime : R) (i : InputState) (c : option Vec) (q : Player.t) :
  Player.punchActive (Player.updatePunch deltaTime i c q) = true ->
  Player.punchSphere (Player.updatePunch deltaTime i c q)
  = mkSphere (Vector3.add (Player.position q)
                (Vector3.multiplyScalar (Player.punchDirection c) Player.punchOffset))
             Player.punchRadius.
Proof.
  unfold Player.updatePunch, Player.punchActivates, Player.placePunchSphere.
  destruct (Player.isGrounded q) eqn:Eg, (Player.punchActive q) eqn:Ea; simpl;
    rewrite ?Eg, ?Ea; simpl; rewrite ?orb_true_r, ?orb_false_r; simpl;
    try discriminate;
    repeat match goal with
           | |- context [Rleb ?a 0] => destruct (Rleb a 0); simpl
           end;
    try discriminate; reflexivity.
Qed.

(** The flattened, renormalised camera direction is the unit vector along
    the horizontal part of the camera direction. *)
Lemma punchDirection_horizontal (cam : Vec) :
  let h := sqrt (Vector3.x cam * Vector3.x cam + Vector3.z cam * Vector3.z cam) in
  h <> 0 ->
  Player.punchDirection (Some cam) = Vector3.mk (Vector3.x cam / h) 0 (Vector3.z cam / h).
Proof.
  intros h Hh. destruct cam as [a b c]. simpl in h.
  assert (Hh0 : 0 < h).
  { pose proof (sqrt_pos (a * a + c * c)). fold h in H. lra. }
  assert (Hsum : 0 < a * a + c * c).
  { destruct (Rle_lt_dec (a * a + c * c) 0) as [Hle | Hlt]; [| exact Hlt].
    exfalso. apply Hh. unfold h.
    replace (a * a + c * c) with 0 by nra. apply sqrt_0. }
  set (L := Vector3.length (Vector3.mk a b c)).
  assert (HL : 0 < L).
  { unfold L, Vector3.length. simpl. apply sqrt_lt_R0. nra. }
  unfold Player.punchDirection.
  rewrite (normalize_of (Vector3.mk a b c) L eq_refl) by lra.
  unfold Vector3.setY. simpl.
  assert (Hlen : Vector3.length (Vector3.mk (a * (1 / L)) 0 (c * (1 / L))) = h / L).
  { unfold Vector3.length. simpl.
    replace (a * (1 / L) * (a * (1 / L)) + 0 * 0 + c * (1 / L) * (c * (1 / L)))
      with ((a * a + c * c) * (/ L * / L)) by (field; lra).
    rewrite sqrt_mult; [| lra | nra].
    rewrite sqrt_square by (left; now apply Rinv_0_lt_compat).
    reflexivity. }
  rewrite (normalize_of _ (h / L) Hlen).
  - simpl. apply vec_eq; field; lra.
  - intros E. apply Hh.
    assert (h = h / L * L) by (field; lra). rewrite E in H. lra.
Qed.

(** The punch sphere after a frame that leaves the punch active. *)
Lemma update_punch_sphere (deltaTime : R) (i : InputState) (c : option Vec) (p : Player.t) :
  Player.isKnockedBack p = false ->
  Player.punchActive (Player.update deltaTime i c p) = true ->
  Player.getPunchSphere (Player.update deltaTime i c p)
  = Some (mkSphere
            (Vector3.add (Player.position (Player.updateMovement deltaTime i c p))
               (Vector3.multiplyScalar (Player.punchDirection c) Player.punchOffset))
            Player.punchRadius).
Proof.
  intros Hk Hact.
  unfold Player.getPunchSphere. rewrite Hact. f_equal.
  revert Hact. unfold Player.update. rewrite Hk.
  set (q := Player.updateJump i (Player.updateMovement deltaTime i c p)).
  destruct (after_punch_keeps deltaTime (Player.updatePunch deltaTime i c q))
    as (Ka & _ & Ks).
  cbv zeta in Ka, Ks. rewrite Ka, Ks. intros Hact.
  rewrite (updatePunch_sphere deltaTime i c q Hact).
  destruct (before_punch deltaTime i c p) as (_ & _ & _ & _ & Qp & _).
  cbv zeta in Qp. fold q in Qp. rewrite Qp. reflexivity.
Qed.

(** C10 (amended).  After every [update] outside knockback recovery that
    leaves the punch active, the punch sphere has radius 0.6 and its centre is
    the position the player had at the punch step of that frame (after the
    horizontal clamp of [updateMovement], before gravity and ground contact)
    plus 0.7 times the aim; the aim is (0, 0, -1) without a camera direction
    and the unit vector along the horizontal part of the camera direction
    otherwise, and depends on nothing else. *)
Theorem punch_sphere_follows_camera
    (deltaTime : R) (i : InputState) (c : option Vec) (p : Player.t) :
  Player.isKnockedBack p = false ->
  Player.punchActive (Player.update deltaTime i c p) = true ->
  Player.getPunchSphere (Player.update deltaTime i c p)
  = Some (mkSphere
            (Vector3.add (Player.position (Player.updateMovement deltaTime i c p))
               (Vector3.multiplyScalar (Player.punchDirection c) 0.7))
            0.6) /\
  Player.punchDirection None = Vector3.mk 0 0 (-1) /\
  (forall cam : Vec,
     let h := sqrt (Vector3.x cam * Vector3.x cam + Vector3.z cam * Vector3.z cam) in
     h <> 0 ->
     Player.punchDirection (Some cam) = Vector3.mk (Vector3.x cam / h) 0 (Vector3.z cam / h)).
Proof.
  intros Hk Hact.
  split; [| split; [reflexivity | exact punchDirection_horizontal]].
  exact (update_punch_sphere deltaTime i c p Hk Hact).
Qed.

Lemma jump_frame_punch_active (c : option Vec) :
  Player.punchActive (Player.update 0.1 jumpInput c playerAtRest) = true /\
  Vector3.y (Player.position (Player.update 0.1 jumpInput c playerAtRest))
    = getTerrainHeight 0 0 + 0.6 + (8.5 + -18 * 0.1) * 0.1.
Proof.
  pose proof (getTerrainHeight_bound 0 0) as B.
  destruct (rising_frame 0.1 jumpInput c playerAtRest)
    as (_ & _ & _ & Y1 & A1 & _);
    try reflexivity;
    try (simpl; unfold Player.jumpSpeed, Player.gravity; lra).
  simpl in Y1, A1. unfold Player.punchDuration in A1.
  rewrite Rleb_false in A1 by lra.
  split; [exact A1 | exact Y1].
Qed.

(** An instance: the jump of the player at rest under a camera that looks
    forward and down; the aim is (0, 0, -1). *)
Lemma punch_sphere_follows_camera_witness :
  Player.getPunchSphere (Player.update 0.1 jumpInput (Some cameraDown) playerAtRest)
  = Some (mkSphere
            (Vector3.add
               (Player.position
                  (Player.updateMovement 0.1 jumpInput (Some cameraDown) playerAtRest))
               (Vector3.multiplyScalar (Player.punchDirection (Some cameraDown)) 0.7))
            0.6) /\
  Player.punchDirection (Some cameraDown) = Vector3.mk (0 / 0.8) 0 (-0.8 / 0.8).
Proof.
  assert (Hk : Player.isKnockedBack playerAtRest = false) by reflexivity.
  destruct (jump_frame_punch_active (Some cameraDown)) as [Hact _].
  destruct (punch_sphere_follows_camera 0.1 jumpInput (Some cameraDown) playerAtRest
              Hk Hact) as (Hs & _ & Hd).
  split; [exact Hs |].
  assert (Hh : sqrt (Vector3.x cameraDown * Vector3.x cameraDown
                     + Vector3.z cameraDown * Vector3.z cameraDown) = 0.8).
  { simpl. apply sqrt_of_square; lra. }
  specialize (Hd cameraDown). cbv zeta in Hd. rewrite Hh in Hd.
  apply Hd. lra.
Defined.

(** C10, as stated, fails.  After the frame in which the player at rest
    jumps, the punch is active, but the centre of its sphere is not the
    player's position plus 0.7 along the aim: the sphere was placed before
    gravity moved the player up by 0.67. *)
Lemma punch_sphere_lags_behind_player :
  Player.punchActive playerAfterJump = true /\
  Player.getPunchSphere playerAfterJump = Some (Player.punchSphere playerAfterJump) /\
  center (Player.punchSphere playerAfterJump)
  <> Vector3.add (Player.position playerAfterJump)
       (Vector3.multiplyScalar (Vector3.mk 0 0 (-1)) Player.punchOffset).
Proof.
  set (p1 := playerAfterJump).
  destruct (jump_frame_punch_active None) as [Hact Hy].
  change (Player.update 0.1 jumpInput None playerAtRest) with p1 in Hact, Hy.
  split; [exact Hact |].
  split; [unfold Player.getPunchSphere; now rewrite Hact |].
  assert (Hc : Vector3.y (center (Player.punchSphere p1)) = getTerrainHeight 0 0 + 0.6 + 0 * 0.7).
  { unfold p1, playerAfterJump, Player.update. simpl Player.isKnockedBack. cbv iota.
    set (q := Player.updateJump jumpInput
                (Player.updateMovement 0.1 jumpInput None playerAtRest)).
    destruct (after_punch_keeps 0.1 (Player.updatePunch 0.1 jumpInput None q))
      as (Ka & _ & Ks).
    cbv zeta in Ka, Ks. rewrite Ks.
    assert (Hq : Player.punchActive (Player.updatePunch 0.1 jumpInput None q) = true).
    { rewrite <- Ka. exact Hact. }
    rewrite (updatePunch_sphere 0.1 jumpInput None q Hq).
    destruct (before_punch 0.1 jumpInput None playerAtRest) as (_ & _ & _ & _ & Qp & _).
    cbv zeta in Qp. fold q in Qp. rewrite Qp.
    destruct (updateMovement_keeps 0.1 jumpInput None playerAtRest)
      as (_ & _ & _ & _ & _ & My).
    cbv zeta in My. cbn [center]. unfold Vector3.add. cbn [Vector3.y]. rewrite My.
    simpl. unfold Player.punchOffset. reflexivity. }
  intros E. apply (f_equal Vector3.y) in E. rewrite Hc in E.
  simpl in E. rewrite Hy in E. unfold Player.punchOffset in E. lra.
Qed.

(** ** Meteors: lifecycle, cleanup and the collision passes *)

Lemma punchLoop_map (sphere : Sphere) (ms : list Meteor.t) :
  fst (CollisionSystem.punchLoop sphere ms) = map (punchOne (Some sphere)) ms.
Proof.
  induction ms as [| m ms IH]; simpl; [reflexivity |].
  destruct (CollisionSystem.punchLoop sphere ms) as [rest ev]. simpl in IH.
  destruct (Meteor.canBeDestroyed m); simpl; [| now rewrite IH].
  destruct (CollisionSystem.sphereIntersectsSphere _ _); simpl; now rewrite IH.
Qed.

Lemma checkPunchVsMeteors_map (player : Player.t) (ms : list Meteor.t) :
  fst (CollisionSystem.checkPunchVsMeteors player ms)
  = map (punchOne (Player.getPunchSphere player)) ms.
Proof.
  unfold CollisionSystem.checkPunchVsMeteors.
  destruct (Player.getPunchSphere player) as [sphere |].
  - apply punchLoop_map.
  - simpl. now rewrite map_id.
Qed.

Lemma update_meteors_eq (deltaTime : R) (s : MeteorSpawner.t) (g : Rng) :
  MeteorSpawner.meteors (fst (MeteorSpawner.update deltaTime s g))
  = MeteorSpawner.cleanupFilter
      (map (fun meteor => snd (Meteor.update deltaTime meteor))
           (MeteorSpawner.meteors (fst (MeteorSpawner.updateCadence deltaTime s g)))).
Proof.
  unfold MeteorSpawner.update.
  destruct (MeteorSpawner.updateCadence deltaTime s g) as [s1 g1]. reflexivity.
Qed.

(** [update] on a meteor in a terminal state changes nothing but the
    timer and asks for removal. *)
Lemma update_terminal (deltaTime : R) (m : Meteor.t) :
  isTerminal m = true ->
  Meteor.update deltaTime m = (false, Meteor.set_timer (Meteor.timer m + deltaTime) m).
Proof.
  unfold isTerminal, Meteor.update. simpl.
  destruct (Meteor.state m); intros H; try discriminate; reflexivity.
Qed.

Lemma update_keep_iff (deltaTime : R) (m : Meteor.t) :
  fst (Meteor.update deltaTime m) = negb (isTerminal m).
Proof.
  unfold isTerminal, Meteor.update. simpl. destruct (Meteor.state m); reflexivity.
Qed.

(** The cleanup keeps exactly the meteors that were not terminal when it
    ran. *)
Lemma cleanupFilter_spec (ms : list Meteor.t) :
  MeteorSpawner.cleanupFilter ms
  = map (fun m => snd (Meteor.update 0 m)) (filter (fun m => negb (isTerminal m)) ms).
Proof.
  induction ms as [| m ms IH]; [reflexivity |].
  cbn [MeteorSpawner.cleanupFilter filter].
  pose proof (update_keep_iff 0 m) as K.
  destruct (Meteor.update 0 m) as [keep m'] eqn:U. cbn [fst] in K. subst keep.
  destruct (isTerminal m); cbn [negb map]; rewrite ?U; cbn [snd]; now rewrite IH.
Qed.

Lemma cleanupRemoved_spec (ms : list Meteor.t) :
  MeteorSpawner.cleanupRemoved ms
  = map (fun m => snd (Meteor.update 0 m)) (filter isTerminal ms).
Proof.
  induction ms as [| m ms IH]; [reflexivity |].
  cbn [MeteorSpawner.cleanupRemoved filter].
  pose proof (update_keep_iff 0 m) as K.
  destruct (Meteor.update 0 m) as [keep m'] eqn:U. cbn [fst] in K. subst keep.
  destruct (isTerminal m); cbn [negb map]; rewrite ?U; cbn [snd]; now rewrite IH.
Qed.

Lemma add_scaled_zero (p v : Vec) : Vector3.add p (Vector3.multiplyScalar v 0) = p.
Proof.
  destruct p as [a b c], v as [d e f]. unfold Vector3.add, Vector3.multiplyScalar. simpl.
  apply vec_eq; ring.
Qed.

(** The lifecycle update of a falling meteor: it moves along its velocity
    and explodes iff its body then touches the terrain. *)
Lemma update_falling (deltaTime : R) (m : Meteor.t) :
  Meteor.state m = Falling ->
  let m1 := snd (Meteor.update deltaTime m) in
  fst (Meteor.update deltaTime m) = true /\
  Meteor.position m1
    = Vector3.add (Meteor.position m) (Vector3.multiplyScalar (Meteor.velocity m) deltaTime) /\
  ((Meteor.state m1 = Exploded /\ ~ aboveTerrain m1) \/
   (Meteor.state m1 = Falling /\ aboveTerrain m1)).
Proof.
  intros Hs. cbv zeta. unfold Meteor.update. simpl. rewrite Hs. simpl.
  split; [reflexivity |].
  unfold Meteor.updateFalling, aboveTerrain. simpl.
  match goal with
  | |- context [Rleb ?a ?b] => destruct (Rle_dec a b) as [Hle | Hgt];
      [rewrite (Rleb_true a b Hle) | rewrite (Rleb_false a b) by lra]
  end; simpl; split; try reflexivity.
  - left. split; [reflexivity | lra].
  - right. split; [exact Hs | lra].
Qed.

(** The cleanup's [update(0)] leaves a falling meteor that is clear of the
    terrain where it is, still falling. *)
Lemma update_zero_falling (m : Meteor.t) :
  Meteor.state m = Falling -> aboveTerrain m ->
  fst (Meteor.update 0 m) = true /\
  Meteor.state (snd (Meteor.update 0 m)) = Falling /\
  Meteor.position (snd (Meteor.update 0 m)) = Meteor.position m.
Proof.
  intros Hs Ha.
  destruct (update_falling 0 m Hs) as (Hk & Hp & Hc). cbv zeta in Hp, Hc.
  rewrite add_scaled_zero in Hp.
  split; [exact Hk |]. split; [| exact Hp].
  destruct Hc as [[_ Hn] | [Hf _]]; [| exact Hf].
  exfalso. apply Hn. unfold aboveTerrain. rewrite Hp. exact Ha.
Qed.

(** The lifecycle update of a telegraphing meteor leaves it in place. *)
Lemma update_telegraph (deltaTime : R) (m : Meteor.t) :
  Meteor.state m = Telegraph ->
  let m1 := snd (Meteor.update deltaTime m) in
  fst (Meteor.update deltaTime m) = true /\
  Meteor.position m1 = Meteor.position m /\
  (Meteor.state m1 = Telegraph \/ Meteor.state m1 = Falling).
Proof.
  intros Hs. cbv zeta. unfold Meteor.update. simpl. rewrite Hs. simpl.
  unfold Meteor.updateTelegraph. simpl.
  destruct (Rgeb _ _); simpl; auto.
Qed.

(** Whatever is active after a spawner update and its cleanup is neither
    destroyed nor exploded: a meteor that explodes in the lifecycle update is
    dropped by the cleanup of the same call. *)
Lemma kept_between_frames (deltaTime : R) (sphere : option Sphere) (m : Meteor.t) :
  meteorBetweenFrames m ->
  let m2 := snd (Meteor.update 0 (snd (Meteor.update deltaTime m))) in
  fst (Meteor.update 0 (snd (Meteor.update deltaTime m))) = true ->
  isTerminal m2 = false /\ aboveTerrain m2.
Proof.
  intros Hm. cbv zeta. intros Hkeep. unfold meteorBetweenFrames in Hm.
  destruct (Meteor.state m) eqn:Hs.
  - (* Telegraph *)
    destruct (update_telegraph deltaTime m Hs) as (_ & Hp & Hc). cbv zeta in Hp, Hc.
    set (m1 := snd (Meteor.update deltaTime m)) in *.
    assert (Ha1 : aboveTerrain m1) by (unfold aboveTerrain; rewrite Hp; exact Hm).
    destruct Hc as [Ht | Hf].
    + destruct (update_telegraph 0 m1 Ht) as (_ & Hp2 & Hc2). cbv zeta in Hp2, Hc2.
      split.
      * unfold isTerminal. destruct Hc2 as [-> | ->]; reflexivity.
      * unfold aboveTerrain. rewrite Hp2. exact Ha1.
    + destruct (update_zero_falling m1 Hf Ha1) as (_ & Hs2 & Hp2).
      split.
      * unfold isTerminal. now rewrite Hs2.
      * unfold aboveTerrain. rewrite Hp2. exact Ha1.
  - (* Falling *)
    destruct (update_falling deltaTime m Hs) as (_ & _ & Hc). cbv zeta in Hc.
    set (m1 := snd (Meteor.update deltaTime m)) in *.
    destruct Hc as [[He _] | [Hf Ha1]].
    + rewrite update_keep_iff in Hkeep. unfold isTerminal in Hkeep.
      rewrite He in Hkeep. discriminate.
    + destruct (update_zero_falling m1 Hf Ha1) as (_ & Hs2 & Hp2).
      split.
      * unfold isTerminal. now rewrite Hs2.
      * unfold aboveTerrain. rewrite Hp2. exact Ha1.
  - (* Destroyed *)
    rewrite update_keep_iff in Hkeep.
    rewrite (update_terminal deltaTime m) in Hkeep by (unfold isTerminal; now rewrite Hs).
    unfold isTerminal in Hkeep. simpl in Hkeep. rewrite Hs in Hkeep. discriminate.
  - contradiction.
Qed.

Lemma new_meteor_between_frames (target : Vec) (speed : R) :
  meteorBetweenFrames (Meteor.setFallSpeed speed (Meteor.new target)).
Proof.
  unfold meteorBetweenFrames, aboveTerrain. simpl.
  pose proof (getTerrainHeight_bound (Vector3.x target) (Vector3.z target)) as B.
  unfold Meteor.meteorRadius, Meteor.spawnHeight. lra.
Qed.

Lemma updateCadence_between_frames (deltaTime : R) (s : MeteorSpawner.t) (g : Rng) :
  Forall meteorBetweenFrames (MeteorSpawner.meteors s) ->
  Forall meteorBetweenFrames
         (MeteorSpawner.meteors (fst (MeteorSpawner.updateCadence deltaTime s g))).
Proof.
  intros H. unfold MeteorSpawner.updateCadence.
  set (s1 := MeteorSpawner.set_spawnTimer _ _).
  destruct (MeteorSpawner.getCurrentDifficultyPhase s1); [| exact H].
  destruct (Rgeb _ _); [| exact H].
  unfold MeteorSpawner.trySpawnMeteor.
  destruct (Nat.leb _ _); [exact H |].
  destruct (MeteorSpawner.generateValidTarget s1 g) as [target g1]. simpl.
  apply Forall_app. split; [exact H |].
  constructor; [apply new_meteor_between_frames | constructor].
Qed.

(** After [MeteorSpawner.update] no meteor of the active set is Exploded
    or Destroyed, on every spawner whose meteors are as a frame leaves
    them. *)
Lemma update_purges_terminal (deltaTime : R) (s : MeteorSpawner.t) (g : Rng) :
  Forall meteorBetweenFrames (MeteorSpawner.meteors s) ->
  Forall (fun m => isTerminal m = false /\ aboveTerrain m)
         (MeteorSpawner.meteors (fst (MeteorSpawner.update deltaTime s g))).
Proof.
  intros H. rewrite update_meteors_eq.
  pose proof (updateCadence_between_frames deltaTime s g H) as H1.
  set (ms := MeteorSpawner.meteors (fst (MeteorSpawner.updateCadence deltaTime s g))) in *.
  clearbody ms. clear H.
  induction H1 as [| m ms Hm Hms IH]; [constructor |].
  cbn [map MeteorSpawner.cleanupFilter].
  pose proof (kept_between_frames deltaTime None m Hm) as F. cbv zeta in F.
  destruct (Meteor.update 0 (snd (Meteor.update deltaTime m))) as [keep m2].
  destruct keep; [| exact IH].
  constructor; [apply F; reflexivity | exact IH].
Qed.

Lemma punchOne_between_frames (sphere : option Sphere) (m : Meteor.t) :
  meteorBetweenFrames m -> meteorBetweenFrames (punchOne sphere m).
Proof.
  intros H. unfold punchOne. destruct sphere as [s |]; [| exact H].
  destruct (_ && _); [| exact H].
  unfold meteorBetweenFrames. simpl. exact I.
Qed.

Lemma spawnerStep_between_frames (s : MeteorSpawner.t) (step : SpawnerStep) :
  Forall meteorBetweenFrames (MeteorSpawner.meteors s) ->
  Forall meteorBetweenFrames (MeteorSpawner.meteors (spawnerStep s step)).
Proof.
  intros H. destruct step; simpl.
  - eapply Forall_impl; [| apply update_purges_terminal; exact H].
    intros m [Ht Ha]. unfold meteorBetweenFrames. unfold isTerminal in Ht.
    destruct (Meteor.state m); try discriminate; exact Ha.
  - rewrite collision_meteors, checkPunchVsMeteors_map.
    apply Forall_map. eapply Forall_impl; [| exact H].
    intros m. apply punchOne_between_frames.
  - exact H.
  - apply Forall_map. eapply Forall_impl; [| exact H]. intros m Hm. exact Hm.
  - constructor.
Qed.

Lemma spawnerRun_between_frames (steps : list SpawnerStep) (s : MeteorSpawner.t) :
  Forall meteorBetweenFrames (MeteorSpawner.meteors s) ->
  Forall meteorBetweenFrames (MeteorSpawner.meteors (spawnerRun steps s)).
Proof.
  revert s. induction steps as [| step steps IH]; intros s H; simpl; [exact H |].
  apply IH. now apply spawnerStep_between_frames.
Qed.

(** *** Evaluating [Meteor.update] and [MeteorSpawner.update] *)

Lemma update_telegraph_waits (deltaTime : R) (m : Meteor.t) :
  Meteor.state m = Telegraph -> Meteor.timer m + deltaTime < Meteor.telegraphDuration ->
  Meteor.update deltaTime m = (true, Meteor.set_timer (Meteor.timer m + deltaTime) m).
Proof.
  intros Hs Ht. unfold Meteor.update. cbn [Meteor.state Meteor.set_timer]. rewrite Hs.
  unfold Meteor.updateTelegraph, Rgeb. cbn [Meteor.timer].
  now rewrite Rleb_false by exact Ht.
Qed.

Lemma update_telegraph_ends (deltaTime : R) (m : Meteor.t) :
  Meteor.state m = Telegraph -> Meteor.telegraphDuration <= Meteor.timer m + deltaTime ->
  Meteor.update deltaTime m
  = (true,
     Meteor.set_velocity
       (Vector3.multiplyScalar
          (Vector3.normalize (Vector3.sub (Meteor.targetPosition m) (Meteor.position m)))
          (Meteor.fallSpeed m))
       (Meteor.set_state Falling (Meteor.set_timer (Meteor.timer m + deltaTime) m))).
Proof.
  intros Hs Ht. unfold Meteor.update. cbn [Meteor.state Meteor.set_timer]. rewrite Hs.
  unfold Meteor.updateTelegraph, Rgeb. cbn [Meteor.timer].
  now rewrite Rleb_true by exact Ht.
Qed.

Lemma update_falling_continues (deltaTime : R) (m : Meteor.t) :
  Meteor.state m = Falling ->
  aboveTerrain (Meteor.set_position
                  (Vector3.add (Meteor.position m)
                     (Vector3.multiplyScalar (Meteor.velocity m) deltaTime)) m) ->
  Meteor.update deltaTime m
  = (true,
     Meteor.set_position
       (Vector3.add (Meteor.position m) (Vector3.multiplyScalar (Meteor.velocity m) deltaTime))
       (Meteor.set_timer (Meteor.timer m + deltaTime) m)).
Proof.
  intros Hs Ha. unfold Meteor.update. cbn [Meteor.state Meteor.set_timer]. rewrite Hs.
  unfold Meteor.updateFalling, aboveTerrain in *.
  cbn [Meteor.position Meteor.velocity Meteor.set_position] in *.
  now rewrite Rleb_false by exact Ha.
Qed.

Lemma meteor_eq (p v t p' v' t' : Vec) (s : MeteorState) (tm f tm' f' : R) :
  p = p' -> v = v' -> t = t' -> tm = tm' -> f = f' ->
  Meteor.mk p v t s tm f = Meteor.mk p' v' t' s tm' f'.
Proof. intros -> -> -> -> ->. reflexivity. Qed.

Lemma spawner_eq (ms ms' : list Meteor.t) (st gt st' gt' : R) (rt rt' : list Vec)
    (ph : list DifficultyPhase) (fm sp fm' sp' : R) :
  ms = ms' -> st = st' -> gt = gt' -> rt = rt' -> fm = fm' -> sp = sp' ->
  MeteorSpawner.mk ms st gt rt ph fm sp = MeteorSpawner.mk ms' st' gt' rt' ph fm' sp'.
Proof. intros -> -> -> -> -> ->. reflexivity. Qed.

Lemma cons_eq {A : Type} (a a' : A) (l l' : list A) : a = a' -> l = l' -> a :: l = a' :: l'.
Proof. intros -> ->. reflexivity. Qed.

(** Equality of records whose numbers are equal as reals. *)
Ltac rec_eq :=
  lazymatch goal with
  | |- Vector3.mk _ _ _ = Vector3.mk _ _ _ => apply vec_eq; lra
  | |- Meteor.mk _ _ _ _ _ _ = Meteor.mk _ _ _ _ _ _ => apply meteor_eq; rec_eq
  | |- MeteorSpawner.mk _ _ _ _ _ _ _ = MeteorSpawner.mk _ _ _ _ _ _ _ =>
      apply spawner_eq; rec_eq
  | |- _ :: _ = _ :: _ => apply cons_eq; rec_eq
  | |- @eq R _ _ => lra
  | |- _ => reflexivity
  end.

Ltac terrain_bounds :=
  repeat match goal with
  | |- context [getTerrainHeight ?a ?b] =>
      lazymatch goal with
      | H : _ <= getTerrainHeight a b <= _ |- _ => fail
      | _ => pose proof (getTerrainHeight_bound a b)
      end
  end.

Ltac pairs :=
  repeat match goal with
  | |- context [fst (?a, ?b)] => change (fst (a, b)) with a
  | |- context [snd (?a, ?b)] => change (snd (a, b)) with b
  end.

Ltac spawner_fields :=
  cbv beta iota zeta delta
    [MeteorSpawner.cleanupMeteors MeteorSpawner.updateMeteors
     MeteorSpawner.set_meteors MeteorSpawner.set_spawnTimer MeteorSpawner.set_gameTime
     MeteorSpawner.set_recentTargets MeteorSpawner.new spawnerAfter
     MeteorSpawner.meteors MeteorSpawner.spawnTimer MeteorSpawner.gameTime
     MeteorSpawner.recentTargets MeteorSpawner.difficultyPhases
     MeteorSpawner.debugFrequencyMultiplier MeteorSpawner.debugMeteorSpeed];
  pairs.

Ltac spawner_norm :=
  spawner_fields; cbv beta iota zeta delta [map MeteorSpawner.cleanupFilter]; pairs.

Ltac meteor_fields :=
  cbv beta iota zeta delta
    [Meteor.set_timer Meteor.set_state Meteor.set_position Meteor.set_velocity
     Meteor.setFallSpeed Meteor.new Meteor.spawnHeight Vector3.setY Vector3.zero
     Vector3.add Vector3.sub Vector3.multiplyScalar
     Meteor.position Meteor.velocity Meteor.targetPosition Meteor.state Meteor.timer
     Meteor.fallSpeed Vector3.x Vector3.y Vector3.z app length Nat.ltb Nat.leb
     MeteorSpawner.maxRecentTargets tl].

Ltac cadence :=
  unfold MeteorSpawner.update, MeteorSpawner.updateCadence,
    MeteorSpawner.getCurrentDifficultyPhase, Rgeb;
  simpl; rcmp; simpl; rcmp; simpl.

Ltac clear_of_terrain :=
  unfold aboveTerrain; meteor_fields; terrain_bounds; unfold Meteor.meteorRadius; lra.

Lemma straight_down :
  Vector3.normalize (Vector3.sub (Vector3.mk 0 0 0) (Vector3.mk 0 12 0)) = Vector3.mk 0 (-1) 0.
Proof.
  rewrite (normalize_of _ 12); [| apply length_of; simpl; lra | lra].
  apply vec_eq; simpl; lra.
Qed.

(** The history that leads to [spawnerBeforeImpact], frame by frame. *)
Lemma history_quiet_1 :
  fst (MeteorSpawner.update 0.6 MeteorSpawner.new coinHalf) = spawnerAfter [] 0.6 0.6 [] 1.0.
Proof. cadence. spawner_norm. rec_eq. Qed.

Lemma history_quiet_2 :
  fst (MeteorSpawner.update 0.525 (spawnerAfter [] 0.6 0.6 [] 1.0) coinHalf)
  = spawnerAfter [] 1.125 1.125 [] 1.0.
Proof. cadence. spawner_norm. rec_eq. Qed.

Lemma history_spawn :
  fst (MeteorSpawner.update 0.075 (spawnerAfter [] 1.125 1.125 [] 1.0) coinHalf)
  = spawnerAfter [meteorTelegraphing] 0 1.2 [Vector3.mk 0 0 0] 1.0.
Proof.
  cadence. unfold MeteorSpawner.addRecentTarget. spawner_norm.
  rewrite (update_telegraph_waits 0.075) by
    (try reflexivity; simpl; unfold Meteor.telegraphDuration; lra).
  pairs.
  rewrite (update_telegraph_waits 0) by
    (try reflexivity; simpl; unfold Meteor.telegraphDuration; lra).
  unfold meteorTelegraphing, coinHalf, MeteorSpawner.stageSize, MeteorSpawner.stageMargin.
  meteor_fields. rec_eq.
Qed.

Lemma history_falls :
  fst (MeteorSpawner.update 0.925
         (spawnerAfter [meteorTelegraphing] 0 1.2 [Vector3.mk 0 0 0] 2) coinHalf)
  = spawnerAfter [meteorStartsFalling] 0.925 2.125 [Vector3.mk 0 0 0] 2.
Proof.
  cadence. spawner_norm.
  rewrite (update_telegraph_ends 0.925) by
    (try reflexivity; simpl; unfold Meteor.telegraphDuration; lra).
  pairs.
  change (Meteor.targetPosition meteorTelegraphing) with (Vector3.mk 0 0 0).
  change (Meteor.position meteorTelegraphing) with (Vector3.mk 0 12 0).
  rewrite straight_down.
  rewrite (update_falling_continues 0)
    by (try reflexivity; unfold meteorTelegraphing; clear_of_terrain).
  unfold meteorStartsFalling, meteorTelegraphing. meteor_fields. rec_eq.
Qed.

Lemma history_descends :
  fst (MeteorSpawner.update 0.875
         (spawnerAfter [meteorStartsFalling] 0.925 2.125 [Vector3.mk 0 0 0] 2) coinHalf)
  = spawnerBeforeImpact.
Proof.
  cadence. spawner_norm.
  rewrite (update_falling_continues 0.875)
    by (try reflexivity; unfold meteorStartsFalling; clear_of_terrain).
  pairs.
  rewrite (update_falling_continues 0)
    by (try reflexivity; unfold meteorStartsFalling; clear_of_terrain).
  unfold spawnerBeforeImpact, meteorAboutToLand, meteorStartsFalling. spawner_norm.
  meteor_fields. rec_eq.
Qed.

(** [spawnerBeforeImpact] is a state of a real session. *)
Lemma spawnerBeforeImpact_reachable :
  spawnerRun historyBeforeImpact MeteorSpawner.new = spawnerBeforeImpact.
Proof.
  unfold historyBeforeImpact, spawnerRun. cbn [fold_left spawnerStep].
  rewrite history_quiet_1, history_quiet_2, history_spawn.
  change (MeteorSpawner.setFrequencyMultiplier 2
            (spawnerAfter [meteorTelegraphing] 0 1.2 [Vector3.mk 0 0 0] 1.0))
    with (spawnerAfter [meteorTelegraphing] 0 1.2 [Vector3.mk 0 0 0] 2).
  rewrite history_falls. apply history_descends.
Qed.

(** The frame of [spawnerBeforeImpact], for a delta time between 0.075
    and 0.15 seconds: the cadence does not fire, the one meteor reaches the
    terrain and explodes, and the cleanup drops it. *)
Lemma meteorAboutToLand_moved (deltaTime : R) :
  Meteor.position (snd (Meteor.update deltaTime meteorAboutToLand))
  = Vector3.mk (0 + 0 * deltaTime) (1.5 + -12 * deltaTime) (0 + 0 * deltaTime).
Proof.
  destruct (update_falling deltaTime meteorAboutToLand eq_refl) as (_ & Hp & _).
  cbv zeta in Hp. rewrite Hp. reflexivity.
Qed.

Lemma meteorAboutToLand_lands (deltaTime : R) :
  0.075 <= deltaTime ->
  ~ aboveTerrain (snd (Meteor.update deltaTime meteorAboutToLand)).
Proof.
  intros Hdt. unfold aboveTerrain. rewrite meteorAboutToLand_moved.
  cbn [Vector3.x Vector3.y Vector3.z].
  replace (0 + 0 * deltaTime) with 0 by lra.
  pose proof getTerrainHeight_origin as B.
  unfold Meteor.meteorRadius. lra.
Qed.

Lemma meteorAboutToLand_explodes (deltaTime : R) :
  0.075 <= deltaTime ->
  Meteor.state (snd (Meteor.update deltaTime meteorAboutToLand)) = Exploded.
Proof.
  intros Hdt.
  destruct (update_falling deltaTime meteorAboutToLand eq_refl) as (_ & _ & Hc).
  cbv zeta in Hc.
  destruct Hc as [[He _] | [_ Ha]]; [exact He |].
  exfalso. exact (meteorAboutToLand_lands deltaTime Hdt Ha).
Qed.

Lemma spawnerBeforeImpact_cadence (deltaTime : R) (g : Rng) :
  0 <= deltaTime <= 0.15 ->
  MeteorSpawner.updateCadence deltaTime spawnerBeforeImpact g
  = (MeteorSpawner.set_spawnTimer (1.8 + deltaTime)
       (MeteorSpawner.set_gameTime (3 + deltaTime) spawnerBeforeImpact), g).
Proof.
  intros Hdt.
  unfold MeteorSpawner.updateCadence, MeteorSpawner.getCurrentDifficultyPhase, Rgeb.
  simpl. rcmp. simpl. rcmp. reflexivity.
Qed.

Lemma spawnerBeforeImpact_update (deltaTime : R) (g : Rng) :
  0.075 <= deltaTime <= 0.15 ->
  MeteorSpawner.getMeteors (fst (MeteorSpawner.update deltaTime spawnerBeforeImpact g)) = [] /\
  MeteorSpawner.cleanupRemoved
    (map (fun meteor => snd (Meteor.update deltaTime meteor))
         (MeteorSpawner.meteors spawnerBeforeImpact))
  = [snd (Meteor.update 0 (snd (Meteor.update deltaTime meteorAboutToLand)))].
Proof.
  intros Hdt.
  assert (He : Meteor.state (snd (Meteor.update deltaTime meteorAboutToLand)) = Exploded)
    by (apply meteorAboutToLand_explodes; lra).
  assert (Ht : isTerminal (snd (Meteor.update deltaTime meteorAboutToLand)) = true)
    by (unfold isTerminal; now rewrite He).
  split.
  - unfold MeteorSpawner.getMeteors. rewrite update_meteors_eq.
    rewrite spawnerBeforeImpact_cadence by lra. cbn [fst].
    rewrite cleanupFilter_spec.
    change (MeteorSpawner.meteors
              (MeteorSpawner.set_spawnTimer (1.8 + deltaTime)
                 (MeteorSpawner.set_gameTime (3 + deltaTime) spawnerBeforeImpact)))
      with [meteorAboutToLand].
    cbn [map filter]. rewrite Ht. reflexivity.
  - rewrite cleanupRemoved_spec.
    change (MeteorSpawner.meteors spawnerBeforeImpact) with [meteorAboutToLand].
    cbn [map filter]. rewrite Ht. reflexivity.
Qed.

(** The explosion pass does act on an exploded meteor that it is given:
    the creature at the target dies. *)
Lemma explosion_pass_kills (m : Meteor.t) (p : Player.t) :
  Meteor.state m = Exploded ->
  Meteor.targetPosition m = Vector3.mk 0 0 0 ->
  Player.punchActive p = false ->
  countAlive (CollisionSystem.creatures (CollisionSystem.update p [creatureAtTarget] [m]))
  = 0%nat.
Proof.
  intros Hs Ht Hp.
  assert (Hhit : CollisionSystem.sphereIntersectsSphere
                   (Meteor.getExplosionSphere m)
                   (Creature.getBoundingSphere creatureAtTarget) = true).
  { unfold CollisionSystem.sphereIntersectsSphere, Meteor.getExplosionSphere. simpl.
    rewrite Ht. unfold Vector3.distanceTo.
    rewrite (length_of _ 0.175); [| lra | simpl; lra].
    apply Rleb_true. unfold Meteor.explosionRadius, Creature.radius. lra. }
  unfold CollisionSystem.update, CollisionSystem.checkPunchVsMeteors, Player.getPunchSphere.
  rewrite Hp.
  cbn [CollisionSystem.checkMeteorExplosions]. unfold Meteor.isExploded. rewrite Hs.
  cbn [MeteorState_eqb negb CollisionSystem.hitCreatures].
  change (Creature.isCreatureAlive creatureAtTarget) with true. cbn [negb].
  rewrite Hhit.
  destruct (CollisionSystem.hitPlayer m (Meteor.getExplosionSphere m)
              (Meteor.targetPosition m) 8 false p) as [p1 ev2].
  cbn [CollisionSystem.checkDirectMeteorHits]. rewrite Hs.
  cbn [MeteorState_eqb negb]. reflexivity.
Qed.

Lemma update_targetPosition (deltaTime : R) (m : Meteor.t) :
  Meteor.targetPosition (snd (Meteor.update deltaTime m)) = Meteor.targetPosition m.
Proof.
  unfold Meteor.update. simpl.
  destruct (Meteor.state m); simpl; try reflexivity.
  - unfold Meteor.updateTelegraph. destruct (Rgeb _ _); reflexivity.
  - unfold Meteor.updateFalling. destruct (Rleb _ _); reflexivity.
Qed.


Lemma handleEvents_spawner (events : list CollisionEvent) (d : Game.Data) :
  Game.meteorSpawner
    (fold_left (fun acc event => Game.handleCollisionEvent event acc) events d)
  = Game.meteorSpawner d.
Proof.
  revert d. induction events as [| e events IH]; intros d; simpl; [reflexivity |].
  rewrite IH. destruct e; reflexivity.
Qed.





(** ** The spawner of the game along a history of the game *)

Lemma spawnerRun_app (a b : list SpawnerStep) (s : MeteorSpawner.t) :
  spawnerRun (a ++ b) s = spawnerRun b (spawnerRun a s).
Proof. unfold spawnerRun. apply fold_left_app. Qed.

Lemma spawnerFollows_refl (m : Game.t) :
  stateHandlers m = Game.handlers -> spawnerFollows m m.
Proof. intros H. split; [exact H |]. now exists []. Qed.

Lemma spawnerFollows_trans (m1 m2 m3 : Game.t) :
  spawnerFollows m1 m2 -> spawnerFollows m2 m3 -> spawnerFollows m1 m3.
Proof.
  intros [_ [s12 H12]] [H3 [s23 H23]]. split; [exact H3 |].
  exists (s12 ++ s23). now rewrite spawnerRun_app, <- H12.
Qed.

Lemma startGame_spawner (d : Game.Data) :
  Game.meteorSpawner (Game.startGame d) = MeteorSpawner.reset (Game.meteorSpawner d).
Proof.
  unfold Game.startGame. destruct (Creature.createAll _ _) as [cs g1]. reflexivity.
Qed.

(** A frame of the entities acts on the spawner as its own update followed
    by the collision pass. *)
Lemma updateGameEntities_spawner (f : Game.Frame) (d : Game.Data) :
  exists steps : list SpawnerStep,
    Game.meteorSpawner (Game.updateGameEntities f d)
    = spawnerRun steps (Game.meteorSpawner d).
Proof.
  unfold Game.updateGameEntities.
  destruct (Creature.updateAll _ _ _ _) as [cs1 g1].
  destruct (MeteorSpawner.update (Game.deltaTime f) (Game.meteorSpawner d) g1)
    as [sp1 g2] eqn:E.
  exists [SpawnerUpdate (Game.deltaTime f) g1;
          SpawnerCollision
            (Player.update (Game.deltaTime f) (Game.inputState f)
                           (Some (Game.cameraDirection f)) (Game.player d)) cs1].
  rewrite handleEvents_spawner. unfold spawnerRun. simpl. rewrite E. reflexivity.
Qed.

Lemma setWorld_follows (m : Game.t) (d : Game.Data) :
  stateHandlers m = Game.handlers ->
  (exists steps : list SpawnerStep,
     Game.meteorSpawner d = spawnerRun steps (Game.meteorSpawner (world m))) ->
  spawnerFollows m (setWorld d m).
Proof. intros H Hs. split; [exact H | exact Hs]. Qed.

Lemma transitionTo_follows (target : GameState) (m : Game.t) :
  stateHandlers m = Game.handlers -> spawnerFollows m (transitionTo target m).
Proof.
  intros H. destruct m as [cur hs w cs wn]. simpl in H. subst hs.
  unfold transitionTo, canTransitionTo, handlerOnExit, handlerOnEnter.
  destruct cur, target; simpl; (split; [reflexivity |]);
    try (now exists []);
    exists [SpawnerReset]; unfold spawnerRun; simpl; rewrite ?startGame_spawner;
    reflexivity.
Qed.

Lemma checkGameConditions_follows (m : Game.t) :
  stateHandlers m = Game.handlers -> spawnerFollows m (Game.checkGameConditions m).
Proof.
  intros H. unfold Game.checkGameConditions.
  destruct (Nat.leb _ 0); [now apply transitionTo_follows |].
  destruct (Rleb _ 0); [now apply transitionTo_follows | now apply spawnerFollows_refl].
Qed.

Lemma updateGame_follows (f : Game.Frame) (m : Game.t) :
  stateHandlers m = Game.handlers -> spawnerFollows m (Game.updateGame f m).
Proof.
  intros H. unfold Game.updateGame.
  eapply spawnerFollows_trans; [| apply checkGameConditions_follows; exact H].
  apply setWorld_follows; [exact H |].
  apply (updateGameEntities_spawner f
           (Game.set_gameTimer (Game.gameTimer (world m) - Game.deltaTime f) (world m))).
Qed.

Lemma update_follows (f : Game.Frame) (m : Game.t) :
  stateHandlers m = Game.handlers -> spawnerFollows m (Game.update f m).
Proof.
  intros H. unfold Game.update.
  assert (H1 : spawnerFollows m (Game.stateMachineUpdate f m)).
  { unfold Game.stateMachineUpdate. destruct (currentState m).
    - now apply spawnerFollows_refl.
    - destruct (_ || _); [now apply transitionTo_follows | now apply spawnerFollows_refl].
    - now apply updateGame_follows.
    - destruct (jumpPressed _); [now apply transitionTo_follows |].
      destruct (punchPressed _); [now apply transitionTo_follows |].
      now apply spawnerFollows_refl. }
  destruct (Game.isGameRunning _); [| exact H1].
  eapply spawnerFollows_trans; [exact H1 |].
  apply setWorld_follows; [exact (proj1 H1) |].
  apply updateGameEntities_spawner.
Qed.

Lemma gameStep_follows (m : Game.t) (step : GameStep) :
  stateHandlers m = Game.handlers -> spawnerFollows m (gameStep m step).
Proof.
  intros H. destruct step; simpl.
  - now apply update_follows.
  - now apply transitionTo_follows.
  - apply setWorld_follows; [exact H | now exists []].
  - apply setWorld_follows; [exact H | now exists [SpawnerSetSpeed speed]].
  - apply setWorld_follows; [exact H | now exists [SpawnerSetFrequency freq]].
Qed.

Lemma gameRun_follows (steps : list GameStep) (m : Game.t) :
  stateHandlers m = Game.handlers -> spawnerFollows m (gameRun steps m).
Proof.
  revert m. induction steps as [| step steps IH]; intros m H; simpl.
  - now apply spawnerFollows_refl.
  - pose proof (gameStep_follows m step H) as H1.
    eapply spawnerFollows_trans; [exact H1 |]. apply IH. exact (proj1 H1).
Qed.

(** The spawner of the game, after any history of the game, is the
    constructed spawner after some spawner history. *)
Lemma gameRun_spawner_history (g : Rng) (steps : list GameStep) :
  exists history : list SpawnerStep,
    Game.meteorSpawner (world (gameRun steps (Game.init g)))
    = spawnerRun history MeteorSpawner.new.
Proof.
  assert (Hh : stateHandlers (Game.init g) = Game.handlers /\
               Game.meteorSpawner (world (Game.init g)) = MeteorSpawner.new).
  { unfold Game.init. destruct (Creature.createAll _ _) as [cs g1]. split; reflexivity. }
  destruct Hh as [Hh Hs].
  destruct (gameRun_follows steps (Game.init g) Hh) as [_ [history E]].
  exists history. now rewrite E, Hs.
Qed.

(** ** The claims about the spawner, along histories *)

(** C5.  Along every history of a spawner (its updates with any delta
    times, the collision passes, the tuning setters, resets), started with any
    difficulty phases and any frequency multiplier, the number of active
    hazards never exceeds the cap of 8; so it is for the spawner of the game
    after any sequence of frames, timer events and slider changes.  When the
    cadence fires on a spawner whose count is at the cap, no hazard is added
    (the list handed to the lifecycle update is the old one and no random
    number is drawn) and the accumulator is reset to zero. *)
Theorem spawner_respects_cap
    (phases : list DifficultyPhase) (multiplier speed : R) (steps : list SpawnerStep)
    (g0 : Rng) (frames : list GameStep) :
  (length (MeteorSpawner.meteors (spawnerRun steps (spawnerWith phases multiplier speed)))
   <= 8)%nat /\
  (length (MeteorSpawner.meteors
             (Game.meteorSpawner (world (gameRun frames (Game.init g0)))))
   <= 8)%nat /\
  (forall (s : MeteorSpawner.t) (deltaTime : R) (g : Rng),
     cadenceFires deltaTime s = true ->
     length (MeteorSpawner.meteors s) = 8%nat ->
     MeteorSpawner.meteors (fst (MeteorSpawner.updateCadence deltaTime s g))
       = MeteorSpawner.meteors s /\
     snd (MeteorSpawner.update deltaTime s g) = g /\
     MeteorSpawner.spawnTimer (fst (MeteorSpawner.update deltaTime s g)) = 0 /\
     MeteorSpawner.meteors (fst (MeteorSpawner.update deltaTime s g))
       = MeteorSpawner.cleanupFilter
           (map (fun meteor => snd (Meteor.update deltaTime meteor))
                (MeteorSpawner.meteors s))).
Proof.
  split; [| split].
  - apply spawnerRun_cap. simpl. unfold MeteorSpawner.maxSimultaneousMeteors. lia.
  - destruct (gameRun_spawner_history g0 frames) as [history E]. rewrite E.
    apply spawnerRun_cap. simpl. unfold MeteorSpawner.maxSimultaneousMeteors. lia.
  - intros s deltaTime g Hfire Hcap.
    assert (Hge : (MeteorSpawner.maxSimultaneousMeteors
                   <= length (MeteorSpawner.meteors s))%nat).
    { rewrite Hcap. unfold MeteorSpawner.maxSimultaneousMeteors. lia. }
    unfold MeteorSpawner.update.
    rewrite (updateCadence_at_cap deltaTime s g Hfire Hge). simpl.
    repeat split; reflexivity.
Qed.

(** *** A spawner that really is at the cap *)

Lemma waiting_meteors_kept (deltaTime : R) (ms : list Meteor.t) :
  Forall (fun m => Meteor.state m = Telegraph /\
                   Meteor.timer m + deltaTime < Meteor.telegraphDuration) ms ->
  MeteorSpawner.cleanupFilter (map (fun meteor => snd (Meteor.update deltaTime meteor)) ms)
  = map (fun m => Meteor.set_timer (Meteor.timer m + deltaTime + 0) m) ms.
Proof.
  intros H. induction H as [| m ms [Hs Ht] Hms IH]; [reflexivity |].
  cbn [map MeteorSpawner.cleanupFilter].
  rewrite (update_telegraph_waits deltaTime m Hs Ht). cbn [snd].
  rewrite (update_telegraph_waits 0) by (simpl; first [exact Hs | lra]).
  rewrite IH. reflexivity.
Qed.

Lemma rapidFire_step (k : nat) (T : R) (s : MeteorSpawner.t) (g : Rng) :
  rapidFire k T s -> (k < 8)%nat -> 0 <= T -> T + 0.1 < 1 ->
  rapidFire (S k) (T + 0.1) (fst (MeteorSpawner.update 0.1 s g)).
Proof.
  intros (Hm & Hp & Hst & Hgt & Hlen & Hall) Hk HT0 HT1.
  destruct s as [ms st gt rt ph fm sp]. simpl in Hm, Hp, Hst, Hgt, Hlen, Hall. subst.
  unfold MeteorSpawner.update, MeteorSpawner.updateCadence,
    MeteorSpawner.getCurrentDifficultyPhase, Rgeb.
  simpl. rcmp. simpl. rcmp.
  unfold MeteorSpawner.trySpawnMeteor, MeteorSpawner.maxSimultaneousMeteors.
  cbn [MeteorSpawner.meteors MeteorSpawner.set_spawnTimer MeteorSpawner.set_gameTime].
  destruct (Nat.leb 8 (length ms)) eqn:E; [apply Nat.leb_le in E; lia |].
  destruct (MeteorSpawner.generateValidTarget _ g) as [target g1].
  unfold MeteorSpawner.addRecentTarget. spawner_fields.
  rewrite waiting_meteors_kept.
  - unfold rapidFire. cbn [MeteorSpawner.meteors MeteorSpawner.spawnTimer
                           MeteorSpawner.gameTime MeteorSpawner.difficultyPhases
                           MeteorSpawner.debugFrequencyMultiplier].
    repeat split; try reflexivity.
    + rewrite length_map, length_app. simpl. lia.
    + apply Forall_map, Forall_app. split.
      * eapply Forall_impl; [| exact Hall]. intros m [Hs Ht]. simpl. split; [exact Hs | lra].
      * constructor; [split; [reflexivity | simpl; lra] | constructor].
  - apply Forall_app. split.
    + eapply Forall_impl; [| exact Hall]. intros m [Hs Ht].
      unfold Meteor.telegraphDuration. split; [exact Hs | lra].
    + constructor; [| constructor].
      split; [reflexivity | simpl; unfold Meteor.telegraphDuration; lra].
Qed.

Lemma rapidFire_fires (k : nat) (T : R) (s : MeteorSpawner.t) :
  rapidFire k T s -> 0 <= T -> T + 0.1 < 20 -> cadenceFires 0.1 s = true.
Proof.
  intros (Hm & Hp & Hst & Hgt & _) HT0 HT1.
  destruct s as [ms st gt rt ph fm sp]. simpl in Hm, Hp, Hst, Hgt. subst.
  unfold cadenceFires, MeteorSpawner.getCurrentDifficultyPhase, Rgeb.
  simpl. rcmp. simpl. rcmp. reflexivity.
Qed.

Lemma spawnerAtCap_rapidFire :
  rapidFire 8 (0 + 0.1 + 0.1 + 0.1 + 0.1 + 0.1 + 0.1 + 0.1 + 0.1) spawnerAtCap.
Proof.
  unfold spawnerAtCap, historyToCap, spawnerRun. cbn [fold_left repeat spawnerStep].
  do 8 (apply rapidFire_step; [| lia | lra | lra]).
  unfold rapidFire. simpl. repeat split; try reflexivity. constructor.
Qed.

(** An instance: the frequency slider at zero and eight frames of a tenth
    of a second leave eight telegraphing meteors; on the ninth frame the
    cadence fires again and nothing is spawned. *)
Lemma spawner_respects_cap_witness :
  cadenceFires 0.1 spawnerAtCap = true /\
  length (MeteorSpawner.meteors spawnerAtCap) = 8%nat /\
  MeteorSpawner.meteors (fst (MeteorSpawner.updateCadence 0.1 spawnerAtCap coinHalf))
    = MeteorSpawner.meteors spawnerAtCap /\
  MeteorSpawner.spawnTimer (fst (MeteorSpawner.update 0.1 spawnerAtCap coinHalf)) = 0.
Proof.
  pose proof spawnerAtCap_rapidFire as RF.
  assert (Hfire : cadenceFires 0.1 spawnerAtCap = true).
  { apply (rapidFire_fires _ _ _ RF); lra. }
  assert (Hcap : length (MeteorSpawner.meteors spawnerAtCap) = 8%nat).
  { destruct RF as (_ & _ & _ & _ & Hl & _). exact Hl. }
  destruct (spawner_respects_cap [] 1 12 [] coinHalf []) as (_ & _ & H).
  destruct (H spawnerAtCap 0.1 coinHalf Hfire Hcap) as (H1 & _ & H3 & _).
  repeat split; assumption.
Defined.

(** C1 fails on the code.  Right after [MeteorSpawner.update], that is
    when the collision resolution of the frame runs, the active set of any
    spawner history, and of the spawner of the game after any history of the
    game, holds no Exploded and no Destroyed meteor: the cleanup at the end of
    [update] evaluates each meteor once more with [update(0)] and drops the
    terminal ones in the same call.  On [spawnerBeforeImpact] the
    falling meteor explodes in the frame of 0.15 seconds and the collision
    system receives an empty list, so that the explosion pass reports nothing
    and the creature at the target survives, whereas the same pass kills it
    when it is handed the exploded meteor. *)
Theorem exploded_hazard_is_purged_before_collisions :
  (forall (phases : list DifficultyPhase) (multiplier speed : R)
          (steps : list SpawnerStep) (deltaTime : R) (g : Rng),
     Forall (fun m => Meteor.state m <> Exploded /\ Meteor.state m <> Destroyed)
       (MeteorSpawner.getMeteors
          (fst (MeteorSpawner.update deltaTime
                  (spawnerRun steps (spawnerWith phases multiplier speed)) g)))) /\
  (forall (g0 : Rng) (frames : list GameStep) (deltaTime : R) (g : Rng),
     Forall (fun m => Meteor.state m <> Exploded /\ Meteor.state m <> Destroyed)
       (MeteorSpawner.getMeteors
          (fst (MeteorSpawner.update deltaTime
                  (Game.meteorSpawner (world (gameRun frames (Game.init g0)))) g)))) /\
  Meteor.state meteorAboutToLand = Falling /\
  Meteor.state (snd (Meteor.update 0.15 meteorAboutToLand)) = Exploded /\
  (forall g : Rng,
     let active :=
       MeteorSpawner.getMeteors (fst (MeteorSpawner.update 0.15 spawnerBeforeImpact g)) in
     active = [] /\
     CollisionSystem.events (CollisionSystem.update playerAtRest [creatureAtTarget] active)
       = [] /\
     countAlive (CollisionSystem.creatures
                   (CollisionSystem.update playerAtRest [creatureAtTarget] active))
       = 1%nat) /\
  countAlive (CollisionSystem.creatures
                (CollisionSystem.update playerAtRest [creatureAtTarget]
                   [snd (Meteor.update 0.15 meteorAboutToLand)]))
    = 0%nat.
Proof.
  assert (G : forall (steps : list SpawnerStep) (s0 : MeteorSpawner.t) (deltaTime : R)
                     (g : Rng),
             MeteorSpawner.meteors s0 = [] ->
             Forall (fun m => Meteor.state m <> Exploded /\ Meteor.state m <> Destroyed)
               (MeteorSpawner.getMeteors
                  (fst (MeteorSpawner.update deltaTime (spawnerRun steps s0) g)))).
  { intros steps s0 deltaTime g H0. unfold MeteorSpawner.getMeteors.
    eapply Forall_impl; [| apply update_purges_terminal].
    + intros m [Ht _]. unfold isTerminal in Ht.
      destruct (Meteor.state m); try discriminate; split; discriminate.
    + apply spawnerRun_between_frames. rewrite H0. constructor. }
  assert (He : Meteor.state (snd (Meteor.update 0.15 meteorAboutToLand)) = Exploded)
    by (apply meteorAboutToLand_explodes; lra).
  split; [| split; [| split; [reflexivity | split; [exact He | split]]]].
  - intros phases multiplier speed steps deltaTime g. now apply G.
  - intros g0 frames deltaTime g.
    destruct (gameRun_spawner_history g0 frames) as [history E]. rewrite E.
    now apply G.
  - intros g active. subst active.
    rewrite (proj1 (spawnerBeforeImpact_update 0.15 g ltac:(lra))).
    repeat split; reflexivity.
  - apply explosion_pass_kills.
    + exact He.
    + rewrite update_targetPosition. reflexivity.
    + reflexivity.
Qed.

(** ** Melee and impact within a frame of the game *)

Lemma updateGameEntities_isGameRunning (f : Game.Frame) (d : Game.Data) :
  Game.isGameRunning (Game.updateGameEntities f d) = Game.isGameRunning d.
Proof.
  unfold Game.updateGameEntities.
  destruct (Creature.updateAll _ _ _ _) as [cs1 g1].
  destruct (MeteorSpawner.update _ _ _) as [sp1 g2].
  match goal with
  | |- context [fold_left ?h ?ev ?d1] =>
      destruct (handleEvents_fold ev d1) as (_ & _ & R & _)
  end.
  cbv zeta in R. rewrite R. reflexivity.
Qed.






















(** * Further properties of the code *)

(** ** The session along a history of the game *)

Lemma new_isAlive (pos : Vec) (g : Rng) : Creature.isAlive (fst (Creature.new pos g)) = true.
Proof.
  unfold Creature.new, Creature.generateRandomTarget, random. reflexivity.
Qed.

Lemma createAll_countAlive (ps : list Vec) (g : Rng) :
  countAlive (fst (Creature.createAll ps g)) = length ps.
Proof.
  revert g. induction ps as [| pos ps IH]; intros g; [reflexivity |].
  cbn [Creature.createAll].
  pose proof (new_isAlive pos g) as A.
  destruct (Creature.new pos g) as [c g1].
  specialize (IH g1). destruct (Creature.createAll ps g1) as [cs g2].
  cbn [fst] in *. rewrite countAlive_cons. unfold Creature.isCreatureAlive.
  rewrite A, IH. reflexivity.
Qed.

Lemma startGame_fields (d : Game.Data) :
  Game.isGameRunning (Game.startGame d) = true /\
  Game.aliveCreatures (Game.startGame d) = 3%nat /\
  Game.gameTimer (Game.startGame d) = 60 /\
  Game.player (Game.startGame d) = Game.player d /\
  countAlive (Game.creatures (Game.startGame d)) = 3%nat.
Proof.
  unfold Game.startGame.
  pose proof (createAll_countAlive Creature.createSpawnPositions (Game.rng d)) as A.
  destruct (Creature.createAll _ _) as [cs g1]. cbn [fst] in A.
  repeat split; try reflexivity. exact A.
Qed.

Lemma transitionTo_invariant (target : GameState) (m : Game.t) :
  sessionInvariant m -> sessionInvariant (transitionTo target m).
Proof.
  intros (Hh & Hr & Hs & Hn).
  destruct m as [cur hs w cs wn]. cbn [stateHandlers currentState world] in *. subst hs.
  unfold sessionInvariant, scoreboardConsistent in *.
  destruct (startGame_fields w) as (S1 & S2 & S3 & S4 & S5).
  destruct (startGame_fields (Game.set_isGameRunning false w)) as (T1 & T2 & T3 & T4 & T5).
  destruct cur, target;
    unfold transitionTo, canTransitionTo, handlerOnExit, handlerOnEnter, invoke,
      setCurrentState;
    cbn [validTransitions existsb GameState_eqb orb negb stateHandlers currentState
         world Game.handlers onEnter onExit];
    cbn [stateHandlers currentState world GameState_eqb];
    repeat split; try assumption; try reflexivity;
    rewrite ?S1, ?S2, ?S5, ?T1, ?T2, ?T5; try reflexivity; try lia.
Qed.

Lemma setWorld_invariant (d : Game.Data) (m : Game.t) :
  sessionInvariant m ->
  Game.isGameRunning d = Game.isGameRunning (world m) ->
  scoreboardConsistent d ->
  (Game.aliveCreatures d <= 3)%nat ->
  sessionInvariant (setWorld d m).
Proof.
  intros (Hh & Hr & _) R S N. unfold sessionInvariant. cbn [setWorld stateHandlers currentState world].
  rewrite R. repeat split; assumption.
Qed.

Lemma updateGameEntities_invariant (f : Game.Frame) (m : Game.t) :
  sessionInvariant m ->
  sessionInvariant (setWorld (Game.updateGameEntities f (world m)) m).
Proof.
  intros H. pose proof H as (Hh & Hr & Hs & Hn).
  destruct (updateGameEntities_scoreboard f (world m) Hs) as [S1 S2].
  apply setWorld_invariant; try assumption.
  - apply updateGameEntities_isGameRunning.
  - lia.
Qed.

Lemma checkGameConditions_invariant (m : Game.t) :
  sessionInvariant m -> sessionInvariant (Game.checkGameConditions m).
Proof.
  intros H. unfold Game.checkGameConditions.
  destruct (Nat.leb _ 0); [now apply transitionTo_invariant |].
  destruct (Rleb _ 0); [now apply transitionTo_invariant | exact H].
Qed.

Lemma updateGame_invariant (f : Game.Frame) (m : Game.t) :
  sessionInvariant m -> sessionInvariant (Game.updateGame f m).
Proof.
  intros H. unfold Game.updateGame. apply checkGameConditions_invariant.
  set (m0 := setWorld (Game.set_gameTimer (Game.gameTimer (world m) - Game.deltaTime f)
                         (world m)) m).
  assert (H0 : sessionInvariant m0).
  { destruct H as (Hh & Hr & Hs & Hn). apply setWorld_invariant; try assumption;
      try reflexivity. repeat split; assumption. }
  pose proof (updateGameEntities_invariant f m0 H0) as H1.
  exact H1.
Qed.

Lemma stateMachineUpdate_invariant (f : Game.Frame) (m : Game.t) :
  sessionInvariant m -> sessionInvariant (Game.stateMachineUpdate f m).
Proof.
  intros H. unfold Game.stateMachineUpdate. destruct (currentState m).
  - exact H.
  - destruct (_ || _); [now apply transitionTo_invariant | exact H].
  - now apply updateGame_invariant.
  - destruct (jumpPressed _); [now apply transitionTo_invariant |].
    destruct (punchPressed _); [now apply transitionTo_invariant | exact H].
Qed.

Lemma update_invariant (f : Game.Frame) (m : Game.t) :
  sessionInvariant m -> sessionInvariant (Game.update f m).
Proof.
  intros H. unfold Game.update.
  pose proof (stateMachineUpdate_invariant f m H) as H1.
  destruct (Game.isGameRunning _); [| exact H1].
  now apply updateGameEntities_invariant.
Qed.

Lemma gameStep_invariant (m : Game.t) (step : GameStep) :
  sessionInvariant m -> sessionInvariant (gameStep m step).
Proof.
  intros H. destruct step; cbn [gameStep].
  - now apply update_invariant.
  - now apply transitionTo_invariant.
  - destruct H as (Hh & Hr & Hs & Hn). apply setWorld_invariant; try assumption;
      try reflexivity. repeat split; assumption.
  - destruct H as (Hh & Hr & Hs & Hn). apply setWorld_invariant; try assumption;
      try reflexivity. repeat split; assumption.
  - destruct H as (Hh & Hr & Hs & Hn). apply setWorld_invariant; try assumption;
      try reflexivity. repeat split; assumption.
Qed.

Lemma init_invariant (g : Rng) : sessionInvariant (Game.init g).
Proof.
  unfold Game.init.
  pose proof (createAll_countAlive Creature.createSpawnPositions g) as A.
  destruct (Creature.createAll _ _) as [cs g1]. cbn [fst] in A.
  unfold sessionInvariant, scoreboardConsistent.
  cbn [stateHandlers currentState world Game.isGameRunning Game.aliveCreatures
       Game.creatures GameState_eqb].
  rewrite A. repeat split; reflexivity || lia.
Qed.

Lemma gameRun_invariant (steps : list GameStep) (m : Game.t) :
  sessionInvariant m -> sessionInvariant (gameRun steps m).
Proof.
  revert m. induction steps as [| step steps IH]; intros m H; [exact H |].
  apply IH. now apply gameStep_invariant.
Qed.

(** X1.  After any history of the game (frames, the timer of Boot, the
    sliders) the running flag is set exactly when the state is Play. *)
Theorem running_exactly_in_play (g : Rng) (steps : list GameStep) :
  Game.isGameRunning (world (gameRun steps (Game.init g)))
  = GameState_eqb (currentState (gameRun steps (Game.init g))) Play.
Proof.
  exact (proj1 (proj2 (gameRun_invariant steps _ (init_invariant g)))).
Qed.

(** X2.  After any history of the game the scoreboard is the number of
    living creatures of the collection, and it never exceeds three. *)
Theorem scoreboard_counts_living_creatures (g : Rng) (steps : list GameStep) :
  Game.aliveCreatures (world (gameRun steps (Game.init g)))
  = length (filter Creature.isCreatureAlive
              (Game.creatures (world (gameRun steps (Game.init g))))) /\
  (Game.aliveCreatures (world (gameRun steps (Game.init g))) <= 3)%nat.
Proof.
  destruct (gameRun_invariant steps _ (init_invariant g)) as (_ & _ & S & N).
  split; [exact S | exact N].
Qed.

Lemma trySpawnMeteor_clock (s : MeteorSpawner.t) (g : Rng) :
  MeteorSpawner.gameTime (fst (MeteorSpawner.trySpawnMeteor s g)) = MeteorSpawner.gameTime s.
Proof.
  unfold MeteorSpawner.trySpawnMeteor.
  destruct (Nat.leb _ _); [reflexivity |].
  destruct (MeteorSpawner.generateValidTarget s g) as [target g1]. reflexivity.
Qed.

(** Every call of [MeteorSpawner.update] advances the spawner's clock by
    the delta time. *)
Lemma update_clock (deltaTime : R) (s : MeteorSpawner.t) (g : Rng) :
  MeteorSpawner.gameTime (fst (MeteorSpawner.update deltaTime s g))
  = MeteorSpawner.gameTime s + deltaTime.
Proof.
  unfold MeteorSpawner.update, MeteorSpawner.updateCadence.
  destruct (MeteorSpawner.getCurrentDifficultyPhase _) as [phase |]; [| reflexivity].
  destruct (Rgeb _ _); [| reflexivity].
  match goal with
  | |- context [MeteorSpawner.trySpawnMeteor ?s1 g] =>
      pose proof (trySpawnMeteor_clock s1 g) as T;
      destruct (MeteorSpawner.trySpawnMeteor s1 g) as [s2 g1]
  end.
  cbn [fst] in *. exact T.
Qed.







(** ** Creatures *)

Lemma clamp_bounds (lo hi v : R) : lo <= hi -> lo <= Rmax lo (Rmin hi v) <= hi.
Proof.
  intros H. destruct (Rmin_cases hi v) as [[-> H1] | [-> H1]];
    match goal with
    | |- _ <= Rmax ?a ?b <= _ => destruct (Rmax_cases a b) as [[-> H'] | [-> H']]; lra
    end.
Qed.

Lemma updatePosition_bounds (deltaTime : R) (c : Creature.t) :
  let c' := Creature.updatePosition deltaTime c in
  -4.2 <= Vector3.x (Creature.position c') <= 4.2 /\
  Vector3.y (Creature.position c') = 0.175 /\
  -4.2 <= Vector3.z (Creature.position c') <= 4.2.
Proof.
  cbv zeta. unfold Creature.updatePosition, Creature.stageMargin, Creature.radius.
  cbn [Creature.set_position Creature.position Vector3.x Vector3.y Vector3.z].
  split; [| split; [lra |]].
  - match goal with |- _ <= Rmax ?lo (Rmin ?hi ?v) <= _ =>
      pose proof (clamp_bounds lo hi v) end. lra.
  - match goal with |- _ <= Rmax ?lo (Rmin ?hi ?v) <= _ =>
      pose proof (clamp_bounds lo hi v) end. lra.
Qed.

(** X4.  A living creature ends every update within 4.2 of the centre of the
    stage on both axes and at height 0.175, whatever the delta time. *)
Theorem creature_stays_on_stage (deltaTime : R) (meteorPositions : list Vec)
    (c : Creature.t) (g : Rng) :
  Creature.isAlive c = true ->
  let c' := fst (Creature.update deltaTime meteorPositions c g) in
  -4.2 <= Vector3.x (Creature.position c') <= 4.2 /\
  Vector3.y (Creature.position c') = 0.175 /\
  -4.2 <= Vector3.z (Creature.position c') <= 4.2.
Proof.
  intros Ha. cbv zeta. unfold Creature.update. rewrite Ha. cbn [negb].
  destruct (Creature.updateBehavior _ _ _ _) as [c1 g1]. cbn [fst].
  apply updatePosition_bounds.
Qed.

Lemma creature_stays_on_stage_witness :
  Creature.isAlive creatureAtSpawn = true /\
  -4.2 <= Vector3.x (Creature.position (fst (Creature.update 100 [] creatureAtSpawn coinHalf)))
       <= 4.2 /\
  Vector3.y (Creature.position (fst (Creature.update 100 [] creatureAtSpawn coinHalf)))
  = 0.175.
Proof.
  split; [reflexivity |].
  destruct (creature_stays_on_stage 100 [] creatureAtSpawn coinHalf eq_refl)
    as (Hx & Hy & _).
  split; [exact Hx | exact Hy].
Defined.

Lemma length_sq (v : Vec) :
  Vector3.length v * Vector3.length v
  = Vector3.x v * Vector3.x v + Vector3.y v * Vector3.y v + Vector3.z v * Vector3.z v.
Proof.
  unfold Vector3.length. apply sqrt_sqrt.
  pose proof (Rle_0_sqr (Vector3.x v)). pose proof (Rle_0_sqr (Vector3.y v)).
  pose proof (Rle_0_sqr (Vector3.z v)). unfold Rsqr in *. lra.
Qed.

Lemma length_multiplyScalar (v : Vec) (k : R) :
  0 <= k -> Vector3.length (Vector3.multiplyScalar v k) = k * Vector3.length v.
Proof.
  intros Hk. apply length_of.
  - pose proof (length_nonneg v). nra.
  - unfold Vector3.multiplyScalar. cbn [Vector3.x Vector3.y Vector3.z].
    pose proof (length_sq v) as L. nra.
Qed.

Lemma length_normalize (v : Vec) :
  Vector3.length v <> 0 -> Vector3.length (Vector3.normalize v) = 1.
Proof.
  intros Hl. rewrite (normalize_of v _ eq_refl Hl). apply length_of; [lra |].
  cbn [Vector3.x Vector3.y Vector3.z]. pose proof (length_sq v) as L.
  set (l := Vector3.length v) in *.
  replace (Vector3.x v * (1 / l) * (Vector3.x v * (1 / l)) +
           Vector3.y v * (1 / l) * (Vector3.y v * (1 / l)) +
           Vector3.z v * (1 / l) * (Vector3.z v * (1 / l)))
    with ((Vector3.x v * Vector3.x v + Vector3.y v * Vector3.y v
           + Vector3.z v * Vector3.z v) * (1 / l) * (1 / l)) by ring.
  rewrite <- L. field. exact Hl.
Qed.





Lemma findNearestThreatFrom_spec (c : Creature.t) (ps : list Vec) (acc : option (Vec * R)) :
  match acc with
  | Some (p0, d0) => d0 = Vector3.distanceTo (Creature.position c) p0
  | None => True
  end ->
  match Creature.findNearestThreatFrom c ps acc with
  | None => acc = None /\ ps = []
  | Some (pos, d) =>
      d = Vector3.distanceTo (Creature.position c) pos /\
      (In pos ps \/ acc = Some (pos, d)) /\
      Forall (fun q => d <= Vector3.distanceTo (Creature.position c) q) ps /\
      match acc with Some (_, d0) => d <= d0 | None => True end
  end.
Proof.
  revert acc. induction ps as [| q ps IH]; intros acc Hacc.
  - cbn [Creature.findNearestThreatFrom]. destruct acc as [[p0 d0] |].
    + repeat split; [exact Hacc | now right | constructor | lra].
    + split; reflexivity.
  - cbn [Creature.findNearestThreatFrom].
    set (dq := Vector3.distanceTo (Creature.position c) q).
    destruct acc as [[p0 d0] |].
    + destruct (Rltb dq d0) eqn:E.
      * apply Rltb_spec in E.
        specialize (IH (Some (q, dq)) eq_refl).
        destruct (Creature.findNearestThreatFrom c ps (Some (q, dq))) as [[pos d] |].
        -- destruct IH as (Hd & Hin & Hall & Hle).
           repeat split; [exact Hd | | constructor; [exact Hle | exact Hall] | lra].
           left. destruct Hin as [Hin | Heq]; [now right | left; congruence].
        -- destruct IH as [IH _]. discriminate.
      * apply Rltb_nspec in E.
        specialize (IH (Some (p0, d0)) Hacc).
        destruct (Creature.findNearestThreatFrom c ps (Some (p0, d0))) as [[pos d] |].
        -- destruct IH as (Hd & Hin & Hall & Hle).
           repeat split; [exact Hd | | constructor; [fold dq; lra | exact Hall] | exact Hle].
           destruct Hin as [Hin | Heq]; [left; now right | now right].
        -- destruct IH as [IH _]. discriminate.
    + specialize (IH (Some (q, dq)) eq_refl).
      destruct (Creature.findNearestThreatFrom c ps (Some (q, dq))) as [[pos d] |].
      * destruct IH as (Hd & Hin & Hall & Hle).
        repeat split; [exact Hd | | constructor; [exact Hle | exact Hall]].
        left. destruct Hin as [Hin | Heq]; [now right | left; congruence].
      * destruct IH as [IH _]. discriminate.
Qed.

(** X6.  [findNearestThreat] answers nothing exactly on the empty list, and
    otherwise a position of the list at the least distance. *)
Theorem findNearestThreat_is_nearest (c : Creature.t) (meteorPositions : list Vec) :
  match Creature.findNearestThreat c meteorPositions with
  | None => meteorPositions = []
  | Some (pos, d) =>
      In pos meteorPositions /\
      d = Vector3.distanceTo (Creature.position c) pos /\
      Forall (fun q => d <= Vector3.distanceTo (Creature.position c) q) meteorPositions
  end.
Proof.
  unfold Creature.findNearestThreat.
  pose proof (findNearestThreatFrom_spec c meteorPositions None I) as H.
  destruct (Creature.findNearestThreatFrom c meteorPositions None) as [[pos d] |].
  - destruct H as (Hd & [Hin | Heq] & Hall & _); [| discriminate].
    repeat split; assumption.
  - exact (proj2 H).
Qed.

Lemma normalize_components (v : Vec) :
  exists k : R, 0 < k /\
    Vector3.normalize v
    = Vector3.mk (Vector3.x v * (1 / k)) (Vector3.y v * (1 / k)) (Vector3.z v * (1 / k)).
Proof.
  unfold Vector3.normalize, Vector3.divideScalar, Vector3.multiplyScalar.
  destruct (Req_dec_T (Vector3.length v) 0) as [E | E].
  - exists 1. split; [lra | reflexivity].
  - exists (Vector3.length v). split; [| reflexivity].
    pose proof (length_nonneg v). lra.
Qed.

(** Clamping a displaced coordinate moves it, if at all, to the side of
    the displacement. *)
Lemma clamp_same_side (p u k : R) :
  -4.2 <= p <= 4.2 -> 0 < k ->
  0 <= (Rmax (- (5 - 0.8)) (Rmin (5 - 0.8) (p + u * (1 / k) * 3.0)) - p) * u.
Proof.
  intros Hp Hk.
  assert (Hi : 0 < 1 / k) by (apply Rdiv_lt_0_compat; lra).
  set (w := 1 / k) in *.
  destruct (Rle_lt_dec 0 u) as [Hu | Hu].
  - assert (Hd : 0 <= u * w * 3.0) by nra.
    destruct (Rmin_cases (5 - 0.8) (p + u * w * 3.0)) as [[-> H1] | [-> H1]];
      match goal with
      | |- context [Rmax ?a ?b] => destruct (Rmax_cases a b) as [[-> H'] | [-> H']]
      end; nra.
  - assert (Hd : u * w * 3.0 <= 0) by nra.
    destruct (Rmin_cases (5 - 0.8) (p + u * w * 3.0)) as [[-> H1] | [-> H1]];
      match goal with
      | |- context [Rmax ?a ?b] => destruct (Rmax_cases a b) as [[-> H'] | [-> H']]
      end; nra.
Qed.

Lemma after_behavior_keeps (deltaTime : R) (c1 : Creature.t) :
  let c' := Creature.updatePosition deltaTime (Creature.updateMovement deltaTime c1) in
  Creature.state c' = Creature.state c1 /\
  Creature.targetPosition c' = Creature.targetPosition c1.
Proof.
  cbv zeta. unfold Creature.updatePosition, Creature.updateMovement.
  destruct (Rgtb _ 0.1); split; reflexivity.
Qed.

(** X7.  A living creature inside the stage whose nearest telegraph is
    closer than the flee distance turns to fleeing, draws no random number,
    and its new target lies, on each horizontal axis, on the side away from
    that telegraph (or level with the creature). *)
Theorem fleeing_target_points_away (deltaTime : R) (meteorPositions : list Vec)
    (c : Creature.t) (g : Rng) (threat : Vec) (d : R) :
  Creature.isAlive c = true ->
  -4.2 <= Vector3.x (Creature.position c) <= 4.2 ->
  -4.2 <= Vector3.z (Creature.position c) <= 4.2 ->
  Creature.findNearestThreat c meteorPositions = Some (threat, d) ->
  d < Creature.fleeDistance ->
  let c' := fst (Creature.update deltaTime meteorPositions c g) in
  Creature.state c' = fleeing /\
  snd (Creature.update deltaTime meteorPositions c g) = g /\
  0 <= (Vector3.x (Creature.targetPosition c') - Vector3.x (Creature.position c))
       * (Vector3.x (Creature.position c) - Vector3.x threat) /\
  0 <= (Vector3.z (Creature.targetPosition c') - Vector3.z (Creature.position c))
       * (Vector3.z (Creature.position c) - Vector3.z threat).
Proof.
  intros Ha Hx Hz Hn Hd. cbv zeta. unfold Creature.update. rewrite Ha. cbn [negb].
  unfold Creature.updateBehavior. rewrite Hn. rewrite Rltb_true by exact Hd.
  cbn [fst snd].
  destruct (after_behavior_keeps deltaTime
              (Creature.calculateFleeTarget threat (Creature.set_state fleeing c)))
    as [Ks Kt].
  cbv zeta in Ks, Kt. rewrite Ks, Kt.
  unfold Creature.calculateFleeTarget, Creature.constrainTargetToStage.
  cbn [Creature.set_targetPosition Creature.set_state Creature.state Creature.position
       Creature.targetPosition].
  destruct (normalize_components (Vector3.sub (Creature.position c) threat))
    as (k & Hk & ->).
  unfold Creature.stageMargin, Vector3.add, Vector3.multiplyScalar, Vector3.sub.
  cbn [Vector3.x Vector3.y Vector3.z].
  split; [reflexivity |]. split; [reflexivity |]. split.
  - apply clamp_same_side; assumption.
  - apply clamp_same_side; assumption.
Qed.

Lemma length_lt (v : Vec) (l : R) :
  0 < l ->
  Vector3.x v * Vector3.x v + Vector3.y v * Vector3.y v + Vector3.z v * Vector3.z v < l * l ->
  Vector3.length v < l.
Proof.
  intros Hl H. pose proof (length_sq v) as L. pose proof (length_nonneg v) as N.
  destruct (Rlt_le_dec (Vector3.length v) l) as [Hlt | Hge]; [exact Hlt | nra].
Qed.

Lemma creatureNearThreat_nearest :
  Creature.findNearestThreat creatureNearThreat [Vector3.mk 0 0 0]
  = Some (Vector3.mk 0 0 0, Vector3.distanceTo (Vector3.mk 1 0.175 0) (Vector3.mk 0 0 0)).
Proof. reflexivity. Qed.

Lemma fleeing_target_points_away_witness :
  Creature.state (fst (Creature.update 0.1 [Vector3.mk 0 0 0] creatureNearThreat coinHalf))
  = fleeing.
Proof.
  refine (proj1 (fleeing_target_points_away 0.1 [Vector3.mk 0 0 0] creatureNearThreat
                   coinHalf (Vector3.mk 0 0 0) _ eq_refl _ _
                   creatureNearThreat_nearest _)).
  - simpl; lra.
  - simpl; lra.
  - unfold Vector3.distanceTo, Creature.fleeDistance.
    apply length_lt; [lra | simpl; lra].
Defined.

(** ** Meteors: telegraph and fall *)

Lemma meteorRun_app (a b : list R) (m : Meteor.t) :
  meteorRun (a ++ b) m = meteorRun b (meteorRun a m).
Proof. unfold meteorRun. apply fold_left_app. Qed.

Lemma update_to_telegraph (deltaTime : R) (m : Meteor.t) :
  Meteor.state (snd (Meteor.update deltaTime m)) = Telegraph ->
  Meteor.state m = Telegraph /\
  snd (Meteor.update deltaTime m) = Meteor.set_timer (Meteor.timer m + deltaTime) m.
Proof.
  unfold Meteor.update. cbn [Meteor.state Meteor.set_timer].
  destruct (Meteor.state m) eqn:Hs; cbn [snd].
  - unfold Meteor.updateTelegraph. destruct (Rgeb _ _).
    + cbn. discriminate.
    + auto.
  - unfold Meteor.updateFalling. destruct (Rleb _ _); cbn; rewrite ?Hs; discriminate.
  - cbn. rewrite Hs. discriminate.
  - cbn. rewrite Hs. discriminate.
Qed.

(** A meteor that is telegraphing after a run of updates has been
    telegraphing all along, and the run has changed nothing but its timer. *)
Lemma meteorRun_still_telegraph (deltaTimes : list R) (m : Meteor.t) :
  Meteor.state (meteorRun deltaTimes m) = Telegraph ->
  Meteor.position (meteorRun deltaTimes m) = Meteor.position m /\
  Meteor.velocity (meteorRun deltaTimes m) = Meteor.velocity m /\
  Meteor.targetPosition (meteorRun deltaTimes m) = Meteor.targetPosition m /\
  Meteor.fallSpeed (meteorRun deltaTimes m) = Meteor.fallSpeed m.
Proof.
  induction deltaTimes as [| dt dts IH] using rev_ind; intros H; [repeat split |].
  rewrite meteorRun_app in *. unfold meteorRun at 1 in H. cbn [fold_left] in H.
  destruct (update_to_telegraph dt (meteorRun dts m) H) as [Hs E].
  unfold meteorRun at 1 3 5 7. cbn [fold_left]. rewrite E.
  cbn [Meteor.set_timer Meteor.position Meteor.velocity Meteor.targetPosition
       Meteor.fallSpeed].
  exact (IH Hs).
Qed.

(** X8.  A meteor as the spawner creates it that is still telegraphing after
    a run of updates is still at its spawn position, 12 above its target, and
    has no velocity.  The next update does not move it; it compares the
    meteor's own accumulated timer, advanced by the delta time, with the
    telegraph duration of one second: below it the meteor goes on
    telegraphing, at or above it the meteor is Falling with the velocity
    (0, -speed, 0). *)
Theorem new_meteor_telegraphs_then_falls_vertically (target : Vec) (speed : R)
    (deltaTimes : list R) (deltaTime : R) :
  let m0 := Meteor.setFallSpeed speed (Meteor.new target) in
  let m1 := meteorRun deltaTimes m0 in
  let m2 := snd (Meteor.update deltaTime m1) in
  Meteor.state m1 = Telegraph ->
  Meteor.position m1 = Vector3.mk (Vector3.x target) 12 (Vector3.z target) /\
  Meteor.velocity m1 = Vector3.zero /\
  Meteor.position m2 = Meteor.position m1 /\
  (Meteor.timer m1 + deltaTime < 1 ->
   Meteor.state m2 = Telegraph /\ Meteor.velocity m2 = Vector3.zero) /\
  (1 <= Meteor.timer m1 + deltaTime ->
   Meteor.state m2 = Falling /\ Meteor.velocity m2 = Vector3.mk 0 (- speed) 0).
Proof.
  intros m0 m1 m2 Hs.
  destruct (meteorRun_still_telegraph deltaTimes m0 Hs) as (P & V & T & F).
  fold m1 in P, V, T, F.
  split; [rewrite P; reflexivity |]. split; [rewrite V; reflexivity |].
  split; [exact (proj1 (proj2 (update_telegraph deltaTime m1 Hs))) |].
  split.
  - intros Hlt. unfold m2.
    rewrite (update_telegraph_waits deltaTime m1 Hs)
      by (unfold Meteor.telegraphDuration; lra).
    cbn [snd Meteor.set_timer Meteor.state Meteor.velocity].
    split; [exact Hs | rewrite V; reflexivity].
  - intros Hge. unfold m2.
    rewrite (update_telegraph_ends deltaTime m1 Hs)
      by (unfold Meteor.telegraphDuration; lra).
    cbn [snd Meteor.set_velocity Meteor.set_state Meteor.set_timer Meteor.state
         Meteor.velocity].
    split; [reflexivity |].
    rewrite P, T, F. unfold m0.
    cbn [Meteor.setFallSpeed Meteor.new Meteor.targetPosition Meteor.position
         Meteor.fallSpeed].
    unfold Meteor.spawnHeight, Vector3.setY, Vector3.sub. cbn [Vector3.x Vector3.y Vector3.z].
    rewrite (normalize_of _ 12); [| apply length_of; cbn; lra | lra].
    unfold Vector3.multiplyScalar. cbn [Vector3.x Vector3.y Vector3.z].
    apply vec_eq; lra.
Qed.

Lemma two_updates_telegraph :
  Meteor.state (meteorRun [0.4; 0.5] (Meteor.setFallSpeed 12 (Meteor.new (Vector3.mk 1 0 2))))
  = Telegraph /\
  Meteor.timer (meteorRun [0.4; 0.5] (Meteor.setFallSpeed 12 (Meteor.new (Vector3.mk 1 0 2))))
  = 0 + 0.4 + 0.5.
Proof.
  unfold meteorRun. cbn [fold_left].
  rewrite (update_telegraph_waits 0.4)
    by (try reflexivity; cbn; unfold Meteor.telegraphDuration; lra).
  cbn [snd].
  rewrite (update_telegraph_waits 0.5)
    by (try reflexivity; cbn; unfold Meteor.telegraphDuration; lra).
  split; reflexivity.
Qed.

Lemma new_meteor_telegraphs_then_falls_vertically_witness :
  Meteor.state
    (snd (Meteor.update 0.2
            (meteorRun [0.4; 0.5] (Meteor.setFallSpeed 12 (Meteor.new (Vector3.mk 1 0 2))))))
  = Falling /\
  Meteor.velocity
    (snd (Meteor.update 0.2
            (meteorRun [0.4; 0.5] (Meteor.setFallSpeed 12 (Meteor.new (Vector3.mk 1 0 2))))))
  = Vector3.mk 0 (- 12) 0.
Proof.
  destruct two_updates_telegraph as [S T].
  destruct (new_meteor_telegraphs_then_falls_vertically (Vector3.mk 1 0 2) 12 [0.4; 0.5] 0.2 S)
    as (_ & _ & _ & _ & H).
  apply H. rewrite T. lra.
Defined.

(** X9.  Changing the fall speed of a falling meteor changes nothing of its
    flight: its velocity was fixed when it left the telegraph.  A
    telegraphing meteor takes the new speed when it starts to fall. *)
Theorem fall_speed_acts_on_telegraphing_meteors_only (speed deltaTime : R) (m : Meteor.t) :
  (Meteor.state m = Falling ->
   Meteor.update deltaTime (Meteor.setFallSpeed speed m)
   = (fst (Meteor.update deltaTime m),
      Meteor.setFallSpeed speed (snd (Meteor.update deltaTime m)))) /\
  (Meteor.state m = Telegraph ->
   Meteor.telegraphDuration <= Meteor.timer m + deltaTime ->
   Meteor.velocity (snd (Meteor.update deltaTime (Meteor.setFallSpeed speed m)))
   = Vector3.multiplyScalar
       (Vector3.normalize (Vector3.sub (Meteor.targetPosition m) (Meteor.position m)))
       speed).
Proof.
  split.
  - intros Hs. unfold Meteor.update.
    cbn [Meteor.setFallSpeed Meteor.set_timer Meteor.state Meteor.timer]. rewrite Hs.
    unfold Meteor.updateFalling.
    cbn [Meteor.set_position Meteor.position Meteor.velocity].
    destruct (Rleb _ _); reflexivity.
  - intros Hs Ht. rewrite update_telegraph_ends; [reflexivity | exact Hs | exact Ht].
Qed.

Lemma fall_speed_acts_on_telegraphing_meteors_only_witness :
  Meteor.state meteorAboutToLand = Falling /\
  Meteor.position (snd (Meteor.update 0.01 (Meteor.setFallSpeed 20 meteorAboutToLand)))
  = Meteor.position (snd (Meteor.update 0.01 meteorAboutToLand)).
Proof.
  split; [reflexivity |].
  rewrite (proj1 (fall_speed_acts_on_telegraphing_meteors_only 20 0.01 meteorAboutToLand)
             eq_refl).
  reflexivity.
Defined.

(** ** The spawner: targets, phases *)

Lemma addRecentTarget_length (target : Vec) (s : MeteorSpawner.t) :
  (length (MeteorSpawner.recentTargets s) <= 2)%nat ->
  (length (MeteorSpawner.recentTargets (MeteorSpawner.addRecentTarget target s)) <= 2)%nat.
Proof.
  intros H. unfold MeteorSpawner.addRecentTarget, MeteorSpawner.maxRecentTargets.
  cbn [MeteorSpawner.set_recentTargets MeteorSpawner.recentTargets].
  destruct (MeteorSpawner.recentTargets s) as [| a [| b [| c l]]]; cbn in *; lia.
Qed.

Lemma trySpawnMeteor_recent (s : MeteorSpawner.t) (g : Rng) :
  (length (MeteorSpawner.recentTargets s) <= 2)%nat ->
  (length (MeteorSpawner.recentTargets (fst (MeteorSpawner.trySpawnMeteor s g))) <= 2)%nat.
Proof.
  intros H. unfold MeteorSpawner.trySpawnMeteor.
  destruct (Nat.leb _ _); [exact H |].
  destruct (MeteorSpawner.generateValidTarget s g) as [target g1]. cbn [fst].
  apply addRecentTarget_length. exact H.
Qed.

Lemma update_recent (deltaTime : R) (s : MeteorSpawner.t) (g : Rng) :
  (length (MeteorSpawner.recentTargets s) <= 2)%nat ->
  (length (MeteorSpawner.recentTargets (fst (MeteorSpawner.update deltaTime s g))) <= 2)%nat.
Proof.
  intros H. unfold MeteorSpawner.update, MeteorSpawner.updateCadence.
  destruct (MeteorSpawner.getCurrentDifficultyPhase _) as [phase |]; [| exact H].
  destruct (Rgeb _ _); [| exact H].
  match goal with
  | |- context [MeteorSpawner.trySpawnMeteor ?s1 g] =>
      pose proof (trySpawnMeteor_recent s1 g H) as T;
      destruct (MeteorSpawner.trySpawnMeteor s1 g) as [s2 g1]
  end.
  exact T.
Qed.

Lemma spawnerStep_recent (s : MeteorSpawner.t) (step : SpawnerStep) :
  (length (MeteorSpawner.recentTargets s) <= 2)%nat /\
  MeteorSpawner.difficultyPhases s = MeteorSpawner.difficultyPhases MeteorSpawner.new ->
  (length (MeteorSpawner.recentTargets (spawnerStep s step)) <= 2)%nat /\
  MeteorSpawner.difficultyPhases (spawnerStep s step)
  = MeteorSpawner.difficultyPhases MeteorSpawner.new.
Proof.
  intros [H P]. destruct step; cbn [spawnerStep].
  - split; [now apply update_recent |].
    unfold MeteorSpawner.update, MeteorSpawner.updateCadence.
    destruct (MeteorSpawner.getCurrentDifficultyPhase _) as [phase |]; [| exact P].
    destruct (Rgeb _ _); [| exact P].
    unfold MeteorSpawner.trySpawnMeteor.
    destruct (Nat.leb _ _); [exact P |].
    destruct (MeteorSpawner.generateValidTarget _ _) as [target g1]. exact P.
  - split; assumption.
  - split; assumption.
  - split; assumption.
  - split; [cbn; lia | exact P].
Qed.

Lemma spawnerRun_recent (steps : list SpawnerStep) (s : MeteorSpawner.t) :
  (length (MeteorSpawner.recentTargets s) <= 2)%nat /\
  MeteorSpawner.difficultyPhases s = MeteorSpawner.difficultyPhases MeteorSpawner.new ->
  (length (MeteorSpawner.recentTargets (spawnerRun steps s)) <= 2)%nat /\
  MeteorSpawner.difficultyPhases (spawnerRun steps s)
  = MeteorSpawner.difficultyPhases MeteorSpawner.new.
Proof.
  revert s. induction steps as [| step steps IH]; intros s H; [exact H |].
  apply IH. now apply spawnerStep_recent.
Qed.

(** X10.  After any history of a spawner the list of recent targets holds at
    most two entries. *)
Theorem spawner_remembers_two_targets (steps : list SpawnerStep) :
  (length (MeteorSpawner.recentTargets (spawnerRun steps MeteorSpawner.new))
   <= MeteorSpawner.maxRecentTargets)%nat.
Proof.
  apply (spawnerRun_recent steps MeteorSpawner.new). split; [cbn; lia | reflexivity].
Qed.

Lemma no_phase_after_sixty (s : MeteorSpawner.t) :
  MeteorSpawner.difficultyPhases s = MeteorSpawner.difficultyPhases MeteorSpawner.new ->
  60 <= MeteorSpawner.gameTime s ->
  MeteorSpawner.getCurrentDifficultyPhase s = None.
Proof.
  intros P H. unfold MeteorSpawner.getCurrentDifficultyPhase. rewrite P.
  cbn [MeteorSpawner.new MeteorSpawner.difficultyPhases find startTime endTime].
  rewrite !(Rltb_false (MeteorSpawner.gameTime s)) by lra.
  rewrite !andb_false_r. reflexivity.
Qed.

(** X11.  An update that takes the clock of the spawner to sixty seconds or
    beyond creates no meteor: the list does not grow, no random number is
    drawn, and the spawn accumulator is not reset. *)
Theorem no_spawn_after_last_phase (steps : list SpawnerStep) (deltaTime : R) (g : Rng) :
  let s := spawnerRun steps MeteorSpawner.new in
  60 <= MeteorSpawner.gameTime s + deltaTime ->
  (length (MeteorSpawner.meteors (fst (MeteorSpawner.update deltaTime s g)))
   <= length (MeteorSpawner.meteors s))%nat /\
  snd (MeteorSpawner.update deltaTime s g) = g /\
  MeteorSpawner.spawnTimer (fst (MeteorSpawner.update deltaTime s g))
  = MeteorSpawner.spawnTimer s + deltaTime.
Proof.
  intros s H.
  destruct (spawnerRun_recent steps MeteorSpawner.new) as [_ P];
    [split; [cbn; lia | reflexivity] |].
  fold s in P.
  unfold MeteorSpawner.update, MeteorSpawner.updateCadence.
  rewrite no_phase_after_sixty; [| exact P | cbn; lra].
  cbn [fst snd MeteorSpawner.cleanupMeteors MeteorSpawner.updateMeteors
       MeteorSpawner.set_meteors MeteorSpawner.set_spawnTimer MeteorSpawner.set_gameTime
       MeteorSpawner.meteors MeteorSpawner.spawnTimer].
  split; [| split; reflexivity].
  eapply Nat.le_trans; [apply cleanupFilter_length |]. now rewrite length_map.
Qed.

Lemma no_spawn_after_last_phase_witness :
  snd (MeteorSpawner.update 0.5 (spawnerRun [SpawnerUpdate 59.75 coinHalf] MeteorSpawner.new)
         coinHalf) = coinHalf.
Proof.
  refine (proj1 (proj2 (no_spawn_after_last_phase [SpawnerUpdate 59.75 coinHalf] 0.5 coinHalf _))).
  unfold spawnerRun. cbn [fold_left spawnerStep]. rewrite update_clock. cbn. lra.
Defined.

(** ** CollisionSystem *)

Lemma creatureHits_app (a b : list CollisionEvent) :
  creatureHits (a ++ b) = (creatureHits a + creatureHits b)%nat.
Proof. unfold creatureHits. now rewrite filter_app, length_app. Qed.

Lemma hitCreatures_reports (meteor : Meteor.t) (hazard : Sphere) (directHit : bool)
    (cs : list Creature.t) :
  let r := CollisionSystem.hitCreatures meteor hazard directHit cs in
  (countAlive (fst r) + creatureHits (snd r) = countAlive cs)%nat /\
  length (fst r) = length cs.
Proof.
  cbv zeta. induction cs as [| c cs IH]; [split; reflexivity |].
  cbn [CollisionSystem.hitCreatures].
  destruct (CollisionSystem.hitCreatures meteor hazard directHit cs) as [rest events].
  cbn [fst snd] in IH. destruct IH as [IH L].
  unfold Creature.isCreatureAlive. destruct (Creature.isAlive c) eqn:A; cbn [negb].
  - destruct (CollisionSystem.sphereIntersectsSphere _ _); cbn [fst snd].
    + rewrite !countAlive_cons. cbn [Creature.takeDamage Creature.isAlive]. rewrite A.
      unfold creatureHits in *. cbn [filter isCreatureEvent length]. lia.
    + rewrite !countAlive_cons, A. cbn [length]. lia.
  - cbn [fst snd]. rewrite !countAlive_cons, A. cbn [length]. lia.
Qed.

Lemma hitPlayer_reports (meteor : Meteor.t) (hazard : Sphere) (origin : Vec) (force : R)
    (directHit : bool) (player : Player.t) :
  creatureHits (snd (CollisionSystem.hitPlayer meteor hazard origin force directHit player))
  = 0%nat.
Proof.
  unfold CollisionSystem.hitPlayer.
  destruct (CollisionSystem.sphereIntersectsSphere _ _); reflexivity.
Qed.

Lemma checkMeteorExplosions_reports (player : Player.t) (cs : list Creature.t)
    (ms : list Meteor.t) :
  let r := CollisionSystem.checkMeteorExplosions player cs ms in
  (countAlive (snd (fst r)) + creatureHits (snd r) = countAlive cs)%nat /\
  length (snd (fst r)) = length cs.
Proof.
  cbv zeta. revert player cs. induction ms as [| m ms IH]; intros player cs;
    [split; cbn; unfold creatureHits; cbn; lia |].
  cbn [CollisionSystem.checkMeteorExplosions].
  destruct (negb (Meteor.isExploded m)); [apply IH |].
  pose proof (hitCreatures_reports m (Meteor.getExplosionSphere m) false cs) as H1.
  destruct (CollisionSystem.hitCreatures _ _ _ cs) as [cs1 ev1].
  pose proof (hitPlayer_reports m (Meteor.getExplosionSphere m) (Meteor.targetPosition m)
                8 false player) as H2.
  destruct (CollisionSystem.hitPlayer _ _ _ _ _ player) as [p1 ev2].
  specialize (IH p1 cs1).
  destruct (CollisionSystem.checkMeteorExplosions p1 cs1 ms) as [[p2 cs2] events].
  cbn [fst snd] in *. rewrite !creatureHits_app, H2.
  destruct H1 as [H1 L1], IH as [IH L].
  split; [| congruence].
  change (creatureHits [meteor_explosion m (Meteor.targetPosition m)
                          (radius (Meteor.getExplosionSphere m))]) with 0%nat.
  lia.
Qed.

Lemma checkDirectMeteorHits_reports (player : Player.t) (cs : list Creature.t)
    (ms : list Meteor.t) :
  let r := CollisionSystem.checkDirectMeteorHits player cs ms in
  (countAlive (snd (fst r)) + creatureHits (snd r) = countAlive cs)%nat /\
  length (snd (fst r)) = length cs.
Proof.
  cbv zeta. revert player cs. induction ms as [| m ms IH]; intros player cs;
    [split; cbn; unfold creatureHits; cbn; lia |].
  cbn [CollisionSystem.checkDirectMeteorHits].
  destruct (negb (MeteorState_eqb (Meteor.state m) Falling)); [apply IH |].
  pose proof (hitCreatures_reports m (Meteor.getBoundingSphere m) true cs) as H1.
  destruct (CollisionSystem.hitCreatures _ _ _ cs) as [cs1 ev1].
  pose proof (hitPlayer_reports m (Meteor.getBoundingSphere m) (Meteor.position m)
                10 true player) as H2.
  destruct (CollisionSystem.hitPlayer _ _ _ _ _ player) as [p1 ev2].
  specialize (IH p1 cs1).
  destruct (CollisionSystem.checkDirectMeteorHits p1 cs1 ms) as [[p2 cs2] events].
  cbn [fst snd] in *. rewrite !creatureHits_app, H2.
  destruct H1 as [H1 L1], IH as [IH L].
  split; [lia | congruence].
Qed.

Lemma punchLoop_reports (sphere : Sphere) (ms : list Meteor.t) :
  creatureHits (snd (CollisionSystem.punchLoop sphere ms)) = 0%nat.
Proof.
  induction ms as [| m ms IH]; [reflexivity |].
  cbn [CollisionSystem.punchLoop].
  destruct (CollisionSystem.punchLoop sphere ms) as [rest events]. cbn [snd] in IH.
  destruct (negb _); [exact IH |].
  destruct (CollisionSystem.sphereIntersectsSphere _ _); [| exact IH].
  cbn [snd]. unfold creatureHits in *. cbn [filter isCreatureEvent]. exact IH.
Qed.

(** X12.  One collision resolution emits exactly one [meteor_hit_creature]
    event for each creature it kills: the living creatures afterwards and the
    events add up to the living creatures before, and no creature is added or
    removed. *)
Theorem every_death_is_reported_once (player : Player.t) (creatures : list Creature.t)
    (meteors : list Meteor.t) :
  let out := CollisionSystem.update player creatures meteors in
  (countAlive (CollisionSystem.creatures out) + creatureHits (CollisionSystem.events out)
   = countAlive creatures)%nat /\
  length (CollisionSystem.creatures out) = length creatures.
Proof.
  cbv zeta. unfold CollisionSystem.update.
  assert (P : creatureHits (snd (CollisionSystem.checkPunchVsMeteors player meteors)) = 0%nat).
  { unfold CollisionSystem.checkPunchVsMeteors.
    destruct (Player.getPunchSphere player); [apply punchLoop_reports | reflexivity]. }
  destruct (CollisionSystem.checkPunchVsMeteors player meteors) as [ms1 ev1].
  pose proof (checkMeteorExplosions_reports player creatures ms1) as H2.
  destruct (CollisionSystem.checkMeteorExplosions player creatures ms1) as [[p2 cs2] ev2].
  pose proof (checkDirectMeteorHits_reports p2 cs2 ms1) as H3.
  destruct (CollisionSystem.checkDirectMeteorHits p2 cs2 ms1) as [[p3 cs3] ev3].
  cbn [fst snd CollisionSystem.creatures CollisionSystem.events] in *.
  rewrite !creatureHits_app, P. destruct H2, H3. split; [lia | congruence].
Qed.

Lemma punchLoop_telegraph (sphere : Sphere) (ms : list Meteor.t) :
  Forall (fun m => Meteor.state m = Telegraph) ms ->
  CollisionSystem.punchLoop sphere ms = (ms, []).
Proof.
  intros H. induction H as [| m ms Hm _ IH]; [reflexivity |].
  cbn [CollisionSystem.punchLoop]. rewrite IH.
  unfold Meteor.canBeDestroyed. rewrite Hm. reflexivity.
Qed.

(** X13.  Meteors that are all telegraphing take no part in the collisions:
    the resolution changes neither player, creatures nor meteors and emits no
    event. *)
Theorem telegraphs_are_harmless (player : Player.t) (creatures : list Creature.t)
    (meteors : list Meteor.t) :
  Forall (fun m => Meteor.state m = Telegraph) meteors ->
  CollisionSystem.update player creatures meteors
  = CollisionSystem.mkOutcome player creatures meteors [].
Proof.
  intros H. unfold CollisionSystem.update.
  assert (P : CollisionSystem.checkPunchVsMeteors player meteors = (meteors, [])).
  { unfold CollisionSystem.checkPunchVsMeteors.
    destruct (Player.getPunchSphere player); [now apply punchLoop_telegraph | reflexivity]. }
  rewrite P. clear P.
  assert (E : CollisionSystem.checkMeteorExplosions player creatures meteors
              = (player, creatures, [])).
  { induction H as [| m ms Hm _ IH]; [reflexivity |].
    cbn [CollisionSystem.checkMeteorExplosions]. unfold Meteor.isExploded.
    rewrite Hm. cbn [MeteorState_eqb negb]. exact IH. }
  assert (D : CollisionSystem.checkDirectMeteorHits player creatures meteors
              = (player, creatures, [])).
  { clear E. induction H as [| m ms Hm _ IH]; [reflexivity |].
    cbn [CollisionSystem.checkDirectMeteorHits]. rewrite Hm.
    cbn [MeteorState_eqb negb]. exact IH. }
  rewrite E, D. reflexivity.
Qed.

Lemma telegraphs_are_harmless_witness :
  CollisionSystem.update playerAtRest [creatureAtTarget] [Meteor.new (Vector3.mk 0 0 0)]
  = CollisionSystem.mkOutcome playerAtRest [creatureAtTarget]
      [Meteor.new (Vector3.mk 0 0 0)] [].
Proof.
  apply telegraphs_are_harmless. constructor; [reflexivity | constructor].
Defined.

(** ** Player: what an update reads, and where it leaves the player *)

Lemma updateGroundCheck_rests (q : Player.t) :
  let p' := Player.updateGroundCheck q in
  let groundLevel :=
    getTerrainHeight (Vector3.x (Player.position p')) (Vector3.z (Player.position p')) + 0.6 in
  if Player.isGrounded p'
  then Vector3.y (Player.position p') = groundLevel /\ Vector3.y (Player.velocity p') = 0
  else groundLevel < Vector3.y (Player.position p') \/ 0 < Vector3.y (Player.velocity p').
Proof.
  cbv zeta. unfold Player.updateGroundCheck.
  destruct (Player.isGrounded q) eqn:G.
  - cbn. rewrite G. split; reflexivity.
  - destruct (Rleb (Vector3.y (Player.position q)) _) eqn:A.
    + destruct (Rleb (Vector3.y (Player.velocity q)) 0) eqn:B; cbn [andb].
      * cbn. split; reflexivity.
      * rewrite G. right. now apply Rleb_nspec in B.
    + cbn [andb]. rewrite G. left. now apply Rleb_nspec in A.
Qed.

(** X14.  After an update with a delta time other than zero, a grounded
    player stands exactly on the terrain with no vertical velocity, and a
    player that is not grounded is above the terrain or moving upwards.  (At
    delta time zero with a movement input [updateMovement] divides zero by
    zero, which the real numbers do not represent.) *)
Theorem player_rests_on_the_terrain (deltaTime : R) (inputState : InputState)
    (cameraDirection : option Vec) (p : Player.t) :
  deltaTime <> 0 ->
  let p' := Player.update deltaTime inputState cameraDirection p in
  let groundLevel :=
    getTerrainHeight (Vector3.x (Player.position p')) (Vector3.z (Player.position p')) + 0.6 in
  if Player.isGrounded p'
  then Vector3.y (Player.position p') = groundLevel /\ Vector3.y (Player.velocity p') = 0
  else groundLevel < Vector3.y (Player.position p') \/ 0 < Vector3.y (Player.velocity p').
Proof.
  intros _. unfold Player.update, Player.updateKnockback.
  destruct (Player.isKnockedBack p); apply updateGroundCheck_rests.
Qed.

Lemma player_rests_on_the_terrain_witness :
  0.1 <> 0 /\
  (if Player.isGrounded (Player.update 0.1 busyInput None playerAtRest)
   then Vector3.y (Player.position (Player.update 0.1 busyInput None playerAtRest))
        = getTerrainHeight
            (Vector3.x (Player.position (Player.update 0.1 busyInput None playerAtRest)))
            (Vector3.z (Player.position (Player.update 0.1 busyInput None playerAtRest)))
          + 0.6 /\
        Vector3.y (Player.velocity (Player.update 0.1 busyInput None playerAtRest)) = 0
   else getTerrainHeight
          (Vector3.x (Player.position (Player.update 0.1 busyInput None playerAtRest)))
          (Vector3.z (Player.position (Player.update 0.1 busyInput None playerAtRest)))
        + 0.6
        < Vector3.y (Player.position (Player.update 0.1 busyInput None playerAtRest)) \/
        0 < Vector3.y (Player.velocity (Player.update 0.1 busyInput None playerAtRest))).
Proof.
  assert (H : 0.1 <> 0) by lra.
  split; [exact H |].
  exact (player_rests_on_the_terrain 0.1 busyInput None playerAtRest H).
Defined.

(** X15.  The player reads only the movement axes and the jump edge of an
    input snapshot: the punch button, the punch edge and the held jump
    button change nothing.  The jump edge itself is ignored while the player
    is airborne. *)
Theorem player_ignores_the_punch_button (deltaTime : R) (mx mz : R)
    (jump punch jumpPressed punchPressed jump' punch' jumpPressed' punchPressed' : bool)
    (cameraDirection : option Vec) (p : Player.t) :
  Player.update deltaTime (mkInput mx mz jump punch jumpPressed punchPressed)
                cameraDirection p
  = Player.update deltaTime (mkInput mx mz jump' punch' jumpPressed punchPressed')
                  cameraDirection p /\
  (Player.isGrounded p = false ->
   Player.update deltaTime (mkInput mx mz jump punch jumpPressed punchPressed)
                 cameraDirection p
   = Player.update deltaTime (mkInput mx mz jump' punch' jumpPressed' punchPressed')
                   cameraDirection p).
Proof.
  split; [reflexivity |].
  intros G. unfold Player.update. destruct (Player.isKnockedBack p); [reflexivity |].
  assert (M : forall i i', movement_x i = movement_x i' -> movement_z i = movement_z i' ->
                Player.updateMovement deltaTime i cameraDirection p
                = Player.updateMovement deltaTime i' cameraDirection p).
  { intros i i' Hx Hz. unfold Player.updateMovement. rewrite Hx, Hz. reflexivity. }
  set (i := mkInput mx mz jump punch jumpPressed punchPressed).
  set (i' := mkInput mx mz jump' punch' jumpPressed' punchPressed').
  assert (J : Player.updateJump i (Player.updateMovement deltaTime i cameraDirection p)
              = Player.updateJump i' (Player.updateMovement deltaTime i' cameraDirection p)).
  { rewrite (M i i' eq_refl eq_refl).
    destruct (updateMovement_keeps deltaTime i' cameraDirection p) as (K & _).
    cbv zeta in K. unfold Player.updateJump. rewrite K, G.
    rewrite !andb_false_r. reflexivity. }
  rewrite J. reflexivity.
Qed.

Lemma player_ignores_the_punch_button_witness :
  Player.isGrounded Player.new = false /\
  Player.update 0.1 (mkInput 0 0 true true true true) None Player.new
  = Player.update 0.1 (mkInput 0 0 false false false false) None Player.new.
Proof.
  split; [reflexivity |].
  exact (proj2 (player_ignores_the_punch_button 0.1 0 0 true true true true
                  false false false false None Player.new) eq_refl).
Defined.

(** ** CollisionSystem: the static utilities *)

Lemma normalize_origin : Vector3.normalize (Vector3.mk 0 0 0) = Vector3.mk 0 0 0.
Proof.
  unfold Vector3.normalize, Vector3.divideScalar, Vector3.multiplyScalar.
  cbn [Vector3.x Vector3.y Vector3.z]. apply vec_eq; lra.
Qed.

(** X16.  For the centre of the sphere itself [getClosestPointOnSphere]
    returns the centre, not a point of the surface: [normalize] leaves the
    zero vector at zero; [isPointInsideSphere] accepts that point exactly when
    the radius is not negative.  For any other point and a radius that is not
    negative, over the real numbers, the returned point is at the distance of
    the radius from the centre; the double-precision arithmetic of the code
    reaches the radius only up to rounding. *)
Theorem closest_point_is_on_the_sphere (sphere : Sphere) (point : Vec) :
  (CollisionSystem.getClosestPointOnSphere sphere (center sphere) = center sphere /\
   CollisionSystem.isPointInsideSphere sphere
     (CollisionSystem.getClosestPointOnSphere sphere (center sphere))
   = Rleb 0 (radius sphere)) /\
  (Vector3.distanceTo point (center sphere) <> 0 ->
   0 <= radius sphere ->
   Vector3.distanceTo (center sphere) (CollisionSystem.getClosestPointOnSphere sphere point)
   = radius sphere).
Proof.
  assert (C : CollisionSystem.getClosestPointOnSphere sphere (center sphere) = center sphere).
  { unfold CollisionSystem.getClosestPointOnSphere.
    replace (Vector3.sub (center sphere) (center sphere)) with (Vector3.mk 0 0 0)
      by (unfold Vector3.sub; apply vec_eq; lra).
    rewrite normalize_origin. destruct (center sphere) as [a b c].
    unfold Vector3.add, Vector3.multiplyScalar. cbn [Vector3.x Vector3.y Vector3.z].
    apply vec_eq; lra. }
  split; [split; [exact C |] |].
  - rewrite C. unfold CollisionSystem.isPointInsideSphere, Vector3.distanceTo.
    rewrite (length_of _ 0); [reflexivity | lra |].
    unfold Vector3.sub. cbn [Vector3.x Vector3.y Vector3.z]. lra.
  - intros Hd Hr.
    unfold Vector3.distanceTo in *. unfold CollisionSystem.getClosestPointOnSphere.
    pose proof (length_normalize _ Hd) as N.
    pose proof (length_sq (Vector3.normalize (Vector3.sub point (center sphere)))) as L.
    rewrite N in L.
    set (d := Vector3.normalize (Vector3.sub point (center sphere))) in *.
    apply length_of; [exact Hr |].
    unfold Vector3.sub, Vector3.add, Vector3.multiplyScalar.
    cbn [Vector3.x Vector3.y Vector3.z]. nra.
Qed.

Lemma closest_point_is_on_the_sphere_witness :
  Vector3.distanceTo (Vector3.mk 0 0 0)
    (CollisionSystem.getClosestPointOnSphere (mkSphere (Vector3.mk 0 0 0) 2)
       (Vector3.mk 3 0 4)) = 2.
Proof.
  refine (proj2 (closest_point_is_on_the_sphere (mkSphere (Vector3.mk 0 0 0) 2)
                   (Vector3.mk 3 0 4)) _ _).
  - unfold Vector3.distanceTo. rewrite (length_of _ 5); [lra | lra | simpl; lra].
  - simpl; lra.
Defined.

(** ** MeteorSpawner: the difficulty label *)

(** X17.  The label of [getCurrentDifficulty] names the phase that paces the
    spawner. *)
Theorem difficulty_label_matches_phase (steps : list SpawnerStep) :
  let s := spawnerRun steps MeteorSpawner.new in
  let t := MeteorSpawner.gameTime s in
  match MeteorSpawner.getCurrentDifficultyPhase s with
  | None =>
      MeteorSpawner.getCurrentDifficulty s = Difficulty.beyond_phases /\ (t < 0 \/ 60 <= t)
  | Some phase =>
      (MeteorSpawner.getCurrentDifficulty s = Difficulty.easy /\
       spawnInterval phase = 1.2 /\ 0 <= t < 20) \/
      (MeteorSpawner.getCurrentDifficulty s = Difficulty.normal /\
       spawnInterval phase = 0.9 /\ 20 <= t < 40) \/
      (MeteorSpawner.getCurrentDifficulty s = Difficulty.hard /\
       spawnInterval phase = 0.7 /\ 40 <= t < 60)
  end.
Proof.
  intros s t.
  destruct (spawnerRun_recent steps MeteorSpawner.new) as [_ P];
    [split; [cbn; lia | reflexivity] |].
  fold s in P. unfold MeteorSpawner.getCurrentDifficulty.
  unfold MeteorSpawner.getCurrentDifficultyPhase. rewrite P. fold t.
  cbn [MeteorSpawner.new MeteorSpawner.difficultyPhases find startTime endTime].
  unfold Rgeb.
  destruct (Rleb 0 t) eqn:A0; [apply Rleb_spec in A0 | apply Rleb_nspec in A0];
  destruct (Rltb t 20) eqn:B20; [apply Rltb_spec in B20 | apply Rltb_nspec in B20 | apply Rltb_spec in B20 | apply Rltb_nspec in B20];
    cbn [andb].
  - left. repeat split; try reflexivity; lra.
  - rewrite (Rleb_true 20 t) by lra.
    destruct (Rltb t 40) eqn:B40; [apply Rltb_spec in B40 | apply Rltb_nspec in B40];
      cbn [andb].
    + right; left. repeat split; try reflexivity; lra.
    + rewrite (Rleb_true 40 t) by lra.
      destruct (Rltb t 60) eqn:B60; [apply Rltb_spec in B60 | apply Rltb_nspec in B60];
        cbn [andb].
      * right; right. repeat split; try reflexivity; lra.
      * split; [reflexivity | right; lra].
  - rewrite (Rleb_false 20 t), (Rleb_false 40 t) by lra. cbn [andb].
    split; [reflexivity | left; lra].
  - lra.
Qed.

(** ** Time and GameLoop *)

Lemma timeStep_total (tm : Time.t) (step : TimeStep) :
  Time._totalTime tm = Time._lastFrameTime tm / 1000 ->
  Time._totalTime (timeStep tm step) = Time._lastFrameTime (timeStep tm step) / 1000.
Proof.
  intros H. destruct step; cbn [timeStep Time.update Time.set_timeScale Time._totalTime
                                 Time._lastFrameTime]; lra.
Qed.

Lemma timeRun_total (steps : list TimeStep) (tm : Time.t) :
  Time._totalTime tm = Time._lastFrameTime tm / 1000 ->
  Time._totalTime (timeRun steps tm) = Time._lastFrameTime (timeRun steps tm) / 1000.
Proof.
  revert tm. induction steps as [| step steps IH]; intros tm H; [exact H |].
  apply IH. now apply timeStep_total.
Qed.

Lemma timeRun_nonneg (steps : list TimeStep) (tm : Time.t) :
  0 <= Time._deltaTime tm -> 0 <= Time._timeScale tm ->
  timestampsAscend (Time._lastFrameTime tm) steps ->
  0 <= Time._deltaTime (timeRun steps tm) /\ 0 <= Time._timeScale (timeRun steps tm).
Proof.
  revert tm. induction steps as [| step steps IH]; intros tm Hd Hs Ha; [split; assumption |].
  destruct step as [currentTime | value]; cbn [timestampsAscend] in Ha.
  - destruct Ha as [Hle Ha]. apply IH; cbn; try assumption. lra.
  - apply IH; cbn; try assumption. apply Rmax_l.
Qed.

Lemma timeRun_framesOnly (steps : list TimeStep) (tm tm' : Time.t) :
  Time._lastFrameTime tm = Time._lastFrameTime tm' ->
  Time._totalTime tm = Time._totalTime tm' ->
  Time._totalTime (timeRun steps tm) = Time._totalTime (timeRun (framesOnly steps) tm').
Proof.
  revert tm tm'. induction steps as [| step steps IH]; intros tm tm' Hl Ht; [exact Ht |].
  destruct step as [currentTime | value]; cbn [framesOnly filter];
    fold (framesOnly steps).
  - change (timeRun (TimeUpdate currentTime :: steps) tm)
      with (timeRun steps (Time.update currentTime tm)).
    change (timeRun (TimeUpdate currentTime :: framesOnly steps) tm')
      with (timeRun (framesOnly steps) (Time.update currentTime tm')).
    apply IH; unfold Time.update; cbn [Time._lastFrameTime Time._totalTime];
      [reflexivity | now rewrite Hl, Ht].
  - change (timeRun (TimeSetScale value :: steps) tm)
      with (timeRun steps (Time.set_timeScale value tm)).
    apply IH; assumption.
Qed.

(** X18.  The time scale never enters the total time of the clock: it is
    the total of the same frames without the assignments to the time scale.
    When the timestamps of the frames never go back, the delta time read from
    the clock is never negative, whatever was assigned: the setter stores no
    negative scale.  Over the real numbers the total time is the timestamp of
    the latest frame in seconds; the code adds up rounded frame deltas, so in
    its double-precision arithmetic the two agree only up to rounding. *)
Theorem clock_follows_the_timestamps (steps : list TimeStep) :
  Time.totalTime (timeRun steps Time.new)
  = Time.totalTime (timeRun (framesOnly steps) Time.new) /\
  (timestampsAscend 0 steps -> 0 <= Time.deltaTime (timeRun steps Time.new)) /\
  Time.totalTime (timeRun steps Time.new)
  = Time._lastFrameTime (timeRun steps Time.new) / 1000.
Proof.
  split; [now apply timeRun_framesOnly |]. split.
  - intros H. destruct (timeRun_nonneg steps Time.new) as [Hd Hs];
      cbn; try lra; try exact H.
    unfold Time.deltaTime. nra.
  - apply timeRun_total. cbn. lra.
Qed.

Lemma clock_follows_the_timestamps_witness :
  0 <= Time.deltaTime
         (timeRun [TimeUpdate 16; TimeSetScale (-3); TimeUpdate 33] Time.new).
Proof.
  apply (proj1 (proj2 (clock_follows_the_timestamps
                         [TimeUpdate 16; TimeSetScale (-3); TimeUpdate 33]))).
  cbn. lra.
Defined.

Lemma sumR_app (a b : list R) : sumR (a ++ b) = sumR a + sumR b.
Proof.
  unfold sumR. induction a as [| x a IH]; cbn [app fold_right]; [lra |].
  rewrite IH. lra.
Qed.

Lemma loop_invariant (currentTime : R) (l : GameLoop.t) :
  GameLoop.queue l = [] ->
  GameLoop.renders l = length (GameLoop.updates l) ->
  sumR (GameLoop.updates l) = Time._totalTime (GameLoop.time l) ->
  Time._timeScale (GameLoop.time l) = 1 ->
  loopInvariant (GameLoop.loop currentTime l).
Proof.
  intros Hq Hr Hs Ht. unfold GameLoop.loop, loopInvariant.
  destruct (GameLoop.isRunning l) eqn:E; cbn [negb].
  - cbn [GameLoop.queue GameLoop.animationId GameLoop.isRunning GameLoop.renders
         GameLoop.updates GameLoop.time]. rewrite Hq.
    split; [right; exists (GameLoop.nextId l); split; reflexivity |].
    split; [exact I |]. split; [rewrite length_app; cbn; lia |].
    rewrite sumR_app. unfold Time.deltaTime.
    cbn [Time.update Time._deltaTime Time._timeScale Time._totalTime sumR fold_right].
    rewrite Hs, Ht. split; [lra | reflexivity].
  - rewrite E. repeat split; try assumption. now left.
Qed.

Lemma loopStep_invariant (l : GameLoop.t) (step : LoopStep) :
  loopInvariant l -> loopInvariant (loopStep l step).
Proof.
  intros (Hq & Hs & Hr & Hsum & Ht). destruct step as [now | | currentTime]; cbn [loopStep].
  - unfold GameLoop.start. destruct (GameLoop.isRunning l) eqn:E.
    + unfold loopInvariant. rewrite E. repeat split; assumption.
    + apply loop_invariant; cbn; assumption.
  - unfold GameLoop.stop, loopInvariant.
    destruct Hq as [Hq | (id & Hq & Ha)].
    + destruct (GameLoop.animationId l); cbn; rewrite Hq; cbn;
        repeat split; try assumption; now left.
    + rewrite Ha. cbn. rewrite Hq. cbn. rewrite Nat.eqb_refl. cbn.
      repeat split; try assumption. now left.
  - destruct Hq as [Hq | (id & Hq & Ha)]; rewrite Hq.
    + unfold loopInvariant. repeat split; try assumption. now left.
    + apply loop_invariant; cbn; first [reflexivity | assumption].
Qed.

(** X19.  Whatever the order of [start()], [stop()] and animation frames: at
    most one frame is queued, none once the loop is stopped; the render
    callback has run as often as the update callback; and the delta times
    handed to the update callback add up to the total time of the clock (which
    nothing but the loop touches). *)
Theorem loop_runs_one_chain (steps : list LoopStep) :
  let l := loopRun steps GameLoop.new in
  (length (GameLoop.queue l) <= 1)%nat /\
  (if GameLoop.isRunning l then True else GameLoop.queue l = []) /\
  GameLoop.renders l = length (GameLoop.updates l) /\
  sumR (GameLoop.updates l) = Time.totalTime (GameLoop.time l).
Proof.
  cbv zeta.
  assert (H : loopInvariant (loopRun steps GameLoop.new)).
  { assert (H0 : loopInvariant GameLoop.new).
    { unfold loopInvariant. cbn. repeat split; try reflexivity. now left. }
    revert H0. generalize GameLoop.new.
    induction steps as [| step steps IH]; intros l H; [exact H |].
    apply IH. now apply loopStep_invariant. }
  destruct H as (Hq & Hs & Hr & Hsum & _).
  repeat split; try assumption.
  destruct Hq as [-> | (id & -> & _)]; cbn; lia.
Qed.

(** ** VirtualStick and InputManager *)

Lemma sqrt_le_sq (a l : R) : 0 <= a -> 0 <= l -> sqrt a <= l -> a <= l * l.
Proof.
  intros Ha Hl H. pose proof (sqrt_sqrt a Ha) as S. pose proof (sqrt_pos a). nra.
Qed.

Lemma onTouchMove_invariant (x y : R) (s : VirtualStick.t) :
  stickInvariant s -> stickInvariant (VirtualStick.onTouchMove x y s).
Proof.
  intros [Hb Hd]. unfold VirtualStick.onTouchMove.
  destruct (VirtualStick.isDragging s) eqn:E; cbn [negb].
  - unfold stickInvariant. cbn [VirtualStick.input VirtualStick.isDragging fst snd].
    split; [| exact I].
    set (dx := x - fst (VirtualStick.startPos s)).
    set (dy := y - snd (VirtualStick.startPos s)).
    destruct (Rgtb (sqrt (dx * dx + dy * dy)) 40) eqn:G; cbn [fst snd].
    + pose proof (sin2_cos2 (atan2 dy dx)) as T. unfold Rsqr in T.
      set (a := atan2 dy dx) in *.
      replace (cos a * 40 / 40) with (cos a) by lra.
      replace (sin a * 40 / 40) with (sin a) by lra. lra.
    + unfold Rgtb in G. apply Rltb_nspec in G.
      assert (H : dx * dx + dy * dy <= 40 * 40) by (apply sqrt_le_sq; nra).
      nra.
  - split; [exact Hb |]. rewrite E. exact Hd.
Qed.

Lemma stick_step_invariant (f : VirtualStick.t -> VirtualStick.t)
    (m : InputManager.t) :
  (forall s, stickInvariant s -> stickInvariant (f s)) ->
  match InputManager.virtualStick m with
  | Some s => stickInvariant s | None => True end ->
  match InputManager.virtualStick (onStick f m) with
  | Some s => stickInvariant s | None => True end.
Proof.
  intros Hf H. unfold onStick. cbn [InputManager.virtualStick].
  destruct (InputManager.virtualStick m) as [s |]; cbn; [now apply Hf | exact I].
Qed.

Lemma update_stick (m : InputManager.t) :
  InputManager.virtualStick (InputManager.update m) = InputManager.virtualStick m.
Proof. reflexivity. Qed.

Lemma inputRun_stick (steps : list InputStep) (m : InputManager.t) :
  match InputManager.virtualStick m with
  | Some s => stickInvariant s | None => True end ->
  match InputManager.virtualStick (inputRun steps m) with
  | Some s => stickInvariant s | None => True end.
Proof.
  revert m. induction steps as [| step steps IH]; intros m H; [exact H |].
  apply IH. destruct step; cbn [inputStep]; try exact H.
  - unfold InputManager.mousedown. destruct (Nat.eqb _ 0); exact H.
  - unfold InputManager.mouseup. destruct (Nat.eqb _ 0); exact H.
  - apply stick_step_invariant; [| exact H].
    intros s [Hb Hd]. unfold stickInvariant. cbn. split; [exact Hb | exact I].
  - apply stick_step_invariant; [| exact H]. intros s. apply onTouchMove_invariant.
  - apply stick_step_invariant; [| exact H].
    intros s _. unfold stickInvariant. cbn. split; [lra | reflexivity].
Qed.




Lemma update_keys (m : InputManager.t) :
  InputManager.keys (InputManager.update m) = InputManager.keys m.
Proof. reflexivity. Qed.

(** X21.  The pressed flags are edges: [jumpPressed] and [punchPressed] are
    set by the first [update] that sees its key down, and an [update] that
    follows another with no event in between clears both. *)
Theorem pressed_flags_last_one_update (m : InputManager.t) :
  let first := InputManager.getInputState (InputManager.update m) in
  let second := InputManager.getInputState (InputManager.update (InputManager.update m)) in
  jumpPressed first
  = InputManager.has Key.Space m && negb (jump (InputManager.getInputState m)) /\
  jumpPressed second = false /\
  punchPressed second = false /\
  jump second = jump first /\
  punch second = punch first.
Proof.
  cbv zeta. unfold InputManager.getInputState.
  split; [reflexivity |].
  unfold InputManager.update at 1 3 5 7.
  cbn [InputManager.inputState jumpPressed punchPressed jump punch].
  unfold InputManager.has. cbn [InputManager.updateMovementFromKeyboard InputManager.keys].
  rewrite !update_keys.
  cbn [InputManager.update InputManager.inputState jump punch InputManager.keys
       InputManager.updateMovementFromKeyboard].
  unfold InputManager.has. cbn [InputManager.keys].
  repeat split; try reflexivity; apply andb_negb_r.
Qed.

(** X22.  A mouse button never reaches the game as a punch: after an
    [update] the punch flag is the state of the J key alone, and a left click
    made before that [update] keeps [punchPressed] down even if J has just
    been pressed. *)
Theorem mouse_click_is_never_a_punch (button : nat) (m : InputManager.t) :
  punch (InputManager.getInputState
           (InputManager.update (InputManager.mousedown button m)))
  = InputManager.has Key.KeyJ m /\
  punchPressed (InputManager.getInputState
                  (InputManager.update (InputManager.mousedown 0 m)))
  = false.
Proof.
  split.
  - unfold InputManager.mousedown. destruct (Nat.eqb button 0); reflexivity.
  - cbn. apply andb_false_r.
Qed.

(** X23.  On a device that reports touch support the keyboard never moves the
    player: after [update] the movement is the input of the virtual stick,
    which is zero whenever no touch is dragging it. *)
Theorem touch_device_ignores_movement_keys (steps : list InputStep) :
  let m := inputRun steps (InputManager.new true) in
  let i := InputManager.getInputState (InputManager.update m) in
  match InputManager.virtualStick m with
  | Some stick =>
      (movement_x i, movement_z i) = VirtualStick.getInput stick /\
      (if VirtualStick.isDragging stick then True
       else (movement_x i, movement_z i) = (0, 0))
  | None => False
  end.
Proof.
  cbv zeta.
  assert (H0 : match InputManager.virtualStick (InputManager.new true) with
               | Some s => stickInvariant s | None => False end).
  { cbn. unfold stickInvariant. cbn. split; [lra | reflexivity]. }
  assert (H : match InputManager.virtualStick (inputRun steps (InputManager.new true)) with
              | Some s => stickInvariant s | None => False end).
  { revert H0. generalize (InputManager.new true).
    induction steps as [| step steps IH]; intros m H; [exact H |].
    apply IH. pose proof (inputRun_stick [step] m) as S. cbn [inputRun fold_left] in S.
    assert (N : InputManager.virtualStick (inputStep m step) <> None).
    { destruct (InputManager.virtualStick m) as [s |] eqn:E; [| contradiction].
      destruct step; cbn [inputStep]; unfold InputManager.keydown, InputManager.keyup,
        InputManager.mousedown, InputManager.mouseup, onStick;
        try (destruct (Nat.eqb _ 0)); cbn [InputManager.virtualStick]; rewrite ?E;
        try discriminate.
      rewrite update_stick, E. discriminate. }
    destruct (InputManager.virtualStick (inputStep m step)) as [s' |]; [| congruence].
    apply S. destruct (InputManager.virtualStick m); [exact H | contradiction]. }
  set (m := inputRun steps (InputManager.new true)) in *.
  unfold InputManager.getInputState, InputManager.update.
  cbn [InputManager.inputState movement_x movement_z].
  change (InputManager.virtualStick (InputManager.updateMovementFromKeyboard m))
    with (InputManager.virtualStick m).
  destruct (InputManager.virtualStick m) as [s |]; [| exact H].
  cbn [InputManager.set_movement movement_x movement_z].
  unfold VirtualStick.getInput. destruct H as [_ Hd].
  split; [now destruct (VirtualStick.input s) |].
  destruct (VirtualStick.isDragging s); [exact I |]. rewrite Hd. reflexivity.
Qed.

(** ** The angle of the virtual stick *)






(** ** CameraController *)

Lemma lerp_distance (a v : Vec) (alpha : R) :
  alpha <= 1 ->
  Vector3.distanceTo (Vector3.lerp a v alpha) v = (1 - alpha) * Vector3.distanceTo a v.
Proof.
  intros H. unfold Vector3.distanceTo.
  replace (Vector3.sub (Vector3.lerp a v alpha) v)
    with (Vector3.multiplyScalar (Vector3.sub a v) (1 - alpha)).
  - apply length_multiplyScalar. lra.
  - unfold Vector3.multiplyScalar, Vector3.sub, Vector3.lerp.
    cbn [Vector3.x Vector3.y Vector3.z]. apply vec_eq; ring.
Qed.

Lemma update_distance (deltaTime : R) (c : CameraController.t) :
  Vector3.distanceTo (CameraController.currentPosition (CameraController.update deltaTime c))
                     (CameraController.targetPosition c)
  = (1 - Rmin (deltaTime * 5) 1)
    * Vector3.distanceTo (CameraController.currentPosition c)
                         (CameraController.targetPosition c).
Proof.
  unfold CameraController.update. cbn [CameraController.currentPosition].
  apply lerp_distance. apply Rmin_r.
Qed.

Lemma cameraRun_target (deltaTimes : list R) (c : CameraController.t) :
  CameraController.targetPosition (cameraRun deltaTimes c)
  = CameraController.targetPosition c.
Proof.
  revert c. induction deltaTimes as [| dt dts IH]; intros c; [reflexivity |].
  unfold cameraRun in *. cbn [fold_left]. now rewrite IH.
Qed.

Lemma lerp_fixed (v : Vec) (alpha : R) : Vector3.lerp v v alpha = v.
Proof.
  destruct v as [a b c]. unfold Vector3.lerp. cbn [Vector3.x Vector3.y Vector3.z].
  apply vec_eq; ring.
Qed.

Lemma cameraRun_arrived (deltaTimes : list R) (c : CameraController.t) :
  CameraController.currentPosition c = CameraController.targetPosition c ->
  CameraController.currentPosition (cameraRun deltaTimes c) = CameraController.targetPosition c /\
  (deltaTimes <> [] ->
   CameraController.cameraPosition (cameraRun deltaTimes c) = CameraController.targetPosition c).
Proof.
  revert c. induction deltaTimes as [| dt dts IH]; intros c H; [split; [exact H | congruence] |].
  change (cameraRun (dt :: dts) c) with (cameraRun dts (CameraController.update dt c)).
  assert (U : CameraController.update dt c
              = CameraController.mk (CameraController.targetPosition c)
                  (CameraController.targetPosition c) (CameraController.targetPosition c)
                  (CameraController.lookAtTarget c)).
  { unfold CameraController.update. rewrite H, lerp_fixed. reflexivity. }
  rewrite U.
  destruct (IH (CameraController.mk (CameraController.targetPosition c)
                  (CameraController.targetPosition c) (CameraController.targetPosition c)
                  (CameraController.lookAtTarget c)) eq_refl) as [I1 I2].
  cbn [CameraController.targetPosition] in I1, I2.
  split; [exact I1 |]. intros _.
  destruct dts as [| dt' dts']; [reflexivity | apply I2; discriminate].
Qed.

(** X25.  A camera whose current position is its target position stays
    there through any updates, and an update with delta time zero moves no
    camera.  Over the real numbers, while the target stays where it is, every
    update leaves the camera at the share [1 - min(5 deltaTime, 1)] of its
    distance to the target, and the shares of successive frames multiply; the
    double-precision [lerp] of the code follows this only up to rounding. *)
Theorem camera_closes_in_on_its_target (deltaTimes : list R) (c : CameraController.t) :
  (CameraController.currentPosition c = CameraController.targetPosition c ->
   CameraController.currentPosition (cameraRun deltaTimes c)
   = CameraController.targetPosition c /\
   (deltaTimes <> [] ->
    CameraController.cameraPosition (cameraRun deltaTimes c)
    = CameraController.targetPosition c)) /\
  CameraController.currentPosition (CameraController.update 0 c)
  = CameraController.currentPosition c /\
  Vector3.distanceTo (CameraController.currentPosition (cameraRun deltaTimes c))
                     (CameraController.targetPosition c)
  = remainingShare deltaTimes
    * Vector3.distanceTo (CameraController.currentPosition c)
                         (CameraController.targetPosition c).
Proof.
  split; [apply cameraRun_arrived |]. split.
  - unfold CameraController.update. cbn [CameraController.currentPosition].
    rewrite Rmin_left by lra.
    destruct (CameraController.currentPosition c) as [x y z].
    unfold Vector3.lerp. cbn [Vector3.x Vector3.y Vector3.z]. apply vec_eq; ring.
  - revert c. induction deltaTimes as [| dt dts IH]; intros c; [cbn; lra |].
    change (cameraRun (dt :: dts) c) with (cameraRun dts (CameraController.update dt c)).
    pose proof (IH (CameraController.update dt c)) as IH1.
    change (CameraController.targetPosition (CameraController.update dt c))
      with (CameraController.targetPosition c) in IH1.
    rewrite IH1, update_distance. cbn [remainingShare fold_right].
    fold (remainingShare dts). ring.
Qed.

Lemma camera_closes_in_on_its_target_witness :
  CameraController.cameraPosition (cameraRun [0.1; 0.3] CameraController.new)
  = Vector3.zero.
Proof.
  refine (proj2 (proj1 (camera_closes_in_on_its_target [0.1; 0.3] CameraController.new)
                   eq_refl) _).
  discriminate.
Defined.

(** ** EffectsSystem *)

Lemma updateFrom_spec (deltaTime currentTime : R)
    (l1 l2 : list EffectsSystem.ParticleEffect) :
  EffectsSystem.updateFrom (length l1) deltaTime currentTime (l1 ++ l2)
  = map (fun e => EffectsSystem.updateParticleEffect e deltaTime
                    (EffectsSystem.elapsedAt currentTime e))
        (filter (fun e => negb (expiredAt currentTime e)) l1) ++ l2.
Proof.
  revert l2. induction l1 as [| e l1 IH] using rev_ind; intros l2; [reflexivity |].
  rewrite length_app, Nat.add_comm. cbn [length Nat.add EffectsSystem.updateFrom].
  rewrite <- app_assoc. cbn [app].
  assert (N : nth_error (l1 ++ e :: l2) (length l1) = Some e).
  { rewrite nth_error_app2 by lia. now rewrite Nat.sub_diag. }
  assert (F : firstn (length l1) (l1 ++ e :: l2) = l1).
  { rewrite firstn_app, Nat.sub_diag, firstn_all. cbn. apply app_nil_r. }
  assert (K : skipn (S (length l1)) (l1 ++ e :: l2) = l2).
  { rewrite skipn_app, skipn_all2 by lia.
    replace (S (length l1) - length l1)%nat with 1%nat by lia. reflexivity. }
  rewrite N, F, K, filter_app, map_app. cbn [filter]. unfold expiredAt.
  destruct (Rgeb _ _); cbn [negb map].
  - rewrite IH, app_nil_r. reflexivity.
  - rewrite IH, <- app_assoc. reflexivity.
Qed.

(** X26.  [update] drops exactly the effects that have outlived their
    lifetime and advances every other effect once, keeping their order: the
    backward loop skips no entry when it removes one. *)
Theorem update_drops_exactly_the_expired_effects (deltaTime currentTime : R)
    (effects : EffectsSystem.t) :
  EffectsSystem.update deltaTime currentTime effects
  = map (fun e => EffectsSystem.updateParticleEffect e deltaTime
                    (EffectsSystem.elapsedAt currentTime e))
        (filter (fun e => negb (expiredAt currentTime e)) effects).
Proof.
  unfold EffectsSystem.update.
  pose proof (updateFrom_spec deltaTime currentTime effects []) as H.
  now rewrite !app_nil_r in H.
Qed.

(** ** HUD *)

Lemma floor_unique (r : R) (z : Z) : IZR z <= r < IZR z + 1 -> floor r = z.
Proof. intros H. unfold floor. symmetry. apply Int_part_spec. lra. Qed.

Lemma floor_bounds (r : R) : IZR (floor r) <= r < IZR (floor r) + 1.
Proof. unfold floor. pose proof (base_Int_part r). lra. Qed.

Lemma clock_numbers (seconds : R) :
  0 <= seconds ->
  floor (seconds / 60) = (floor seconds / 60)%Z /\
  floor (jsRem seconds 60) = (floor seconds mod 60)%Z.
Proof.
  intros H. pose proof (floor_bounds seconds) as B.
  set (n := floor seconds) in *.
  assert (Hn : (0 <= n)%Z).
  { assert (L : (-1 < n)%Z) by (apply lt_IZR; lra). lia. }
  pose proof (Z.div_mod n 60 ltac:(lia)) as D.
  pose proof (Z.mod_pos_bound n 60 ltac:(lia)) as M.
  set (q := (n / 60)%Z) in *. set (r := (n mod 60)%Z) in *.
  assert (En : IZR n = 60 * IZR q + IZR r).
  { rewrite D, plus_IZR, mult_IZR. reflexivity. }
  assert (Hr : 0 <= IZR r <= 59).
  { split; [apply IZR_le; lia | apply IZR_le; lia]. }
  assert (Q : floor (seconds / 60) = q) by (apply floor_unique; lra).
  split; [exact Q |].
  unfold jsRem, trunc. rewrite Rleb_true by lra.
  change (Int_part (seconds / 60)) with (floor (seconds / 60)). rewrite Q.
  apply floor_unique. lra.
Qed.

(** X27.  For a time that is not negative the time display shows the whole
    seconds as minutes and seconds below sixty, each padded to two digits, and
    it takes the warning colour exactly below ten seconds. *)
Theorem time_display_shows_whole_seconds (seconds : R) (h : HUD.t) :
  0 <= seconds ->
  HUD.timeText (HUD.updateTime seconds h)
  = HUD.clock (floor seconds / 60) (floor seconds mod 60) /\
  (0 <= floor seconds mod 60 < 60)%Z /\
  (60 * (floor seconds / 60) + floor seconds mod 60 = floor seconds)%Z /\
  HUD.timeColor (HUD.updateTime seconds h)
  = (if Rltb seconds 10 then HUD.warning else HUD.white).
Proof.
  intros H. destruct (clock_numbers seconds H) as [Q M].
  unfold HUD.updateTime, HUD.clock. cbn [HUD.timeText HUD.timeColor].
  rewrite Q, M. split; [reflexivity |].
  split; [apply Z.mod_pos_bound; lia |].
  split; [symmetry; apply Z.div_mod; lia | reflexivity].
Qed.

Lemma time_display_shows_whole_seconds_witness :
  HUD.timeText (HUD.updateTime 75.5 HUD.new)
  = HUD.clock (floor 75.5 / 60) (floor 75.5 mod 60).
Proof.
  refine (proj1 (time_display_shows_whole_seconds 75.5 HUD.new _)). lra.
Defined.

(** ** MeteorSpawner: where the targets are *)

Lemma generateRandomTarget_bounds (g : Rng) :
  (forall n, 0 <= g n < 1) ->
  let r := Meteor.generateRandomTarget MeteorSpawner.stageSize MeteorSpawner.stageMargin g in
  (-4.2 <= Vector3.x (fst r) <= 4.2 /\ Vector3.y (fst r) = 0 /\
   -4.2 <= Vector3.z (fst r) <= 4.2) /\
  (forall n, 0 <= snd r n < 1).
Proof.
  intros H. cbv zeta. unfold Meteor.generateRandomTarget, random,
    MeteorSpawner.stageSize, MeteorSpawner.stageMargin.
  cbn [fst snd Vector3.x Vector3.y Vector3.z].
  pose proof (H 0%nat). pose proof (H 1%nat).
  split; [repeat split; lra | intros n; apply H].
Qed.

Lemma generateValidTargetLoop_bounds (attempts : nat) (s : MeteorSpawner.t) (g : Rng) :
  (forall n, 0 <= g n < 1) ->
  let target := fst (MeteorSpawner.generateValidTargetLoop attempts s g) in
  -4.2 <= Vector3.x target <= 4.2 /\ Vector3.y target = 0 /\
  -4.2 <= Vector3.z target <= 4.2.
Proof.
  revert g. induction attempts as [| n IH]; intros g H; cbv zeta.
  - apply (generateRandomTarget_bounds g H).
  - cbn [MeteorSpawner.generateValidTargetLoop].
    destruct (generateRandomTarget_bounds g H) as [B G].
    destruct (Meteor.generateRandomTarget _ _ g) as [target g1].
    cbn [fst snd] in B, G.
    destruct (Meteor.isValidTarget _ _ _); [exact B | apply IH; exact G].
Qed.

(** X28.  When [Math.random] answers numbers from 0 up to 1, the target that
    [generateValidTarget] answers lies at ground level within 4.2 of the
    centre of the stage on both axes, whether or not one of the ten attempts
    was valid. *)
Theorem generated_target_is_on_the_stage (s : MeteorSpawner.t) (g : Rng) :
  (forall n, 0 <= g n < 1) ->
  let target := fst (MeteorSpawner.generateValidTarget s g) in
  -4.2 <= Vector3.x target <= 4.2 /\ Vector3.y target = 0 /\
  -4.2 <= Vector3.z target <= 4.2.
Proof. apply generateValidTargetLoop_bounds. Qed.

Lemma generated_target_is_on_the_stage_witness :
  -4.2 <= Vector3.x (fst (MeteorSpawner.generateValidTarget MeteorSpawner.new coinHalf))
       <= 4.2.
Proof.
  refine (proj1 (generated_target_is_on_the_stage MeteorSpawner.new coinHalf _)).
  intros n. unfold coinHalf. lra.
Defined.

(** ** The cube of main.js *)

Lemma mainStep_overlay (s : Main.t) (step : MainStep) :
  Main.overlays s = (if Main.cleared s then 1 else 0)%nat ->
  Main.overlays (mainStep s step) = (if Main.cleared (mainStep s step) then 1 else 0)%nat /\
  Main.cleared (mainStep s step) = Main.cleared s || hitsRedFace step.
Proof.
  intros H. destruct step as [x y | x y | | hit]; cbn [mainStep hitsRedFace].
  - cbn. now rewrite orb_false_r.
  - unfold Main.pointermove. destruct (negb _); cbn; now rewrite orb_false_r.
  - cbn. now rewrite orb_false_r.
  - unfold Main.click. destruct (Main.cleared s) eqn:C.
    + rewrite C. split; [exact H | reflexivity].
    + destruct hit as [faceIndex |]; [| rewrite C; split; [exact H | reflexivity]].
      cbn [orb]. unfold Main.redSide.
      assert (E : Nat.eqb (Nat.div faceIndex 2) 4
                  = Nat.eqb faceIndex 8 || Nat.eqb faceIndex 9).
      { destruct (Nat.eqb (Nat.div faceIndex 2) 4) eqn:D.
        - apply Nat.eqb_eq in D.
          pose proof (Nat.div_mod_eq faceIndex 2) as M.
          pose proof (Nat.mod_upper_bound faceIndex 2 ltac:(lia)) as U.
          symmetry. apply orb_true_iff. rewrite !Nat.eqb_eq. lia.
        - apply Nat.eqb_neq in D. symmetry. apply orb_false_iff.
          rewrite !Nat.eqb_neq. split; intros ->; apply D; reflexivity. }
      rewrite <- E. destruct (Nat.eqb (Nat.div faceIndex 2) 4); cbn.
      * rewrite H. split; reflexivity.
      * rewrite C. split; [exact H | reflexivity].
Qed.

(** X29.  The overlay is shown at most once: exactly once if some click of
    the history hit triangle 8 or 9 of the cube, and never otherwise. *)
Theorem clear_overlay_is_shown_once (steps : list MainStep) :
  Main.overlays (mainRun steps Main.new) = (if existsb hitsRedFace steps then 1 else 0)%nat /\
  Main.cleared (mainRun steps Main.new) = existsb hitsRedFace steps.
Proof.
  assert (G : forall s,
             Main.overlays s = (if Main.cleared s then 1 else 0)%nat ->
             Main.overlays (mainRun steps s)
             = (if Main.cleared (mainRun steps s) then 1 else 0)%nat /\
             Main.cleared (mainRun steps s) = Main.cleared s || existsb hitsRedFace steps).
  { induction steps as [| step steps IH]; intros s H.
    - cbn. rewrite orb_false_r. split; [exact H | reflexivity].
    - destruct (mainStep_overlay s step H) as [H1 H2].
      destruct (IH (mainStep s step) H1) as [I1 I2].
      change (mainRun (step :: steps) s) with (mainRun steps (mainStep s step)).
      split; [exact I1 |]. rewrite I2, H2. cbn [existsb]. now rewrite orb_assoc. }
  destruct (G Main.new eq_refl) as [G1 G2]. cbn [Main.new Main.cleared orb] in G2.
  rewrite G1, G2. split; reflexivity.
Qed.

Lemma drag_moves (moves : list (R * R)) (s : Main.t) :
  Main.isDragging s = true ->
  Main.rotationY (mainRun (dragMoves moves) s)
  = Main.rotationY s + 0.01 * (Main.lastX (mainRun (dragMoves moves) s) - Main.lastX s) /\
  Main.rotationX (mainRun (dragMoves moves) s)
  = Main.rotationX s + 0.01 * (Main.lastY (mainRun (dragMoves moves) s) - Main.lastY s) /\
  Main.isDragging (mainRun (dragMoves moves) s) = true.
Proof.
  revert s. induction moves as [| [x y] moves IH]; intros s H.
  - cbn. repeat split; try lra. exact H.
  - change (mainRun (dragMoves ((x, y) :: moves)) s)
      with (mainRun (dragMoves moves) (Main.pointermove x y s)).
    assert (E : Main.pointermove x y s
                = Main.mk true x y (Main.rotationX s + (y - Main.lastY s) * 0.01)
                    (Main.rotationY s + (x - Main.lastX s) * 0.01)
                    (Main.cleared s) (Main.overlays s)).
    { unfold Main.pointermove. rewrite H. reflexivity. }
    rewrite E.
    match goal with
    | |- context [mainRun (dragMoves moves) ?q] =>
        destruct (IH q eq_refl) as (I1 & I2 & I3)
    end.
    cbn [Main.rotationX Main.rotationY Main.lastX Main.lastY] in I1, I2.
    rewrite I1, I2. repeat split; try lra. exact I3.
Qed.

Lemma idle_moves (moves : list (R * R)) (q : Main.t) :
  Main.isDragging q = false -> mainRun (dragMoves moves) q = q.
Proof.
  intros Hq. induction moves as [| [mx my] moves IH]; [reflexivity |].
  change (mainRun (dragMoves ((mx, my) :: moves)) q)
    with (mainRun (dragMoves moves) (Main.pointermove mx my q)).
  unfold Main.pointermove. rewrite Hq. cbn [negb]. exact IH.
Qed.

(** X30.  Pointer moves without a press turn nothing.  Over the real
    numbers a drag turns the cube by a hundredth of a radian per pixel between
    the press and the latest pointer position, whatever the path in between;
    the code adds one rounded increment per move, so in its double-precision
    arithmetic the total follows the displacement only up to rounding. *)
Theorem drag_turns_by_the_displacement (steps : list MainStep) (x0 y0 : R)
    (moves : list (R * R)) (x y : R) :
  let s := mainRun steps Main.new in
  let s' := mainRun (MainPointerdown x0 y0 :: dragMoves (moves ++ [(x, y)])) s in
  Main.rotationY s' = Main.rotationY s + 0.01 * (x - x0) /\
  Main.rotationX s' = Main.rotationX s + 0.01 * (y - y0) /\
  mainRun (dragMoves moves) (Main.pointerup s) = Main.pointerup s.
Proof.
  intros s s'.
  assert (L : Main.lastX s' = x /\ Main.lastY s' = y).
  { unfold s', dragMoves. rewrite map_app. unfold mainRun. cbn [fold_left map].
    rewrite fold_left_app. cbn [fold_left mainStep fst snd].
    unfold Main.pointermove.
    destruct (negb _) eqn:E.
    - exfalso. apply negb_true_iff in E.
      destruct (drag_moves moves (Main.pointerdown x0 y0 s) eq_refl) as (_ & _ & D).
      unfold mainRun, dragMoves in D. congruence.
    - split; reflexivity. }
  destruct L as [Lx Ly].
  destruct (drag_moves (moves ++ [(x, y)]) (Main.pointerdown x0 y0 s) eq_refl)
    as (R1 & R2 & _).
  change (mainRun (dragMoves (moves ++ [(x, y)])) (Main.pointerdown x0 y0 s)) with s'
    in R1, R2.
  rewrite Lx in R1. rewrite Ly in R2.
  split; [exact R1 |]. split; [exact R2 |].
  apply idle_moves. reflexivity.
Qed.
